(** * Agasobanuye: front-matter ingestion, normalisation and sitemap chunking

    A shallow embedding of the pure parts of [functions/agasobanuye.js]
    (and of the sitemap handler that follows it in the same source file),
    together with the properties of these functions.

    Conventions of the embedding.

    - A JavaScript string is a Rocq [string]; each [ascii] stands for one
      UTF-16 code unit with value below 256 (the Basic Latin and Latin-1
      blocks).  On that range [toLowerCase], [\s], [\w], [\d] and the line
      terminators excluded by [.] are exactly the functions given below.
    - A JavaScript object used as a dictionary is a [gmap string value];
      a missing key reads as [undefined], rendered by [None].
    - Built-ins whose result depends on the host ([JSON.parse], the clock,
      date parsing and locale formatting) are fields of a [Runtime].
    - A function that may throw returns an [outcome]. *)

From Stdlib Require Import ZArith NArith Bool List Ascii String DecimalString.
From stdpp Require Import base option list gmap strings sorting.

Local Open Scope bool_scope.

(** ** Characters *)

Module Chr.

Definition code (c : ascii) : N := N_of_ascii c.

Definition in_range (lo hi : N) (c : ascii) : bool :=
  ((lo <=? code c) && (code c <=? hi))%N.

(** [\d] *)
Definition is_digit : ascii -> bool := in_range 48 57.
Definition is_upper : ascii -> bool := in_range 65 90.
Definition is_lower : ascii -> bool := in_range 97 122.

(** [\w] is [[A-Za-z0-9_]] *)
Definition is_word (c : ascii) : bool :=
  is_digit c || is_upper c || is_lower c || (code c =? 95)%N.

(** [\s], which is also the set removed by [String.prototype.trim]:
    TAB, LF, VT, FF, CR, SPACE and NO-BREAK SPACE. *)
Definition is_space (c : ascii) : bool :=
  in_range 9 13 c || (code c =? 32)%N || (code c =? 160)%N.

(** Line terminators, the characters [.] does not match. *)
Definition is_line_terminator (c : ascii) : bool :=
  (code c =? 10)%N || (code c =? 13)%N.

Definition is_hyphen (c : ascii) : bool := (code c =? 45)%N.

(** One code unit of [toLowerCase]: [A-Z], and the Latin-1 capitals
    U+00C0..U+00DE except the multiplication sign U+00D7, move up by 32. *)
Definition to_lower (c : ascii) : ascii :=
  if is_upper c || (in_range 192 222 c && negb (code c =? 215)%N)
  then ascii_of_N (code c + 32) else c.

(** Comparison of two code units under the [i] flag against an ASCII
    letter of the pattern. *)
Definition eqb_ci (a b : ascii) : bool :=
  Ascii.eqb (if is_upper a then to_lower a else a)
            (if is_upper b then to_lower b else b).

End Chr.

(** ** Strings *)

Module Str.

Definition is_empty (s : string) : bool :=
  match s with EmptyString => true | String _ _ => false end.

Fixpoint map_chars (f : ascii -> ascii) (s : string) : string :=
  match s with
  | EmptyString => EmptyString
  | String c r => String (f c) (map_chars f r)
  end.

Fixpoint filter_chars (p : ascii -> bool) (s : string) : string :=
  match s with
  | EmptyString => EmptyString
  | String c r => if p c then String c (filter_chars p r) else filter_chars p r
  end.

Fixpoint all_chars (p : ascii -> bool) (s : string) : bool :=
  match s with
  | EmptyString => true
  | String c r => p c && all_chars p r
  end.

Fixpoint drop_while (p : ascii -> bool) (s : string) : string :=
  match s with
  | EmptyString => EmptyString
  | String c r => if p c then drop_while p r else s
  end.

Fixpoint take_while (p : ascii -> bool) (s : string) : string :=
  match s with
  | EmptyString => EmptyString
  | String c r => if p c then String c (take_while p r) else EmptyString
  end.

Fixpoint drop_while_end (p : ascii -> bool) (s : string) : string :=
  match s with
  | EmptyString => EmptyString
  | String c r =>
      let r' := drop_while_end p r in
      if p c && is_empty r' then EmptyString else String c r'
  end.

Definition first_char (s : string) : option ascii :=
  match s with EmptyString => None | String c _ => Some c end.

Fixpoint last_char (s : string) : option ascii :=
  match s with
  | EmptyString => None
  | String c EmptyString => Some c
  | String _ r => last_char r
  end.

(** [s.startsWith(p)]: the rest of [s] after [p], when [p] is a prefix. *)
Fixpoint strip_prefix (p s : string) : option string :=
  match p, s with
  | EmptyString, _ => Some s
  | String a p', String b s' => if Ascii.eqb a b then strip_prefix p' s' else None
  | String _ _, EmptyString => None
  end.

Definition starts_with (p s : string) : bool :=
  match strip_prefix p s with Some _ => true | None => false end.

(** The same, comparing letters without regard to case ([i] flag). *)
Fixpoint strip_prefix_ci (p s : string) : option string :=
  match p, s with
  | EmptyString, _ => Some s
  | String a p', String b s' =>
      if Chr.eqb_ci a b then strip_prefix_ci p' s' else None
  | String _ _, EmptyString => None
  end.

Definition ends_with_char (c : ascii) (s : string) : bool :=
  match last_char s with Some d => Ascii.eqb c d | None => false end.

(** All of [s] but its last code unit. *)
Fixpoint drop_last (s : string) : string :=
  match s with
  | EmptyString => EmptyString
  | String _ EmptyString => EmptyString
  | String c r => String c (drop_last r)
  end.

(** [s.substring(1)] *)
Definition tail (s : string) : string :=
  match s with EmptyString => EmptyString | String _ r => r end.

(** [s.trim()] *)
Definition trim (s : string) : string :=
  drop_while_end Chr.is_space (drop_while Chr.is_space s).

(** [s.split(sep)] for a one-character separator: never the empty list. *)
Fixpoint split_on (sep : ascii) (s : string) : list string :=
  match s with
  | EmptyString => [EmptyString]
  | String c r =>
      if Ascii.eqb c sep then EmptyString :: split_on sep r
      else match split_on sep r with
           | h :: t => String c h :: t
           | [] => [String c EmptyString]
           end
  end.

(** The text before and after the first occurrence of [pat] in [s]. *)
Fixpoint split_at_first (pat s : string) : option (string * string) :=
  match strip_prefix pat s with
  | Some rest => Some (EmptyString, rest)
  | None =>
      match s with
      | EmptyString => None
      | String c r =>
          match split_at_first pat r with
          | Some (b, a) => Some (String c b, a)
          | None => None
          end
      end
  end.

(** [l.join(sep)] *)
Fixpoint join (sep : string) (l : list string) : string :=
  match l with
  | [] => EmptyString
  | [x] => x
  | x :: r => x +:+ sep +:+ join sep r
  end.

(** An unanchored regular expression tries its pattern at every start
    position from the left; [scan m] does so for a matcher [m] of the
    pattern at one position. *)
Fixpoint scan {A : Type} (m : string -> option A) (s : string) : option A :=
  match m s with
  | Some a => Some a
  | None =>
      match s with
      | EmptyString => None
      | String _ r => scan m r
      end
  end.

(** [(\d+)] at the head of [s]: the longest run of digits, which must not
    be empty, and what follows it.  In every pattern of this file the run
    is followed by something that is not a digit, so no shorter run can
    make the pattern succeed where the longest fails. *)
Definition digits1 (s : string) : option (string * string) :=
  let d := take_while Chr.is_digit s in
  if is_empty d then None else Some (d, drop_while Chr.is_digit s).

(** One literal character. *)
Definition expect (c : ascii) (s : string) : option string :=
  match s with
  | String d r => if Ascii.eqb c d then Some r else None
  | EmptyString => None
  end.

Definition expect_ci (c : ascii) (s : string) : option string :=
  match s with
  | String d r => if Chr.eqb_ci c d then Some r else None
  | EmptyString => None
  end.

(** [$] *)
Definition at_end (s : string) : option unit :=
  if is_empty s then Some tt else None.

Definition is_quote (c : ascii) : bool :=
  (Chr.code c =? 34)%N || (Chr.code c =? 39)%N.

(** The replacement used to strip quotes: when the first and the last
    character are quotation marks (double or single, not necessarily the
    same kind) and nothing between them is a line terminator, the string
    is replaced by what lies between them; otherwise it is unchanged. *)
Definition unquote (s : string) : string :=
  match s with
  | String q r =>
      match last_char r with
      | Some q' =>
          if is_quote q && is_quote q'
             && all_chars (fun c => negb (Chr.is_line_terminator c)) (drop_last r)
          then drop_last r else s
      | None => s
      end
  | EmptyString => s
  end.

End Str.

(** ** Numbers

    Numbers of the source that hold integers are integers here; the two
    agree up to 2^53, beyond which the source rounds to a double. *)

Module Num.

Definition digit_value (c : ascii) : N := (Chr.code c - 48)%N.

(** The value of a run of decimal digits. *)
Definition of_digits (s : string) : N :=
  fold_left (fun acc c => (10 * acc + digit_value c)%N) (list_ascii_of_string s) 0%N.

(** [String(n)] for a non-negative integer. *)
Definition N_to_string (n : N) : string :=
  NilZero.string_of_uint (N.to_uint n).

Definition Z_to_string (z : Z) : string :=
  match z with
  | Z0 => "0"
  | Zpos p => N_to_string (Npos p)
  | Zneg p => "-" +:+ N_to_string (Npos p)
  end.

Definition hex_value (c : ascii) : option N :=
  if Chr.is_digit c then Some (Chr.code c - 48)%N
  else if Chr.in_range 97 102 c then Some (Chr.code c - 87)%N
  else if Chr.in_range 65 70 c then Some (Chr.code c - 55)%N
  else None.

Definition is_hex (c : ascii) : bool :=
  match hex_value c with Some _ => true | None => false end.

Definition of_hex_digits (s : string) : N :=
  fold_left (fun acc c => (16 * acc + default 0 (hex_value c))%N)
            (list_ascii_of_string s) 0%N.

(** The digits of [parseInt] after the sign: hexadecimal after a [0x] or
    [0X] prefix, decimal otherwise; [None] is [NaN]. *)
Definition parse_magnitude (s : string) : option N :=
  match s with
  | String "0" (String x r) =>
      if Chr.eqb_ci x "x" then
        let h := Str.take_while is_hex r in
        if Str.is_empty h then None else Some (of_hex_digits h)
      else Some (of_digits (Str.take_while Chr.is_digit s))
  | _ =>
      let d := Str.take_while Chr.is_digit s in
      if Str.is_empty d then None else Some (of_digits d)
  end.

(** [parseInt(s)] with no radix: leading white space is skipped, then an
    optional sign, then the digits; [None] is [NaN]. *)
Definition parseInt (s : string) : option Z :=
  let t := Str.drop_while Chr.is_space s in
  match t with
  | String "-" r => (fun n => (- Z.of_N n)%Z) <$> parse_magnitude r
  | String "+" r => Z.of_N <$> parse_magnitude r
  | _ => Z.of_N <$> parse_magnitude t
  end.

End Num.

(** ** Slugs *)

(** The characters kept by the first replacement of [generateSlug], those
    outside the class [[^\w\s-]]. *)
Definition slug_keeps (c : ascii) : bool :=
  Chr.is_word c || Chr.is_space c || Chr.is_hyphen c.

(** The class [[\s_-]] of the second replacement. *)
Definition slug_separator (c : ascii) : bool :=
  Chr.is_space c || (Chr.code c =? 95)%N || Chr.is_hyphen c.

(** Global replacement of every maximal run of separators by one hyphen;
    [in_run] tells that the previous character was a separator. *)
Fixpoint collapse_separators (in_run : bool) (s : string) : string :=
  match s with
  | EmptyString => EmptyString
  | String c r =>
      if slug_separator c then
        if in_run then collapse_separators true r
        else String "-" (collapse_separators true r)
      else String c (collapse_separators false r)
  end.

(** The last replacement: a run of hyphens at the start and a run of
    hyphens at the end are removed. *)
Definition strip_hyphens (s : string) : string :=
  Str.drop_while_end Chr.is_hyphen (Str.drop_while Chr.is_hyphen s).

Definition toLowerCase (s : string) : string := Str.map_chars Chr.to_lower s.

Definition generateSlug (text : string) : string :=
  strip_hyphens
    (collapse_separators false
       (Str.filter_chars slug_keeps
          (Str.trim (toLowerCase text)))).

(** ** Durations *)

Module Duration.

Import Str.

(** Anchored pattern: digits, colon, digits, colon, digits, end. *)
Definition match_hms (s : string) : option (string * string * string) :=
  '(h, r) ← digits1 s;
  r ← expect ":" r;
  '(m, r) ← digits1 r;
  r ← expect ":" r;
  '(sec, r) ← digits1 r;
  _ ← at_end r;
  Some (h, m, sec).

(** Anchored pattern: digits, colon, digits, end. *)
Definition match_ms (s : string) : option (string * string) :=
  '(m, r) ← digits1 s;
  r ← expect ":" r;
  '(sec, r) ← digits1 r;
  _ ← at_end r;
  Some (m, sec).

(** Digits, optional white space, then [min] in any case (the longer
    alternatives [minute] and [minutes] begin with it), at one position. *)
Definition minutes_here (s : string) : option string :=
  '(d, r) ← digits1 s;
  _ ← strip_prefix_ci "min" (drop_while Chr.is_space r);
  Some d.

(** Digits, optional white space, then [hr] or [hour] in any case. *)
Definition hours_here (s : string) : option string :=
  '(d, r) ← digits1 s;
  let r := drop_while Chr.is_space r in
  match strip_prefix_ci "hr" r with
  | Some _ => Some d
  | None => _ ← strip_prefix_ci "hour" r; Some d
  end.

(** Digits, [h], optional white space, digits, [m], in any case. *)
Definition hm_here (s : string) : option (string * string) :=
  '(h, r) ← digits1 s;
  r ← expect_ci "h" r;
  '(m, r) ← digits1 (drop_while Chr.is_space r);
  _ ← expect_ci "m" r;
  Some (h, m).

Definition match_minutes : string -> option string := scan minutes_here.
Definition match_hours : string -> option string := scan hours_here.
Definition match_hm : string -> option (string * string) := scan hm_here.

(** [String(parseInt(d))] for a captured run of digits. *)
Definition renumber (d : string) : string := Num.N_to_string (Num.of_digits d).

Definition convertDurationToISO (duration : string) : string :=
  if is_empty duration || String.eqb duration "Not specified" then "PT0M" else
  match match_hms duration with
  | Some (hours, minutes, seconds) =>
      "PT" +:+ hours +:+ "H" +:+ minutes +:+ "M" +:+ seconds +:+ "S"
  | None =>
  match match_ms duration with
  | Some (minutes, seconds) => "PT" +:+ minutes +:+ "M" +:+ seconds +:+ "S"
  | None =>
  match match_minutes duration with
  | Some d => "PT" +:+ renumber d +:+ "M"
  | None =>
  match match_hours duration with
  | Some d => "PT" +:+ renumber d +:+ "H"
  | None =>
  match match_hm duration with
  | Some (hours, minutes) => "PT" +:+ hours +:+ "H" +:+ minutes +:+ "M"
  | None => "PT0M"
  end end end end end.

Definition formatDurationForDisplay (duration : string) : string :=
  if is_empty duration || String.eqb duration "Not specified" then "" else
  match match_hms duration with
  | Some (hours, minutes, seconds) => hours +:+ "h " +:+ minutes +:+ "m"
  | None =>
  match match_ms duration with
  | Some (minutes, seconds) => minutes +:+ "m"
  | None =>
  match match_minutes duration with
  | Some d => renumber d +:+ "m"
  | None =>
  match match_hours duration with
  | Some d => renumber d +:+ "h"
  | None =>
  match match_hm duration with
  | Some (hours, minutes) => hours +:+ "h " +:+ minutes +:+ "m"
  | None => duration
  end end end end end.

End Duration.

(** ** Relative dates

    A [Date] is its time value in milliseconds, or [None] when the date is
    invalid (the time value is [NaN]). *)

Definition ms_per_day : Z := 1000 * 60 * 60 * 24.

(** [formatShortDate(date)], with the result of [new Date()] as [now]. *)
Definition formatShortDate (now : Z) (date : option Z) : string :=
  match date with
  | None => "NaNy ago"
  | Some t =>
      let diffTime := Z.abs (now - t) in
      let diffDays := (diffTime / ms_per_day)%Z in
      if (diffDays =? 0)%Z then "Today"
      else if (diffDays =? 1)%Z then "Yesterday"
      else if (diffDays <? 7)%Z then Num.Z_to_string diffDays +:+ "d ago"
      else if (diffDays <? 30)%Z then Num.Z_to_string (diffDays / 7) +:+ "w ago"
      else if (diffDays <? 365)%Z then Num.Z_to_string (diffDays / 30) +:+ "mo ago"
      else Num.Z_to_string (diffDays / 365) +:+ "y ago"
  end.

(** ** Values, exceptions and the host *)

(** The values a front-matter field can take.  [VList] is an array of
    strings built by the parser itself; [VJson src] is the array that
    [JSON.parse] returned for the text [src]. *)
Inductive value : Type :=
  | VStr (s : string)
  | VNum (n : Z)
  | VBool (b : bool)
  | VList (items : list string)
  | VJson (src : string).

Global Instance value_eq_dec : EqDecision value.
Proof. solve_decision. Defined.

(** ToBoolean: the empty string, zero and [false] are falsy, every array
    is truthy. *)
Definition truthy (v : value) : bool :=
  match v with
  | VStr s => negb (Str.is_empty s)
  | VNum n => negb (n =? 0)%Z
  | VBool b => b
  | VList _ | VJson _ => true
  end.

(** [a || b] where [a] is a property read, [undefined] when absent. *)
Definition js_or (a : option value) (b : value) : value :=
  match a with
  | Some v => if truthy v then v else b
  | None => b
  end.

Definition is_string (v : value) : bool :=
  match v with VStr _ => true | _ => false end.

Inductive error : Type := TypeError | SyntaxError | NetworkError.

Inductive outcome (A : Type) : Type :=
  | Ret (a : A)
  | Throw (e : error).
Arguments Ret {A} a.
Arguments Throw {A} e.

Global Instance outcome_ret : MRet outcome := @Ret.
Global Instance outcome_bind : MBind outcome := λ A B f m,
  match m with Ret a => f a | Throw e => Throw e end.

Definition raised {A : Type} (o : outcome A) : bool :=
  match o with Ret _ => false | Throw _ => true end.

(** What [fetch] followed by [response.ok] and [response.text()] gives. *)
Inductive fetched : Type :=
  | FetchText (text : string)
  | FetchNotOk
  | FetchFails.

(** The host: the built-ins whose results are not fixed by the source. *)
Record Runtime : Type := {
  (** [JSON.parse(s)] returns rather than throws *)
  JSON_accepts : string -> bool;
  (** [String(JSON.parse(s))] for an accepted array text; [None] when the
      conversion throws a [TypeError]: an element that is an object with a
      property named [toString] has no primitive value *)
  JSON_toString : string -> option string;
  (** [Date.parse(s)], [None] for [NaN] *)
  Date_parse : string -> option Z;
  (** the time value of [new Date()] *)
  Date_now : Z;
  (** [new Date().toISOString()] *)
  Date_now_iso : string;
  (** [date.toLocaleDateString('en-US', ...)] with the long format of [formatDate] *)
  toLocaleDateString : option Z -> string;
  (** the remote content store *)
  fetch : string -> fetched
}.

(** ** The front-matter parser *)

Definition LF : ascii := "010"%char.
Definition TAB : ascii := "009"%char.
Definition nl : string := String LF EmptyString.

(** the text of a file from its lines *)
Definition text_of_lines (l : list string) : string := Str.join nl l.

Module Yaml.

Import Str.

(** The block parser runs in a state and exception monad: the state is the
    object [data] being filled, and a [try] block that catches returns to
    the state reached when the exception was thrown. *)
Definition Block (A : Type) : Type :=
  gmap string value -> gmap string value * outcome A.

Global Instance block_ret : MRet Block := λ A a d, (d, Ret a).
Global Instance block_bind : MBind Block := λ A B f m d,
  match m d with
  | (d', Ret a) => f a d'
  | (d', Throw e) => (d', Throw e)
  end.

Definition throw {A : Type} (e : error) : Block A := λ d, (d, Throw e).

Definition lift {A : Type} (o : outcome A) : Block A := λ d, (d, o).

Definition try_catch {A : Type} (m : Block A) (handler : error -> Block A) : Block A :=
  λ d, match m d with
       | (d', Ret a) => (d', Ret a)
       | (d', Throw e) => handler e d'
       end.

(** [data[key] = value] on an object created by the literal [{}]: the
    name [__proto__] is the inherited accessor, which creates no own
    property; every other name becomes or overwrites an own property. *)
Definition set_property (key : string) (v : value) : Block unit :=
  λ d, (if String.eqb key "__proto__" then d else <[key := v]> d, Ret tt).

Fixpoint for_of {A : Type} (l : list A) (body : A -> Block unit) : Block unit :=
  match l with
  | [] => mret tt
  | x :: r => _ ← body x; for_of r body
  end.

(** The block between the opening marker line and the first later line
    break followed by three hyphens; the text in between is matched
    lazily, so the first such closing marker ends it. *)
Definition match_front_matter (content : string) : option string :=
  rest ← strip_prefix ("---" +:+ nl) content;
  '(body, _) ← split_at_first (nl +:+ "---") rest;
  Some body.

(** The line pattern: a key of word characters at the start, a colon,
    optional white space, then the rest of the line, which must be free of
    line terminators for the pattern to reach the end of the string. *)
Definition match_key_value (line : string) : option (string * string) :=
  let key := take_while Chr.is_word line in
  if is_empty key then None else
  r ← expect ":" (drop_while Chr.is_word line);
  let v := drop_while Chr.is_space r in
  if all_chars (fun c => negb (Chr.is_line_terminator c)) v
  then Some (key, v) else None.

Definition includes (line : string) (lines : list string) : bool :=
  existsb (String.eqb line) lines.

(** [lines.indexOf(line)]: the first position holding [line], or [-1]. *)
Fixpoint indexOf (line : string) (lines : list string) : Z :=
  match lines with
  | [] => -1
  | l :: r =>
      if String.eqb l line then 0
      else let i := indexOf line r in if (i <? 0)%Z then -1 else (i + 1)%Z
  end.

(** [lines[i]] for an index that is not negative *)
Definition line_at (lines : list string) (i : Z) : option string :=
  lines !! Z.to_nat i.

Definition is_list_item (l : string) : bool := starts_with "-" (trim l).

(** The loop that consumes list items from [nextLineIndex] on. *)
Fixpoint collect_items (ls : list string) : list string :=
  match ls with
  | [] => []
  | l :: r =>
      let arrayLine := trim l in
      if starts_with "-" arrayLine
      then unquote (trim (tail arrayLine)) :: collect_items r
      else []
  end.

(** The loop that consumes the indented lines of a block scalar. *)
Fixpoint collect_block (ls : list string) : string :=
  match ls with
  | [] => EmptyString
  | l :: r =>
      if starts_with "  " l || starts_with (String TAB EmptyString) l
      then trim l +:+ " " +:+ collect_block r
      else EmptyString
  end.

(** The fallback for a bracketed value that is not JSON. *)
Definition split_array (v : string) : list string :=
  filter (fun x => negb (is_empty x) = true)
         (map (fun x => unquote (trim x)) (split_on "," (drop_last (tail v)))).

Definition numeric_keys : list string :=
  ["releaseYear"; "views"; "likes"; "imdbRating"; "imdbVotes";
   "rottenTomatoesScore"; "metacriticScore"; "ageRestriction";
   "seasonNumber"; "totalSeasons"; "episodeNumber"; "episodeCount"].

Definition is_numeric_key (key : string) : bool :=
  existsb (String.eqb key) numeric_keys.

Section WithRuntime.

Context (R : Runtime).

(** [JSON.parse(v)] for a text that starts and ends with brackets *)
Definition JSON_parse (v : string) : outcome value :=
  if JSON_accepts R v then Ret (VJson v) else Throw SyntaxError.

(** The value given to one field, by the chain of cases of the loop body. *)
Definition field_value (lines : list string) (line key v : string) : Block value :=
  if is_empty v && includes line lines then
    let nextLineIndex := (indexOf line lines + 1)%Z in
    match line_at lines nextLineIndex with
    | Some l =>
        if is_list_item l
        then mret (VList (collect_items (drop (Z.to_nat nextLineIndex) lines)))
        else mret (VStr v)
    | None => mret (VStr v)
    end
  else if starts_with "[" v && ends_with_char "]" v then
    try_catch (lift (JSON_parse v)) (λ _, mret (VList (split_array v)))
  else if is_numeric_key key then
    mret (VNum (match Num.parseInt v with
                | Some n => if (n =? 0)%Z then 0%Z else n
                | None => 0%Z
                end))
  else if String.eqb v "true" || String.eqb v "false" then
    mret (VBool (String.eqb v "true"))
  else if String.eqb v "|" then
    let nextLineIndex := (indexOf line lines + 1)%Z in
    mret (VStr (trim (collect_block (drop (Z.to_nat nextLineIndex) lines))))
  else mret (VStr v).

(** The body of the loop over the lines. *)
Definition parse_line (lines : list string) (line : string) : Block unit :=
  if is_empty (trim line) then mret tt else
  match match_key_value line with
  | Some (key, raw) =>
      v ← field_value lines line key (trim (unquote raw));
      set_property key v
  | None => mret tt
  end.

(** The argument of [parseYAMLFrontmatter]: a string, or a value on which
    the method call [content.match] throws. *)
Inductive argument : Type :=
  | AString (s : string)
  | AUndefined
  | ANull.

(** The statements inside [try]. *)
Definition block (content : argument) : Block unit :=
  match content with
  | AString s =>
      match match_front_matter s with
      | None => mret tt
      | Some frontmatter =>
          let lines := split_on LF frontmatter in
          for_of lines (parse_line lines)
      end
  | AUndefined | ANull => throw TypeError
  end.

(** The handler of the block logs and falls through to [return data]. *)
Definition parseYAMLFrontmatter (content : argument) : gmap string value :=
  fst (block content ∅).

End WithRuntime.

End Yaml.

(** ** The field normaliser *)

(** One entry of the remote listing. *)
Record RawFile : Type := {
  name : string;
  download_url : string;
  html_url : string
}.

Module Video.

Import Str.

(** One bracketed group of the file-name pattern: an opening bracket, one
    or more characters other than a closing bracket, a closing bracket. *)
Definition bracketed (s : string) : option (string * string) :=
  r ← expect "[" s;
  let inside := take_while (fun c => negb (Ascii.eqb c "]")) r in
  if is_empty inside then None else
  r ← expect "]" (drop_while (fun c => negb (Ascii.eqb c "]")) r);
  Some (inside, r).

(** The whole name must be three bracketed groups followed by [.md]. *)
Definition match_filename (n : string) : option (string * string * string) :=
  '(title, r) ← bracketed n;
  '(contentType, r) ← bracketed r;
  '(translator, r) ← bracketed r;
  r ← strip_prefix ".md" r;
  _ ← at_end r;
  Some (title, contentType, translator).

(** [title.replace(/-/g, ' ')] *)
Definition hyphens_to_spaces (s : string) : string :=
  map_chars (fun c => if Chr.is_hyphen c then " "%char else c) s.

(** A call of a string function on a value that need not be a string:
    the method looked up on anything else is [undefined], and calling it
    throws. *)
Definition call_generateSlug (v : value) : outcome string :=
  match v with
  | VStr s => Ret (generateSlug s)
  | _ => Throw TypeError
  end.

(** Both duration formatters return before any method call when their
    argument is falsy. *)
Definition call_convertDurationToISO (v : value) : outcome string :=
  match v with
  | VStr s => Ret (Duration.convertDurationToISO s)
  | _ => if truthy v then Throw TypeError else Ret "PT0M"
  end.

Definition call_formatDurationForDisplay (v : value) : outcome string :=
  match v with
  | VStr s => Ret (Duration.formatDurationForDisplay s)
  | _ => if truthy v then Throw TypeError else Ret ""
  end.

Definition truthy_opt (o : option value) : bool :=
  match o with Some v => truthy v | None => false end.

(** The largest time value of a [Date]. *)
Definition max_time : Z := 8640000000000000.

Section WithRuntime.

Context (R : Runtime).

(** [String(v)], as used for property keys and by [new Date(v)] on arrays.
    An array is joined from the strings of its elements, and the
    conversion of an element read by [JSON.parse] may throw. *)
Definition to_string (v : value) : outcome string :=
  match v with
  | VStr s => Ret s
  | VNum n => Ret (Num.Z_to_string n)
  | VBool b => Ret (if b then "true" else "false")
  | VList l => Ret (join "," l)
  | VJson src =>
      match JSON_toString R src with
      | Some s => Ret s
      | None => Throw TypeError
      end
  end.

(** The time value of [new Date(v)]: a string (or an array, through its
    string form) is parsed, a number or boolean is taken as the time.  The
    conversion of an array to its string form may throw. *)
Definition new_Date (v : value) : outcome (option Z) :=
  match v with
  | VNum n => Ret (if (Z.abs n <=? max_time)%Z then Some n else None)
  | VBool b => Ret (Some (if b then 1 else 0)%Z)
  | VStr _ | VList _ | VJson _ =>
      match to_string v with
      | Ret s => Ret (Date_parse R s)
      | Throw e => Throw e
      end
  end.

(** The object literal of [parseTranslatedVideo] before the spread. *)
Definition named_fields (file : RawFile) (fm : gmap string value)
    (title contentType translator translatorSlug : string) : gmap string value :=
  list_to_map
    [ ("filename", VStr (name file));
      ("title", js_or (fm !! "title") (VStr (trim (hyphens_to_spaces title))));
      ("slug", js_or (fm !! "slug") (VStr (generateSlug title)));
      ("contentType", js_or (fm !! "contentType") (VStr (trim contentType)));
      ("translator", js_or (fm !! "translator") (VStr (trim translator)));
      ("translatorSlug", VStr translatorSlug);
      ("downloadUrl", VStr (download_url file));
      ("htmlUrl", VStr (html_url file));
      ("duration", js_or (fm !! "runtime") (js_or (fm !! "duration") (VStr "")));
      ("quality", js_or (fm !! "quality") (js_or (fm !! "videoQuality") (VStr "HD")));
      ("uploadDate",
         js_or (fm !! "dateAdded") (js_or (fm !! "uploadDate") (VStr (Date_now_iso R))));
      ("poster", js_or (fm !! "posterUrl") (js_or (fm !! "thumbnailUrl") (VStr "")));
      ("videoUrl", js_or (fm !! "videoUrl") (VStr ""));
      ("description",
         js_or (fm !! "description") (js_or (fm !! "shortDescription") (VStr "")));
      ("releaseYear", js_or (fm !! "releaseYear") (VStr ""));
      ("genre", js_or (fm !! "genre") (VList []));
      ("views", js_or (fm !! "views") (VNum 0));
      ("likes", js_or (fm !! "likes") (VNum 0)) ].

(** The literal with its trailing spread of every front-matter field:
    a key of the front-matter overrides the named field of that key. *)
Definition object_literal (file : RawFile) (fm : gmap string value)
    (title contentType translator translatorSlug : string) : gmap string value :=
  fm ∪ named_fields file fm title contentType translator translatorSlug.

(** Ensure ISO duration exists *)
Definition ensure_iso_duration (v : gmap string value) : outcome (gmap string value) :=
  if truthy_opt (v !! "duration") && negb (truthy_opt (v !! "isoDuration")) then
    iso ← call_convertDurationToISO (default (VStr "") (v !! "duration"));
    Ret (<["isoDuration" := VStr iso]> v)
  else Ret v.

(** Format upload date for display *)
Definition format_upload_date (v : gmap string value) : outcome (gmap string value) :=
  match v !! "uploadDate" with
  | Some u =>
      if truthy u then
        match new_Date u with
        | Ret date =>
            Ret (<["shortDate" := VStr (formatShortDate (Date_now R) date)]>
                   (<["formattedDate" := VStr (toLocaleDateString R date)]> v))
        | Throw e => Throw e
        end
      else Ret v
  | None => Ret v
  end.

(** Format duration for display *)
Definition format_duration (v : gmap string value) : outcome (gmap string value) :=
  match v !! "duration" with
  | Some d =>
      if truthy d && negb (bool_decide (d = VStr "Not specified")) then
        shown ← call_formatDurationForDisplay d;
        Ret (<["formattedDuration" := VStr shown]> v)
      else Ret v
  | None => Ret v
  end.

(** The three steps that follow the object literal, and the final
    [return videoData]. *)
Definition derive_fields (videoData : gmap string value)
    : outcome (option (gmap string value)) :=
  videoData ← ensure_iso_duration videoData;
  videoData ← format_upload_date videoData;
  videoData ← format_duration videoData;
  Ret (Some videoData).

(** The statements inside [try]; [Ret None] is [return null]. *)
Definition parse_body (file : RawFile) : outcome (option (gmap string value)) :=
  match match_filename (name file) with
  | None => Ret None
  | Some (title, contentType, translator) =>
      match fetch R (download_url file) with
      | FetchFails => Throw NetworkError
      | FetchNotOk => Ret None
      | FetchText content =>
          let frontmatterData := Yaml.parseYAMLFrontmatter R (Yaml.AString content) in
          translatorSlug ←
            call_generateSlug (js_or (frontmatterData !! "translator") (VStr translator));
          derive_fields
            (object_literal file frontmatterData title contentType translator translatorSlug)
      end
  end.

(** The handler logs and returns [null]. *)
Definition parseTranslatedVideo (file : RawFile) : option (gmap string value) :=
  match parse_body file with
  | Ret r => r
  | Throw _ => None
  end.

(** *** Grouping the latest records by type *)

(** The names every object inherits from [Object.prototype]; reading one
    of them on [grouped] gives a truthy value that has no [push]. *)
Definition Object_prototype_names : list string :=
  ["constructor"; "__defineGetter__"; "__defineSetter__"; "hasOwnProperty";
   "__lookupGetter__"; "__lookupSetter__"; "isPrototypeOf";
   "propertyIsEnumerable"; "toString"; "valueOf"; "__proto__"; "toLocaleString"].

Definition inherited (key : string) : bool :=
  existsb (String.eqb key) Object_prototype_names.

(** One step of the grouping loop on the object [grouped]: the content
    type is turned into a property key, which may throw. *)
Definition group_step (grouped : gmap string (list (gmap string value)))
    (video : gmap string value) : outcome (gmap string (list (gmap string value))) :=
  match video !! "contentType" with
  | Some c =>
      if truthy c then
        match to_string c with
        | Ret key =>
            match grouped !! key with
            | Some l => Ret (<[key := l ++ [video]]> grouped)
            | None => if inherited key then Throw TypeError else Ret grouped
            end
        | Throw e => Throw e
        end
      else Ret grouped
  | None => Ret grouped
  end.

Fixpoint group_videos (grouped : gmap string (list (gmap string value)))
    (videos : list (gmap string value)) : outcome (gmap string (list (gmap string value))) :=
  match videos with
  | [] => Ret grouped
  | v :: r => g ← group_step grouped v; group_videos g r
  end.

Definition upload_time (video : gmap string value) : outcome (option Z) :=
  new_Date (js_or (video !! "uploadDate") (VNum 0)).

(** The difference of two dates; [NaN] when one of them is invalid, which
    the sort counts as zero. *)
Definition date_difference (tb ta : option Z) : Z :=
  match tb, ta with
  | Some tb, Some ta => (tb - ta)%Z
  | _, _ => 0%Z
  end.

(** The comparison function of the sort: the date of [b] is made first,
    then the date of [a], and either construction may throw. *)
Definition compare_upload (a b : gmap string value) : outcome Z :=
  match upload_time b with
  | Ret tb =>
      match upload_time a with
      | Ret ta => Ret (date_difference tb ta)
      | Throw e => Throw e
      end
  | Throw e => Throw e
  end.

(** [Array.prototype.sort] with a comparison function that may throw, in
    which case the sort throws.  The language fixes the result when the
    comparison is consistent: the sort is stable, and insertion from the
    right computes that result.  An array of fewer than two elements is
    returned without any comparison.  When the comparison is not
    consistent (an invalid date among valid ones) the language leaves the
    order to the engine, and the one computed here is one of the
    arrangements allowed; the properties below state an order only for a
    consistent comparison. *)
Fixpoint insert_by (cmp : gmap string value -> gmap string value -> outcome Z)
    (x : gmap string value) (l : list (gmap string value))
    : outcome (list (gmap string value)) :=
  match l with
  | [] => Ret [x]
  | y :: r =>
      match cmp x y with
      | Ret c =>
          if (c <=? 0)%Z then Ret (x :: l)
          else match insert_by cmp x r with
               | Ret r' => Ret (y :: r')
               | Throw e => Throw e
               end
      | Throw e => Throw e
      end
  end.

Fixpoint sort_by (cmp : gmap string value -> gmap string value -> outcome Z)
    (l : list (gmap string value)) : outcome (list (gmap string value)) :=
  match l with
  | [] => Ret []
  | x :: r =>
      match sort_by cmp r with
      | Ret sorted => insert_by cmp x sorted
      | Throw e => Throw e
      end
  end.

Definition empty_groups : gmap string (list (gmap string value)) :=
  <["MOVIE" := []]> (<["TV-SERIES" := []]> ∅).

(** Sort each type by date and take latest N videos *)
Definition latest (limit : nat) (l : list (gmap string value))
    : outcome (list (gmap string value)) :=
  match sort_by compare_upload l with
  | Ret sorted => Ret (take limit sorted)
  | Throw e => Throw e
  end.

(** [getLatestVideosByType(videos, limit)] for a limit that is a natural
    number.  The keys of [grouped] are the two names of its literal, in
    that order: the grouping loop adds no key. *)
Definition getLatestVideosByType (videos : list (gmap string value)) (limit : nat)
    : outcome (gmap string (list (gmap string value))) :=
  match group_videos empty_groups videos with
  | Ret grouped =>
      match latest limit (default [] (grouped !! "MOVIE")) with
      | Ret movies =>
          match latest limit (default [] (grouped !! "TV-SERIES")) with
          | Ret series => Ret (<["TV-SERIES" := series]> (<["MOVIE" := movies]> grouped))
          | Throw e => Throw e
          end
      | Throw e => Throw e
      end
  | Throw e => Throw e
  end.

End WithRuntime.

End Video.

(** ** Sitemaps *)

Module Sitemap.

Import Str.

Record Response : Type := {
  body : string;
  status : nat;
  headers : list (string * string)
}.

Definition xml_headers : list (string * string) :=
  [("Content-Type", "application/xml; charset=utf-8");
   ("Cache-Control", "public, max-age=10800")].

Definition xml_response (text : string) : Response :=
  {| body := text; status := 200; headers := xml_headers |}.

Definition plain_response (text : string) (code : nat) : Response :=
  {| body := text; status := code; headers := [] |}.

Definition quoted (s : string) : string :=
  String "034"%char s +:+ String "034"%char EmptyString.

Definition xml_declaration : string :=
  "<?xml version=" +:+ quoted "1.0" +:+ " encoding=" +:+ quoted "UTF-8" +:+ "?>".

Definition xmlns : string :=
  "xmlns=" +:+ quoted "http://www.sitemaps.org/schemas/sitemap/0.9".

(** One [<sitemap>] element of the index, with the line break and the
    indentation that precede it in the template. *)
Definition sitemap_element (baseUrl today file : string) : string :=
  nl +:+ "    <sitemap>" +:+
  nl +:+ "        <loc>" +:+ baseUrl +:+ "/" +:+ file +:+ "</loc>" +:+
  nl +:+ "        <lastmod>" +:+ today +:+ "</lastmod>" +:+
  nl +:+ "    </sitemap>".

Definition chunk_file (i : nat) : string :=
  "sitemap-" +:+ Num.N_to_string (N.of_nat i) +:+ ".xml".

(** [Math.ceil(length / maxUrls)] for a positive [maxUrls]. *)
Definition totalSitemaps (length maxUrls : nat) : nat :=
  (length + maxUrls - 1) / maxUrls.

(** The numbers the loop of [generateSitemapIndex] runs through. *)
Definition chunk_numbers (length maxUrls : nat) : list nat :=
  seq 1 (totalSitemaps length maxUrls).

Definition concat_strings (l : list string) : string :=
  foldr String.append EmptyString l.

Definition generateSitemapIndex (allVideoSlugs : list (string * string))
    (baseUrl today : string) (maxUrls : nat) : Response :=
  xml_response
    (xml_declaration +:+ nl +:+ "<sitemapindex " +:+ xmlns +:+ ">" +:+
     sitemap_element baseUrl today "sitemap-static.xml" +:+
     sitemap_element baseUrl today "sitemap-categories.xml" +:+
     concat_strings
       (map (fun i => sitemap_element baseUrl today (chunk_file i))
            (chunk_numbers (length allVideoSlugs) maxUrls)) +:+
     nl +:+ "</sitemapindex>").

(** One [<url>] element of a chunk. *)
Definition url_element (baseUrl today : string) (entry : string * string) : string :=
  let '(category, slug) := entry in
  let videoUrl := baseUrl +:+ "/" +:+ category +:+ "/" +:+ slug in
  nl +:+ "    <url>" +:+
  nl +:+ "        <loc>" +:+ videoUrl +:+ "</loc>" +:+
  nl +:+ "        <lastmod>" +:+ today +:+ "</lastmod>" +:+
  nl +:+ "        <changefreq>monthly</changefreq>" +:+
  nl +:+ "        <priority>0.6</priority>" +:+
  nl +:+ "    </url>".

Definition urlset (baseUrl today : string) (entries : list (string * string)) : string :=
  xml_declaration +:+ nl +:+ "<urlset " +:+ xmlns +:+ ">" +:+
  concat_strings (map (url_element baseUrl today) entries) +:+
  nl +:+ "</urlset>".

(** [l.slice(start, end)]: a negative bound counts from the end, and
    both bounds are clamped to the array. *)
Definition slice {A : Type} (l : list A) (start stop : Z) : list A :=
  let len := Z.of_nat (length l) in
  let clamp (i : Z) := if (i <? 0)%Z then Z.max (len + i) 0 else Z.min i len in
  let from := clamp start in
  let to := clamp stop in
  take (Z.to_nat (to - from)) (drop (Z.to_nat from) l).

(** The unanchored pattern of the chunk path: [sitemap-], digits, [.xml]. *)
Definition chunk_here (s : string) : option string :=
  r ← strip_prefix "sitemap-" s;
  '(d, r) ← digits1 r;
  _ ← strip_prefix ".xml" r;
  Some d.

Definition match_chunk : string -> option string := scan chunk_here.

Definition MAX_URLS_PER_SITEMAP : Z := 1000.

(** The date part of [new Date().toISOString()] *)
Definition today_of (iso : string) : string :=
  match split_on "T" iso with
  | d :: _ => d
  | [] => EmptyString
  end.

Definition generateIndividualSitemap (R : Runtime)
    (allVideoSlugs : list (string * string)) (baseUrl pathname : string) : Response :=
  let today := today_of (Date_now_iso R) in
  match match_chunk pathname with
  | None => plain_response "Invalid sitemap" 404
  | Some d =>
      let sitemapNumber := Z.of_N (Num.of_digits d) in
      let startIndex := ((sitemapNumber - 1) * MAX_URLS_PER_SITEMAP)%Z in
      let endIndex := (startIndex + MAX_URLS_PER_SITEMAP)%Z in
      let videoSlugs := slice allVideoSlugs startIndex endIndex in
      match videoSlugs with
      | [] => plain_response "Sitemap not found" 404
      | _ => xml_response (urlset baseUrl today videoSlugs)
      end
  end.

End Sitemap.

(** ** Vocabulary of the specification

    The definitions below are not taken from the source: they state what
    the specification asks of the values the source computes. *)

Module Spec.

Import Str.

(** *** Components of a formatted duration *)

(** An optional run of digits followed by the unit letter [u]. *)
Definition optional_part (u : ascii) (s : string) : option N * string :=
  match digits1 s with
  | Some (d, r) =>
      match expect u r with
      | Some r' => (Some (Num.of_digits d), r')
      | None => (None, s)
      end
  | None => (None, s)
  end.

(** The hour and minute components of an ISO-8601 duration of the form
    [PT], hours [H], minutes [M], seconds [S], each part optional;
    [None] if the text is not of that form. *)
Definition iso_components (s : string) : option (option N * option N) :=
  r ← strip_prefix "PT" s;
  let '(h, r) := optional_part "H" r in
  let '(m, r) := optional_part "M" r in
  let '(_, r) := optional_part "S" r in
  _ ← at_end r;
  Some (h, m).

(** The hour and minute components of the short human form, hours [h]
    then minutes [m], separated by a space when both are present. *)
Definition human_components (s : string) : option (option N * option N) :=
  let '(h, r) := optional_part "h" s in
  let '(m, r) := optional_part "m" (drop_while Chr.is_space r) in
  _ ← at_end r;
  Some (h, m).

Definition sample_durations : list string :=
  ["1:30:00"; "45:00"; "90 minutes"; "2 hours"; "1h30m"].

(** The two formatters agree on the hours and minutes of [d]. *)
Definition formatters_agree (d : string) : Prop :=
  ∃ hm, iso_components (Duration.convertDurationToISO d) = Some hm
        ∧ human_components (Duration.formatDurationForDisplay d) = Some hm.

(** A duration string that none of the five patterns of the grammar
    recognises. *)
Definition unmatched (d : string) : Prop :=
  Duration.match_hms d = None ∧ Duration.match_ms d = None
  ∧ Duration.match_minutes d = None ∧ Duration.match_hours d = None
  ∧ Duration.match_hm d = None.

(** *** Exceptions inside the front-matter block *)



(** *** The shape of a slug *)

(** [[a-z0-9-]] *)
Definition slug_char (c : ascii) : bool :=
  Chr.is_lower c || Chr.is_digit c || Chr.is_hyphen c.

(** Lower-case, made of [[a-z0-9-]] only, with no hyphen at either end. *)
Definition well_formed_slug (s : string) : Prop :=
  toLowerCase s = s
  ∧ all_chars slug_char s = true
  ∧ first_char s ≠ Some "-"%char
  ∧ last_char s ≠ Some "-"%char.

(** *** Relative dates *)

(** The label the specification gives to [n] whole days elapsed. *)
Definition relative_label (n : Z) : string :=
  if (n =? 0)%Z then "Today"
  else if (n =? 1)%Z then "Yesterday"
  else if (n <=? 6)%Z then Num.Z_to_string n +:+ "d ago"
  else if (n <=? 29)%Z then Num.Z_to_string (n / 7) +:+ "w ago"
  else if (n <=? 364)%Z then Num.Z_to_string (n / 30) +:+ "mo ago"
  else Num.Z_to_string (n / 365) +:+ "y ago".

(** *** Records and their types *)

(** A value that a string method can be called on, or that is falsy and
    so never reaches such a call. *)
Definition string_or_falsy (v : value) : bool :=
  is_string v || negb (truthy v).

(** The duration a record ends up with: the front-matter field
    [duration] when there is one, otherwise [runtime] when it is truthy,
    otherwise the empty string. *)
Definition record_duration (fm : gmap string value) : value :=
  match fm !! "duration" with
  | Some d => d
  | None => js_or (fm !! "runtime") (VStr "")
  end.

(** The text the translator slug is made from. *)
Definition translator_source (fm : gmap string value) (translator : string) : value :=
  js_or (fm !! "translator") (VStr translator).

(** The upload date a record ends up with: the front-matter field
    [uploadDate] when there is one, otherwise [dateAdded] when it is
    truthy, otherwise the present time. *)
Definition record_upload_date (R : Runtime) (fm : gmap string value) : value :=
  match fm !! "uploadDate" with
  | Some u => u
  | None => js_or (fm !! "dateAdded") (VStr (Date_now_iso R))
  end.

(** A value that [new Date] accepts without throwing, or that is falsy
    and so never reaches it. *)
Definition date_or_falsy (R : Runtime) (u : value) : bool :=
  negb (raised (Video.new_Date R u)) || negb (truthy u).

(** The fields added after the object literal is built. *)
Definition derived_keys : list string :=
  ["isoDuration"; "formattedDate"; "shortDate"; "formattedDuration"].

(** The record [v] counts as being of content type [k] in the grouping:
    its [contentType] is truthy and reads as the property name [k]. *)
Definition has_type (R : Runtime) (k : string) (v : gmap string value) : bool :=
  match v !! "contentType" with
  | Some c =>
      truthy c && match Video.to_string R c with
                  | Ret key => String.eqb key k
                  | Throw _ => false
                  end
  | None => false
  end.

(** The content type of the record, when truthy, can be turned into a
    property key. *)
Definition type_converts (R : Runtime) (v : gmap string value) : Prop :=
  ∀ c, v !! "contentType" = Some c → truthy c = true →
       raised (Video.to_string R c) = false.

(** The date the record is ordered by can be made without throwing. *)
Definition date_converts (R : Runtime) (v : gmap string value) : Prop :=
  raised (Video.upload_time R v) = false.

(** The record is of one of the two types the grouping keeps. *)
Definition kept_type (R : Runtime) (v : gmap string value) : bool :=
  has_type R "MOVIE" v || has_type R "TV-SERIES" v.

(** The record can be grouped and ordered without an exception: its
    content type, when truthy, can be turned into a property key, the key
    is not a name that [grouped] inherits, and when the record is of one
    of the two types kept its date can be made. *)
Definition sortable (R : Runtime) (v : gmap string value) : Prop :=
  type_converts R v
  ∧ (∀ k, has_type R k v = true → Video.inherited k = false)
  ∧ (kept_type R v = true → date_converts R v).

(** No record names, as its content type, a property that [grouped]
    inherits. *)
Definition no_inherited_type (R : Runtime) (v : gmap string value) : Prop :=
  ∀ k, has_type R k v = true → Video.inherited k = false.

(** The time used to order a record, when its date is valid. *)
Definition time_of (R : Runtime) (v : gmap string value) : Z :=
  match Video.upload_time R v with
  | Ret (Some t) => t
  | _ => 0%Z
  end.

(** Newest first. *)
Definition newest_first (R : Runtime) (l : list (gmap string value)) : Prop :=
  StronglySorted (λ a b, (time_of R b ≤ time_of R a)%Z) l.

(** The record has a valid upload date. *)
Definition dated (R : Runtime) (v : gmap string value) : Prop :=
  ∃ t, Video.upload_time R v = Ret (Some t).

(** [part] is what the grouping keeps for the type [k]: the first
    [limit] elements of an arrangement of all the records of that type,
    which is newest first when every one of these records is dated. *)
Definition latest_of (R : Runtime) (k : string) (videos : list (gmap string value))
    (limit : nat) (part : list (gmap string value)) : Prop :=
  ∃ rest,
    part ++ rest ≡ₚ filter (λ v, has_type R k v = true) videos
    ∧ length part = limit `min` length (part ++ rest)
    ∧ (Forall (dated R) (part ++ rest) → newest_first R (part ++ rest)).

End Spec.

(** ** Hosts and inputs used in the examples *)

(** The dates the hosts of the examples can parse, with their time
    values. *)
Definition known_dates : list (string * Z) :=
  [ ("2024-01-02", 1704153600000%Z);
    ("2024-03-04", 1709510400000%Z);
    ("2023-11-14T22:13:20.000Z", 1700000000000%Z) ].

Definition parse_known_date (s : string) : option Z :=
  snd <$> find (λ p, String.eqb (fst p) s) known_dates.

Definition QUOTE : string := String "034"%char EmptyString.

(** The text of an array whose one element is an object with a property
    named [toString]: the brackets around [{ "toString" : 1 }] without
    the spaces. *)
Definition unconvertible_array : string :=
  "[{" +:+ QUOTE +:+ "toString" +:+ QUOTE +:+ ":1}]".

(** A host that serves the text [text] at the address [url] and nothing
    else.  Of all JSON texts it is asked about only
    [unconvertible_array], which it accepts and cannot turn into a
    string; the dates it parses are the [known_dates]. *)
Definition host_serving (url text : string) : Runtime :=
  {| JSON_accepts := λ s, String.eqb s unconvertible_array;
     JSON_toString := λ _, None;
     Date_parse := parse_known_date;
     Date_now := 1700000000000;
     Date_now_iso := "2023-11-14T22:13:20.000Z";
     toLocaleDateString :=
       λ d, if bool_decide (d = Some 1700000000000%Z) then "November 14, 2023"
            else "Invalid Date";
     fetch := λ u, if String.eqb u url then FetchText text else FetchNotOk |}.

Definition sample_file : RawFile :=
  {| name := "[Spider-Man][MOVIE][Rocky Kimomo].md";
     download_url := "raw/spider-man";
     html_url := "blob/spider-man" |}.

(** A front-matter body in which the line of the field [genre] occurs
    twice, each time followed by its own list. *)
Definition duplicate_key_lines : list string :=
  ["genre:"; "- drama"; "title: x"; "genre:"; "- comedy"].

(** The text of a file with the lines [body] as its front-matter. *)
Definition with_front_matter (body : list string) : string :=
  text_of_lines ("---" :: body ++ ["---"; "Some text."]).

(** Front-matter that names the slugs itself. *)
Definition host_with_slugs : Runtime :=
  host_serving "raw/spider-man"
    (with_front_matter ["slug: Hello World"; "translatorSlug: Rocky K"]).

(** Front-matter without slugs. *)
Definition host_without_slugs : Runtime :=
  host_serving "raw/spider-man"
    (with_front_matter ["title: Spider-Man"; "translator: Rocky Kimomo"]).

(** Front-matter whose upload date is an array that cannot be turned
    into a string. *)
Definition host_with_unconvertible_date : Runtime :=
  host_serving "raw/spider-man"
    (with_front_matter ["uploadDate: " +:+ unconvertible_array]).


(** Front-matter whose translator is the boolean [true]. *)
Definition host_with_boolean_translator : Runtime :=
  host_serving "raw/spider-man" (with_front_matter ["translator: true"]).

(** Front-matter with both a runtime and a duration. *)
Definition host_with_two_durations : Runtime :=
  host_serving "raw/spider-man"
    (with_front_matter ["runtime: 90 min"; "duration: 1:30:00"]).

(** A record whose content type is an array that cannot be turned into
    a property key. *)
Definition unreadable_type : gmap string value :=
  <["contentType" := VJson unconvertible_array]> ∅.

(** A record of a type other than the two of the homepage sections. *)
Definition documentary : gmap string value :=
  <["contentType" := VStr "DOCUMENTARY"]> (<["title" := VStr "Gorillas"]> ∅).

Definition movie_of (date : string) : gmap string value :=
  <["contentType" := VStr "MOVIE"]> (<["uploadDate" := VStr date]> ∅).

Definition sample_videos : list (gmap string value) :=
  [movie_of "2024-01-02"; documentary; movie_of "2024-03-04"].

(** A host with nothing to serve. *)
Definition bare_host : Runtime := host_serving "" "".

(** Two thousand five hundred sitemap entries. *)
Definition sample_entries : list (string * string) :=
  repeat ("drama", "umuturanyi") 2500.

(** * Further functions of the source *)

From Stdlib Require Import DecimalN DecimalPos.

(** ** Escaping and truncating text for the page *)

Module Html.

Import Str.

Definition DQUOTE : ascii := "034"%char.
Definition APOSTROPHE : ascii := "039"%char.

(** [s.replace(/c/g, rep)] for a pattern that is one literal character *)
Fixpoint replace_char (c : ascii) (rep : string) (s : string) : string :=
  match s with
  | EmptyString => EmptyString
  | String d r =>
      if Ascii.eqb d c then rep +:+ replace_char c rep r
      else String d (replace_char c rep r)
  end.

(** [escapeHTML(str)] for a string argument: five global replacements,
    the ampersand first. *)
Definition escapeHTML (str : string) : string :=
  if is_empty str then EmptyString else
  replace_char APOSTROPHE "&#39;"
    (replace_char DQUOTE "&quot;"
       (replace_char ">" "&gt;"
          (replace_char "<" "&lt;"
             (replace_char "&" "&amp;" str)))).

(** The first [n] code units of [s]. *)
Fixpoint take_chars (n : nat) (s : string) : string :=
  match n, s with
  | S k, String c r => String c (take_chars k r)
  | _, _ => EmptyString
  end.

(** [truncate(str, maxLength)] for a string and an integer; a negative
    bound of [substring] counts as zero. *)
Definition truncate (str : string) (maxLength : Z) : string :=
  if is_empty str then EmptyString
  else if (Z.of_nat (String.length str) <=? maxLength)%Z then str
  else take_chars (Z.to_nat maxLength) str +:+ "...".

End Html.

(** ** Breadcrumbs *)

Module Crumbs.

Import Str.

(** The characters [encodeURIComponent] leaves as they are. *)
Definition unreserved (c : ascii) : bool :=
  Chr.is_upper c || Chr.is_lower c || Chr.is_digit c
  || existsb (Ascii.eqb c) (list_ascii_of_string "-_.!~*'()").

Definition hex_digit (n : N) : ascii :=
  if (n <? 10)%N then ascii_of_N (48 + n) else ascii_of_N (55 + n).

(** One escaped octet: a percent sign and two upper-case hexadecimal
    digits. *)
Definition percent (octet : N) : string :=
  String "%" (String (hex_digit (octet / 16)) (String (hex_digit (octet mod 16)) EmptyString)).

(** The UTF-8 form of one code unit below 256, escaped: one octet below
    128, two octets from 128 on. *)
Definition encode_unit (c : ascii) : string :=
  if unreserved c then String c EmptyString
  else if (Chr.code c <? 128)%N then percent (Chr.code c)
  else percent (192 + Chr.code c / 64) +:+ percent (128 + Chr.code c mod 64).

Fixpoint encodeURIComponent (s : string) : string :=
  match s with
  | EmptyString => EmptyString
  | String c r => encode_unit c +:+ encodeURIComponent r
  end.

(** One item of the trail; [current] is [false] where the source leaves
    the property undefined. *)
Record crumb : Type := {
  crumb_name : string;
  crumb_url : string;
  current : bool
}.

Definition item (n u : string) : crumb :=
  {| crumb_name := n; crumb_url := u; current := false |}.

(** [items[items.length - 1].current = true] *)
Fixpoint mark_last (items : list crumb) : list crumb :=
  match items with
  | [] => []
  | [c] => [{| crumb_name := crumb_name c; crumb_url := crumb_url c; current := true |}]
  | c :: r => c :: mark_last r
  end.

(** [generateBreadcrumbs(searchQuery, translatorFilter, typeFilter,
    baseUrl)] for string arguments. *)
Definition generateBreadcrumbs (searchQuery translatorFilter typeFilter baseUrl : string)
    : list crumb :=
  let items :=
    [ item "Home" (baseUrl +:+ "/");
      item "Agasobanuye" (baseUrl +:+ "/agasobanuye/") ] in
  let items :=
    if negb (is_empty typeFilter) then
      items ++ [ item (if String.eqb typeFilter "MOVIE" then "Movies" else "TV Shows")
                      (baseUrl +:+ "/agasobanuye/?type=" +:+ typeFilter) ]
    else items in
  let items :=
    if negb (is_empty translatorFilter) then
      items ++ [ item ("Translator: " +:+ translatorFilter)
                      (baseUrl +:+ "/agasobanuye/?translator=" +:+ translatorFilter) ]
    else items in
  let items :=
    if negb (is_empty searchQuery) then
      items ++ [ item ("Search: " +:+ String Html.DQUOTE searchQuery
                         +:+ String Html.DQUOTE EmptyString)
                      (baseUrl +:+ "/agasobanuye/?search=" +:+ encodeURIComponent searchQuery) ]
    else items in
  mark_last items.

End Crumbs.

(** ** Searching the records *)

Module Search.

Import Str.

(** [s.includes(q)] *)
Fixpoint includes (q s : string) : bool :=
  starts_with q s
  || match s with
     | EmptyString => false
     | String _ r => includes q r
     end.

(** [a || b] on the results of two tests, the second evaluated only when
    the first is falsy. *)
Definition or_else (a b : outcome bool) : outcome bool :=
  match a with
  | Ret true => Ret true
  | Ret false => b
  | Throw e => Throw e
  end.

(** [videos.filter(test)] for a test that may throw: the first exception
    ends the filtering. *)
Fixpoint filter_with {A : Type} (test : A -> outcome bool) (l : list A) : outcome (list A) :=
  match l with
  | [] => Ret []
  | x :: r =>
      match test x with
      | Ret keep =>
          match filter_with test r with
          | Ret rest => Ret (if keep then x :: rest else rest)
          | Throw e => Throw e
          end
      | Throw e => Throw e
      end
  end.

Section WithHost.

(** [JSON.parse(src).some(g => g.toLowerCase().includes(term))] for the
    array behind a [VJson src]; it throws when an element has no
    [toLowerCase]. *)
Context (json_some : string -> string -> outcome bool).

(** [video.f && video.f.toLowerCase().includes(searchTerm)] *)
Definition text_matches (searchTerm : string) (f : option value) : outcome bool :=
  match f with
  | Some v =>
      if truthy v then
        match v with
        | VStr s => Ret (includes searchTerm (toLowerCase s))
        | _ => Throw TypeError
        end
      else Ret false
  | None => Ret false
  end.

(** [video.f && Array.isArray(video.f) && video.f.some(...)] *)
Definition list_matches (searchTerm : string) (f : option value) : outcome bool :=
  match f with
  | Some (VList l) => Ret (existsb (fun g => includes searchTerm (toLowerCase g)) l)
  | Some (VJson src) => json_some src searchTerm
  | _ => Ret false
  end.

(** The test of the filter, a chain of six alternatives. *)
Definition video_matches (searchTerm : string) (video : gmap string value) : outcome bool :=
  or_else (text_matches searchTerm (video !! "title"))
  (or_else (text_matches searchTerm (video !! "description"))
  (or_else (text_matches searchTerm (video !! "translator"))
  (or_else (text_matches searchTerm (video !! "originalTitle"))
  (or_else (list_matches searchTerm (video !! "genre"))
           (list_matches searchTerm (video !! "metaKeywords")))))).

Definition searchVideos (videos : list (gmap string value)) (query : string)
    : outcome (list (gmap string value)) :=
  if is_empty query then Ret videos
  else filter_with (video_matches (toLowerCase query)) videos.

End WithHost.

End Search.

(** ** What a remote directory listing gives *)

(** The result of fetching a listing and reading it as JSON: the entries,
    a response that is not ok, or a failure (of the network, or of the
    reading of the body) that throws. *)
Inductive listing (A : Type) : Type :=
  | Listed (files : list A)
  | ListingNotOk
  | ListingFails.
Arguments Listed {A} files.
Arguments ListingNotOk {A}.
Arguments ListingFails {A}.

(** [s.endsWith(suffix)] *)
Fixpoint ends_with (suffix s : string) : bool :=
  String.eqb suffix s
  || match s with
     | EmptyString => false
     | String _ r => ends_with suffix r
     end.

(** ** The other sitemaps, the router and the slugs of the categories *)

Module Pages.

Import Str.

(** One entry of a category listing. *)
Record DirEntry : Type := {
  entry_name : string;
  entry_type : string
}.

(** [name.replace('.md', '')]: the first occurrence of the text is
    removed, wherever it is. *)
Definition remove_first_md (n : string) : string :=
  match split_at_first ".md" n with
  | Some (before, after) => before +:+ after
  | None => n
  end.

Definition is_markdown_file (n kind : string) : bool :=
  ends_with ".md" n && String.eqb kind "file".

(** The loop of [getCategorySlugs] over the entries. *)
Fixpoint slugs_of_entries (files : list DirEntry) : list string :=
  match files with
  | [] => []
  | file :: r =>
      if is_markdown_file (entry_name file) (entry_type file)
      then remove_first_md (entry_name file) :: slugs_of_entries r
      else slugs_of_entries r
  end.

(** [getCategorySlugs], given what the request for the category returns:
    anything but a listing gives no slug. *)
Definition getCategorySlugs (l : listing DirEntry) : list string :=
  match l with
  | Listed files => slugs_of_entries files
  | ListingNotOk => []
  | ListingFails => []
  end.

Definition categories : list string :=
  ["comedy"; "drama"; "music"; "action"; "documentary"].

(** The loop of [getAllVideoSlugs] over a list of categories; [directory]
    is the remote store, by category. *)
Fixpoint slugs_of_categories (directory : string -> listing DirEntry)
    (cats : list string) : list (string * string) :=
  match cats with
  | [] => []
  | category :: r =>
      map (fun slug => (category, slug)) (getCategorySlugs (directory category))
      ++ slugs_of_categories directory r
  end.

Definition getAllVideoSlugs (directory : string -> listing DirEntry)
    : list (string * string) :=
  slugs_of_categories directory categories.

(** The elements of a list without repetition, in the order of their
    first occurrence, as the spread of a [Set] gives them. *)
Fixpoint distinct (l : list string) : list string :=
  match l with
  | [] => []
  | x :: r => x :: filter (fun y => y ≠ x) (distinct r)
  end.

(** The categories of the entries: the empty one is dropped by
    [filter(Boolean)]. *)
Definition categories_of (allVideoSlugs : list (string * string)) : list string :=
  distinct (filter (fun c => negb (is_empty c) = true) (map fst allVideoSlugs)).

(** One [<url>] element. *)
Record UrlEntry : Type := {
  loc : string;
  changefreq : string;
  priority : string
}.

Definition render_url (today : string) (u : UrlEntry) : string :=
  nl +:+ "    <url>" +:+
  nl +:+ "        <loc>" +:+ loc u +:+ "</loc>" +:+
  nl +:+ "        <lastmod>" +:+ today +:+ "</lastmod>" +:+
  nl +:+ "        <changefreq>" +:+ changefreq u +:+ "</changefreq>" +:+
  nl +:+ "        <priority>" +:+ priority u +:+ "</priority>" +:+
  nl +:+ "    </url>".

(** The text of a sitemap from its elements. *)
Definition render_urlset (today : string) (urls : list UrlEntry) : string :=
  Sitemap.xml_declaration +:+ nl +:+ "<urlset " +:+ Sitemap.xmlns +:+ ">" +:+
  Sitemap.concat_strings (map (render_url today) urls) +:+
  nl +:+ "</urlset>".

Definition static_pages (baseUrl : string) : list UrlEntry :=
  [ {| loc := baseUrl +:+ "/"; changefreq := "daily"; priority := "1.0" |};
    {| loc := baseUrl +:+ "/about"; changefreq := "monthly"; priority := "0.7" |};
    {| loc := baseUrl +:+ "/privacy"; changefreq := "yearly"; priority := "0.3" |};
    {| loc := baseUrl +:+ "/terms"; changefreq := "yearly"; priority := "0.3" |};
    {| loc := baseUrl +:+ "/contact"; changefreq := "monthly"; priority := "0.5" |} ].

Definition category_page (baseUrl category : string) : UrlEntry :=
  {| loc := baseUrl +:+ "/?category=" +:+ category;
     changefreq := "weekly"; priority := "0.8" |}.

Definition video_page (baseUrl : string) (entry : string * string) : UrlEntry :=
  {| loc := baseUrl +:+ "/" +:+ fst entry +:+ "/" +:+ snd entry;
     changefreq := "monthly"; priority := "0.6" |}.

(** The elements of the single sitemap: static pages, categories, videos. *)
Definition single_urls (allVideoSlugs : list (string * string)) (baseUrl : string)
    : list UrlEntry :=
  static_pages baseUrl
  ++ map (category_page baseUrl) (categories_of allVideoSlugs)
  ++ map (video_page baseUrl) allVideoSlugs.

Definition generateSingleSitemap (allVideoSlugs : list (string * string))
    (baseUrl today : string) : Sitemap.Response :=
  Sitemap.xml_response (render_urlset today (single_urls allVideoSlugs baseUrl)).

(** The count of [generateMainSitemap]: the homepage, the four other
    static pages, the categories and the videos. *)
Definition totalUrls (allVideoSlugs : list (string * string)) : nat :=
  1 + 4 + length (categories_of allVideoSlugs) + length allVideoSlugs.

Definition generateMainSitemap (R : Runtime) (allVideoSlugs : list (string * string))
    (baseUrl : string) : Sitemap.Response :=
  let today := Sitemap.today_of (Date_now_iso R) in
  if totalUrls allVideoSlugs <=? 1000
  then generateSingleSitemap allVideoSlugs baseUrl today
  else Sitemap.generateSitemapIndex allVideoSlugs baseUrl today 1000.

Definition generateCategoriesSitemap (R : Runtime)
    (allVideoSlugs : list (string * string)) (baseUrl : string) : Sitemap.Response :=
  let today := Sitemap.today_of (Date_now_iso R) in
  Sitemap.xml_response
    (render_urlset today
       ({| loc := baseUrl +:+ "/"; changefreq := "daily"; priority := "1.0" |}
        :: map (category_page baseUrl) (categories_of allVideoSlugs))).

Definition generateStaticSitemap (R : Runtime) (baseUrl : string) : Sitemap.Response :=
  let today := Sitemap.today_of (Date_now_iso R) in
  Sitemap.xml_response (render_urlset today (static_pages baseUrl)).

(** The dispatch of the sitemap handler on the path, once the slugs are
    loaded; the branches are tried in the order of the source. *)
Definition route (R : Runtime) (allVideoSlugs : list (string * string))
    (baseUrl pathname : string) : Sitemap.Response :=
  if String.eqb pathname "/sitemap.xml" || String.eqb pathname "/" then
    generateMainSitemap R allVideoSlugs baseUrl
  else if starts_with "/sitemap-" pathname then
    Sitemap.generateIndividualSitemap R allVideoSlugs baseUrl pathname
  else if String.eqb pathname "/sitemap-categories.xml" then
    generateCategoriesSitemap R allVideoSlugs baseUrl
  else if String.eqb pathname "/sitemap-static.xml" then
    generateStaticSitemap R baseUrl
  else Sitemap.plain_response "Not found" 404.

(** The sitemap handler. *)
Definition onRequest (R : Runtime) (directory : string -> listing DirEntry)
    (baseUrl pathname : string) : Sitemap.Response :=
  route R (getAllVideoSlugs directory) baseUrl pathname.

End Pages.

(** ** Loading the translated videos *)

Module Library.

(** One entry of the listing of translated files. *)
Record Entry : Type := {
  file : RawFile;
  kind : string
}.

Section WithRuntime.

Context (R : Runtime).

(** The date the whole collection is ordered by. *)
Definition added_time (video : gmap string value) : outcome (option Z) :=
  Video.new_Date R
    (js_or (video !! "dateAdded") (js_or (video !! "uploadDate") (VNum 0))).

(** The comparison function of the final sort: the date of [b] is made
    first, then the date of [a], and either construction may throw. *)
Definition compare_added (a b : gmap string value) : outcome Z :=
  match added_time b with
  | Ret tb =>
      match added_time a with
      | Ret ta => Ret (Video.date_difference tb ta)
      | Throw e => Throw e
      end
  | Throw e => Throw e
  end.

(** The loop over the listed files: a markdown file that yields a record
    adds it, every other entry is passed over. *)
Fixpoint load_files (files : list Entry) : list (gmap string value) :=
  match files with
  | [] => []
  | f :: r =>
      if Pages.is_markdown_file (name (file f)) (kind f) then
        match Video.parseTranslatedVideo R (file f) with
        | Some videoData => videoData :: load_files r
        | None => load_files r
        end
      else load_files r
  end.

(** [loadTranslatedVideos], given what the request for the directory
    returns.  The final sort is outside the [try]: when its comparison
    throws, so does the function. *)
Definition loadTranslatedVideos (l : listing Entry)
    : outcome (list (gmap string value)) :=
  match l with
  | Listed files => Video.sort_by compare_added (load_files files)
  | ListingNotOk => Ret []
  | ListingFails => Video.sort_by compare_added []
  end.

End WithRuntime.

End Library.

(** ** Vocabulary of the further properties *)

Module Shape.

Import Str.

(** No two hyphens in a row. *)
Fixpoint no_double_hyphen (s : string) : bool :=
  match s with
  | String a (String b _ as t) =>
      negb (Chr.is_hyphen a && Chr.is_hyphen b) && no_double_hyphen t
  | _ => true
  end.

(** A run of one or more digits. *)
Definition digits_run (d : string) : Prop :=
  is_empty d = false ∧ all_chars Chr.is_digit d = true.

(** A text short enough for every number read from it to be below
    [2^53]: such a number is held exactly and printed digit by digit. *)
Definition short_text (d : string) : Prop := String.length d ≤ 15.

(** The four characters that open or close markup or an attribute value. *)
Definition markup_char (c : ascii) : bool :=
  Ascii.eqb c "<" || Ascii.eqb c ">" || Ascii.eqb c Html.DQUOTE
  || Ascii.eqb c Html.APOSTROPHE.

(** The five characters [escapeHTML] replaces. *)
Definition special_char (c : ascii) : bool := Ascii.eqb c "&" || markup_char c.

(** One of the five patterns of the duration grammar recognises [d]. *)
Definition recognised (d : string) : Prop :=
  is_Some (Duration.match_hms d) ∨ is_Some (Duration.match_ms d)
  ∨ is_Some (Duration.match_minutes d) ∨ is_Some (Duration.match_hours d)
  ∨ is_Some (Duration.match_hm d).

End Shape.

Module Keys.

(** A key of the parsed mapping: one or more word characters, and not the
    name of the inherited accessor. *)
Definition well_formed_key (k : string) : Prop :=
  Str.is_empty k = false ∧ Str.all_chars Chr.is_word k = true ∧ k ≠ "__proto__".

(** Every key of a mapping is well formed. *)
Definition keys_well_formed (d : gmap string value) : Prop :=
  ∀ k v, d !! k = Some v → well_formed_key k.

(** The names of the object literal of the normaliser. *)
Definition named_keys : list string :=
  ["filename"; "title"; "slug"; "contentType"; "translator"; "translatorSlug";
   "downloadUrl"; "htmlUrl"; "duration"; "quality"; "uploadDate"; "poster";
   "videoUrl"; "description"; "releaseYear"; "genre"; "views"; "likes"].

End Keys.

Module Order.

(** The time the whole collection is ordered by, when the date is valid. *)
Definition added_of (R : Runtime) (v : gmap string value) : Z :=
  match Library.added_time R v with
  | Ret (Some t) => t
  | _ => 0%Z
  end.

(** The date the record is ordered by in the whole collection is valid. *)
Definition dated_added (R : Runtime) (v : gmap string value) : Prop :=
  ∃ t, Library.added_time R v = Ret (Some t).

(** That date can be made without throwing. *)
Definition added_converts (R : Runtime) (v : gmap string value) : bool :=
  negb (raised (Library.added_time R v)).

(** Newest first, by the date added. *)
Definition newest_added_first (R : Runtime) (l : list (gmap string value)) : Prop :=
  StronglySorted (λ a b, (added_of R b ≤ added_of R a)%Z) l.

(** The record a listed entry contributes, if any. *)
Definition record_of (R : Runtime) (f : Library.Entry) : option (gmap string value) :=
  if Pages.is_markdown_file (name (Library.file f)) (Library.kind f)
  then Video.parseTranslatedVideo R (Library.file f)
  else None.

End Order.

(** ** Inputs used in the further examples *)

(** A file without front-matter. *)
Definition host_without_front_matter : Runtime :=
  host_serving "raw/spider-man" "No front-matter here.".

(** A listing of one markdown file and one directory. *)
Definition sample_listing : list Library.Entry :=
  [ {| Library.file := sample_file; Library.kind := "file" |};
    {| Library.file := {| name := "drafts"; download_url := ""; html_url := "" |};
       Library.kind := "dir" |} ].

(** A store in which no category can be listed. *)
Definition unreachable_directory (category : string) : listing Pages.DirEntry :=
  ListingNotOk.

(** * Properties *)

(** ** Characters and strings *)

Ltac by_cases_on_char c :=
  destruct c as [[] [] [] [] [] [] [] []]; vm_compute; try reflexivity; try discriminate.

Lemma to_lower_not_upper (c : ascii) : Chr.is_upper (Chr.to_lower c) = false.
Proof. by_cases_on_char c. Qed.

Lemma slug_char_lower (c : ascii) : Spec.slug_char c = true → Chr.to_lower c = c.
Proof. by_cases_on_char c. Qed.

Lemma kept_char_is_slug_char (c : ascii) :
  Chr.is_upper c = false → slug_keeps c = true → slug_separator c = false →
  Spec.slug_char c = true.
Proof. by_cases_on_char c. Qed.

Section AllChars.

Context (p : ascii → bool).

Lemma all_chars_drop_while (q : ascii → bool) (s : string) :
  Str.all_chars p s = true → Str.all_chars p (Str.drop_while q s) = true.
Proof.
  induction s as [|c r IH]; simpl; [done|].
  intros [Hc Hr]%andb_true_iff.
  destruct (q c); [auto|]. simpl. by rewrite Hc, Hr.
Qed.

Lemma all_chars_drop_while_end (q : ascii → bool) (s : string) :
  Str.all_chars p s = true → Str.all_chars p (Str.drop_while_end q s) = true.
Proof.
  induction s as [|c r IH]; simpl; [done|].
  intros [Hc Hr]%andb_true_iff.
  destruct (q c && Str.is_empty (Str.drop_while_end q r)); simpl; [done|].
  by rewrite Hc, IH.
Qed.

Lemma all_chars_trim (s : string) :
  Str.all_chars p s = true → Str.all_chars p (Str.trim s) = true.
Proof. intros H. by apply all_chars_drop_while_end, all_chars_drop_while. Qed.

Lemma all_chars_filter (q : ascii → bool) (s : string) :
  Str.all_chars p s = true →
  Str.all_chars (λ c, p c && q c) (Str.filter_chars q s) = true.
Proof.
  induction s as [|c r IH]; simpl; [done|].
  intros [Hc Hr]%andb_true_iff.
  destruct (q c) eqn:Hq; simpl; [|auto].
  by rewrite Hc, Hq, IH.
Qed.

End AllChars.

Lemma all_chars_map (p : ascii → bool) (f : ascii → ascii) (s : string) :
  (∀ c, p (f c) = true) → Str.all_chars p (Str.map_chars f s) = true.
Proof. intros H. induction s as [|c r IH]; simpl; [done|]. by rewrite H, IH. Qed.

Lemma map_chars_id (f : ascii → ascii) (p : ascii → bool) (s : string) :
  (∀ c, p c = true → f c = c) → Str.all_chars p s = true → Str.map_chars f s = s.
Proof.
  intros H. induction s as [|c r IH]; simpl; [done|].
  intros [Hc Hr]%andb_true_iff. by rewrite (H c Hc), IH.
Qed.

Lemma first_char_drop_while (q : ascii → bool) (s : string) (c : ascii) :
  Str.first_char (Str.drop_while q s) = Some c → q c = false.
Proof.
  induction s as [|d r IH]; simpl; [done|].
  destruct (q d) eqn:Hq; [done|]. simpl. by intros [= <-].
Qed.

Lemma first_char_drop_while_end (q : ascii → bool) (s : string) (c : ascii) :
  Str.first_char s = Some c → q c = false →
  Str.first_char (Str.drop_while_end q s) = Some c.
Proof.
  destruct s as [|d r]; simpl; [done|].
  intros [= ->] Hq. by rewrite Hq.
Qed.

Lemma first_char_drop_while_end_inv (q : ascii → bool) (s : string) (c : ascii) :
  Str.first_char (Str.drop_while_end q s) = Some c → Str.first_char s = Some c.
Proof.
  destruct s as [|d r]; simpl; [done|].
  by destruct (q d && Str.is_empty (Str.drop_while_end q r)).
Qed.

Lemma last_char_drop_while_end (q : ascii → bool) (s : string) (c : ascii) :
  Str.last_char (Str.drop_while_end q s) = Some c → q c = false.
Proof.
  induction s as [|d r IH]; simpl; [done|].
  destruct (q d) eqn:Hq; simpl.
  - destruct (Str.drop_while_end q r) as [|e t] eqn:Hr; simpl; [done|].
    intros H. apply IH. exact H.
  - destruct (Str.drop_while_end q r) as [|e t] eqn:Hr; simpl.
    + by intros [= <-].
    + intros H. apply IH. exact H.
Qed.

(** ** Slugs *)

Lemma all_chars_collapse (b : bool) (s : string) :
  Str.all_chars (λ c, negb (Chr.is_upper c) && slug_keeps c) s = true →
  Str.all_chars Spec.slug_char (collapse_separators b s) = true.
Proof.
  revert b. induction s as [|c r IH]; intros b; simpl; [done|].
  intros [[Hu Hk]%andb_true_iff Hr]%andb_true_iff.
  apply negb_true_iff in Hu.
  destruct (slug_separator c) eqn:Hs.
  - destruct b; simpl; auto.
  - simpl. rewrite (kept_char_is_slug_char c Hu Hk Hs). simpl. auto.
Qed.

(** Whatever the text, [generateSlug] returns a well-formed slug. *)
Lemma generateSlug_well_formed (text : string) :
  Spec.well_formed_slug (generateSlug text).
Proof.
  assert (Hall : Str.all_chars Spec.slug_char (generateSlug text) = true).
  { unfold generateSlug, strip_hyphens.
    apply all_chars_drop_while_end, all_chars_drop_while, all_chars_collapse.
    apply (all_chars_filter (λ c, negb (Chr.is_upper c))), all_chars_trim.
    apply all_chars_map. intros c. by rewrite to_lower_not_upper. }
  split; [|split; [exact Hall|split]].
  - unfold toLowerCase.
    apply (map_chars_id _ Spec.slug_char); [apply slug_char_lower|exact Hall].
  - unfold generateSlug, strip_hyphens. intros H.
    apply first_char_drop_while_end_inv, first_char_drop_while in H. done.
  - unfold generateSlug, strip_hyphens. intros H.
    apply last_char_drop_while_end in H. done.
Qed.

Example generateSlug_title :
  generateSlug "  Spider-Man: No Way Home_(2021)  " = "spider-man-no-way-home-2021".
Proof. reflexivity. Qed.

Example generateSlug_only_separators : generateSlug " -_- " = "".
Proof. reflexivity. Qed.

(** ** Durations *)

Example iso_of_samples :
  map Duration.convertDurationToISO Spec.sample_durations
  = ["PT1H30M00S"; "PT45M00S"; "PT90M"; "PT2H"; "PT1H30M"].
Proof. reflexivity. Qed.

Example display_of_samples :
  map Duration.formatDurationForDisplay Spec.sample_durations
  = ["1h 30m"; "45m"; "90m"; "2h"; "1h 30m"].
Proof. reflexivity. Qed.

(** The unanchored patterns find their match anywhere in the text, and the
    minutes pattern is tried before the hours pattern. *)
Example iso_of_mixed_text :
  Duration.convertDurationToISO "about 1 hr 05 MIN" = "PT5M".
Proof. reflexivity. Qed.

(** C1 (as amended).  For each of the inputs 1:30:00, 45:00, 90 minutes,
    2 hours and 1h30m the ISO formatter and the human formatter agree on
    the hour and minute components; the input 1:30:00 gives the ISO text
    PT1H30M00S, the captured digits being copied as they are, and the
    human text 1h 30m. *)
Theorem duration_formatters_agree_on_samples :
  Forall Spec.formatters_agree Spec.sample_durations
  ∧ Duration.convertDurationToISO "1:30:00" = "PT1H30M00S"
  ∧ Duration.formatDurationForDisplay "1:30:00" = "1h 30m".
Proof.
  split; [|split; reflexivity].
  unfold Spec.sample_durations.
  repeat apply Forall_cons_2; try apply Forall_nil_2;
    unfold Spec.formatters_agree; eexists; split; vm_compute; reflexivity.
Qed.

(** C1, the claim as written fails: the seconds of 1:30:00 are printed
    with both their digits, so the ISO text is not PT1H30M0S. *)
Lemma iso_of_hms_keeps_leading_zero :
  Duration.convertDurationToISO "1:30:00" = "PT1H30M00S"
  ∧ Duration.convertDurationToISO "1:30:00" ≠ "PT1H30M0S".
Proof. split; [reflexivity|]. vm_compute. discriminate. Qed.

(** C5 (as amended).  For a duration string that none of the five
    patterns recognises, the ISO formatter returns PT0M, and the human
    formatter returns the empty string when the input is empty or is the
    text Not specified, and the input itself, unchanged, otherwise. *)
Theorem unmatched_duration (d : string) :
  Spec.unmatched d →
  Duration.convertDurationToISO d = "PT0M"
  ∧ Duration.formatDurationForDisplay d =
      if Str.is_empty d || String.eqb d "Not specified" then "" else d.
Proof.
  intros (Hhms & Hms & Hmin & Hh & Hhm).
  unfold Duration.convertDurationToISO, Duration.formatDurationForDisplay.
  rewrite Hhms, Hms, Hmin, Hh, Hhm.
  by destruct (Str.is_empty d || String.eqb d "Not specified").
Qed.

Lemma unmatched_duration_witness :
  Spec.unmatched "" ∧
  Duration.convertDurationToISO "" = "PT0M"
  ∧ Duration.formatDurationForDisplay "" =
      if Str.is_empty "" || String.eqb "" "Not specified" then "" else "".
Proof.
  assert (H : Spec.unmatched "") by (repeat split; reflexivity).
  split; [exact H|]. exact (unmatched_duration "" H).
Defined.

(** C5, the claim as written fails: the text soon matches none of the
    patterns, and the human formatter returns it as it is, which is not
    what it returns for the empty input. *)
Lemma unmatched_duration_is_displayed :
  Spec.unmatched "soon"
  ∧ Duration.formatDurationForDisplay "soon" = "soon"
  ∧ Duration.formatDurationForDisplay "" = ""
  ∧ Duration.formatDurationForDisplay "soon" ≠ Duration.formatDurationForDisplay "".
Proof.
  split; [repeat split; reflexivity|].
  split; [reflexivity|]. split; [reflexivity|]. vm_compute. discriminate.
Qed.

(** ** Relative dates *)

Lemma whole_days (n r : Z) :
  (0 ≤ n)%Z → (0 ≤ r < ms_per_day)%Z →
  (Z.abs (n * ms_per_day + r) / ms_per_day = n)%Z.
Proof.
  intros Hn Hr. unfold ms_per_day in *.
  rewrite Z.abs_eq by lia.
  rewrite Z.add_comm, Z.div_add by lia.
  rewrite Z.div_small by lia. lia.
Qed.

(** C8.  With the clock at [now], a date [n] whole days in the past (and
    any part [r] of a further day) is labelled Today for 0 days,
    Yesterday for 1, the number of days followed by d ago for 2 to 6, of
    weeks (days over 7, rounded down) by w ago for 7 to 29, of months
    (days over 30) by mo ago for 30 to 364, and of years (days over 365)
    by y ago from 365 on; so 10 days give 1w ago, 40 days 1mo ago and 400
    days 1y ago. *)
Theorem formatShortDate_buckets (now n r : Z) :
  (0 ≤ n)%Z → (0 ≤ r < ms_per_day)%Z →
  formatShortDate now (Some (now - (n * ms_per_day + r))%Z) = Spec.relative_label n
  ∧ Spec.relative_label 0 = "Today"
  ∧ Spec.relative_label 1 = "Yesterday"
  ∧ Spec.relative_label 10 = "1w ago"
  ∧ Spec.relative_label 40 = "1mo ago"
  ∧ Spec.relative_label 400 = "1y ago".
Proof.
  intros Hn Hr. split; [|repeat split; reflexivity].
  unfold formatShortDate, Spec.relative_label.
  replace (now - (now - (n * ms_per_day + r)))%Z with (n * ms_per_day + r)%Z by lia.
  rewrite (whole_days n r Hn Hr).
  destruct (n =? 0)%Z; [done|].
  destruct (n =? 1)%Z; [done|].
  destruct (Z.ltb_spec n 7), (Z.leb_spec n 6); try lia; [done|].
  destruct (Z.ltb_spec n 30), (Z.leb_spec n 29); try lia; [done|].
  destruct (Z.ltb_spec n 365), (Z.leb_spec n 364); try lia; done.
Qed.

Lemma formatShortDate_buckets_witness :
  formatShortDate 1700000000000 (Some (1700000000000 - (10 * ms_per_day + 0))%Z)
    = Spec.relative_label 10
  ∧ Spec.relative_label 0 = "Today"
  ∧ Spec.relative_label 1 = "Yesterday"
  ∧ Spec.relative_label 10 = "1w ago"
  ∧ Spec.relative_label 40 = "1mo ago"
  ∧ Spec.relative_label 400 = "1y ago".
Proof.
  apply (formatShortDate_buckets 1700000000000 10 0); unfold ms_per_day; lia.
Defined.

(** ** The front-matter parser *)

Section YamlProperties.

Context (R : Runtime).

(** The strict parse of a bracketed value may throw; the exception is
    caught on the spot and the field falls back to splitting at commas. *)
Lemma bracketed_value_returns (v : string) (d : gmap string value) :
  ∃ x, Yaml.try_catch (Yaml.lift (Yaml.JSON_parse R v))
                      (λ _, mret (VList (Yaml.split_array v))) d = (d, Ret x).
Proof.
  unfold Yaml.try_catch, Yaml.lift, Yaml.JSON_parse.
  destruct (JSON_accepts R v); eauto.
Qed.

Lemma field_value_returns (lines : list string) (line key v : string)
    (d : gmap string value) :
  ∃ x, Yaml.field_value R lines line key v d = (d, Ret x).
Proof.
  unfold Yaml.field_value.
  destruct (Str.is_empty v && Yaml.includes line lines).
  { destruct (Yaml.line_at lines _); [destruct (Yaml.is_list_item _)|]; eauto. }
  destruct (Str.starts_with "[" v && Str.ends_with_char "]" v).
  { apply bracketed_value_returns. }
  repeat (match goal with |- context [if ?b then _ else _] => destruct b end; eauto).
Qed.

Lemma parse_line_returns (lines : list string) (line : string)
    (d : gmap string value) :
  ∃ d', Yaml.parse_line R lines line d = (d', Ret tt).
Proof.
  unfold Yaml.parse_line.
  destruct (Str.is_empty (Str.trim line)); [by eexists|].
  destruct (Yaml.match_key_value line) as [[key raw]|]; [|by eexists].
  unfold mbind, Yaml.block_bind.
  destruct (field_value_returns lines line key (Str.trim (Str.unquote raw)) d) as [x ->].
  unfold Yaml.set_property. eauto.
Qed.







End YamlProperties.



(** The handler of the block returns [data] as it stands: a field stored
    before an exception that reaches it would stay in the mapping. *)
Example handler_returns_data_as_accumulated (key : string) (v : value) (e : error) :
  key ≠ "__proto__" →
  fst (mbind (M := Yaml.Block) (λ _ : unit, Yaml.throw (A := unit) e)
         (Yaml.set_property key v) ∅)
  = (<[key := v]> ∅ : gmap string value).
Proof.
  intros Hk. unfold mbind, Yaml.block_bind, Yaml.set_property, Yaml.throw.
  by rewrite (proj2 (String.eqb_neq key "__proto__") Hk).
Qed.

(** On a host whose strict parser rejects the unquoted array, the field
    falls back to splitting at commas. *)
Example parse_sample_front_matter :
  let data :=
    Yaml.parseYAMLFrontmatter bare_host
      (Yaml.AString
         (with_front_matter
            ["title: 'Umuturanyi'"; "views: 12k"; ""; "genre:"; "  - comedy"; "  - drama";
             "featured: true"; "tags: [a, b]"; "__proto__: x"])) in
  data !! "title" = Some (VStr "Umuturanyi")
  ∧ data !! "views" = Some (VNum 12)
  ∧ data !! "genre" = Some (VList ["comedy"; "drama"])
  ∧ data !! "featured" = Some (VBool true)
  ∧ data !! "tags" = Some (VList ["a"; "b"])
  ∧ data !! "__proto__" = None.
Proof. repeat split; vm_compute; reflexivity. Qed.

(** C9.  There is a front-matter body with two fields whose lines are the
    same text, a key with an empty value, and different lists below them:
    the list given to the field is found from the line text alone, so at
    the later field it is the list below the first occurrence of the
    line, not the list below the field itself, and that is the list the
    parsed mapping holds. *)
Theorem list_lookup_by_value_misdetects :
  ∃ (lines : list string) (i j : nat) (line key : string),
    i < j
    ∧ lines !! i = Some line ∧ lines !! j = Some line
    ∧ Yaml.match_key_value line = Some (key, "")
    ∧ Yaml.collect_items (drop (S i) lines) ≠ Yaml.collect_items (drop (S j) lines)
    ∧ ∀ R : Runtime,
        (∀ d, Yaml.field_value R lines line key "" d
              = (d, Ret (VList (Yaml.collect_items (drop (S i) lines)))))
        ∧ Yaml.parseYAMLFrontmatter R (Yaml.AString (with_front_matter lines)) !! key
          = Some (VList (Yaml.collect_items (drop (S i) lines))).
Proof.
  exists duplicate_key_lines, 0, 3, "genre:", "genre".
  split; [lia|]. split; [reflexivity|]. split; [reflexivity|].
  split; [reflexivity|]. split; [vm_compute; discriminate|].
  intros R. split; [intros d; reflexivity|]. vm_compute. reflexivity.
Qed.

(** ** The field normaliser *)

(** A given key is none of the derived ones. *)
Ltac not_derived :=
  unfold Spec.derived_keys;
  repeat (apply not_elem_of_cons; split; [done|]); apply not_elem_of_nil.

Section VideoProperties.

Context (R : Runtime).

Lemma named_duration (file : RawFile) (fm : gmap string value)
    (title contentType translator translatorSlug : string) :
  Video.named_fields R file fm title contentType translator translatorSlug !! "duration"
  = Some (js_or (fm !! "runtime") (js_or (fm !! "duration") (VStr ""))).
Proof. reflexivity. Qed.

Lemma named_slug (file : RawFile) (fm : gmap string value)
    (title contentType translator translatorSlug : string) :
  Video.named_fields R file fm title contentType translator translatorSlug !! "slug"
  = Some (js_or (fm !! "slug") (VStr (generateSlug title))).
Proof. reflexivity. Qed.

Lemma named_translatorSlug (file : RawFile) (fm : gmap string value)
    (title contentType translator translatorSlug : string) :
  Video.named_fields R file fm title contentType translator translatorSlug
    !! "translatorSlug" = Some (VStr translatorSlug).
Proof. reflexivity. Qed.

(** A key of the front-matter overrides the named field. *)
Lemma literal_lookup (file : RawFile) (fm : gmap string value)
    (title contentType translator translatorSlug key : string) :
  Video.object_literal R file fm title contentType translator translatorSlug !! key
  = match fm !! key with
    | Some x => Some x
    | None =>
        Video.named_fields R file fm title contentType translator translatorSlug !! key
    end.
Proof.
  unfold Video.object_literal. rewrite lookup_union.
  destruct (fm !! key); [|by rewrite (left_id None _)].
  by destruct (Video.named_fields _ _ _ _ _ _ _ !! key).
Qed.

Lemma literal_duration (file : RawFile) (fm : gmap string value)
    (title contentType translator translatorSlug : string) :
  Video.object_literal R file fm title contentType translator translatorSlug !! "duration"
  = Some (Spec.record_duration fm).
Proof.
  rewrite literal_lookup, named_duration. unfold Spec.record_duration.
  by destruct (fm !! "duration").
Qed.

Lemma named_uploadDate (file : RawFile) (fm : gmap string value)
    (title contentType translator translatorSlug : string) :
  Video.named_fields R file fm title contentType translator translatorSlug !! "uploadDate"
  = Some (js_or (fm !! "dateAdded") (js_or (fm !! "uploadDate") (VStr (Date_now_iso R)))).
Proof. reflexivity. Qed.

Lemma literal_uploadDate (file : RawFile) (fm : gmap string value)
    (title contentType translator translatorSlug : string) :
  Video.object_literal R file fm title contentType translator translatorSlug
    !! "uploadDate" = Some (Spec.record_upload_date R fm).
Proof.
  rewrite literal_lookup, named_uploadDate. unfold Spec.record_upload_date.
  by destruct (fm !! "uploadDate").
Qed.

Lemma string_or_falsy_cases (d : value) :
  Spec.string_or_falsy d = true →
  (∃ s, d = VStr s) ∨ (truthy d = false ∧ is_string d = false).
Proof.
  unfold Spec.string_or_falsy.
  destruct d; simpl; intros H; eauto; right; split; try done;
    by apply negb_true_iff in H.
Qed.

Lemma not_string_or_falsy (d : value) :
  Spec.string_or_falsy d = false →
  truthy d = true ∧ d ≠ VStr "Not specified"
  ∧ Video.call_convertDurationToISO d = Throw TypeError
  ∧ Video.call_formatDurationForDisplay d = Throw TypeError.
Proof.
  unfold Spec.string_or_falsy.
  destruct d; simpl; try done; intros ->%negb_false_iff; done.
Qed.

(** The step that ensures an ISO duration only adds that field. *)
Lemma ensure_iso_duration_keeps (v v' : gmap string value) (k : string) :
  Video.ensure_iso_duration v = Ret v' → k ≠ "isoDuration" → v' !! k = v !! k.
Proof.
  unfold Video.ensure_iso_duration. intros H Hk.
  destruct (Video.truthy_opt (v !! "duration")
            && negb (Video.truthy_opt (v !! "isoDuration"))); [|by injection H as <-].
  destruct (Video.call_convertDurationToISO _); [|done].
  injection H as <-. by rewrite lookup_insert_ne.
Qed.

Lemma ensure_iso_duration_returns (v : gmap string value) (d : value) :
  v !! "duration" = Some d → Spec.string_or_falsy d = true →
  ∃ v', Video.ensure_iso_duration v = Ret v'.
Proof.
  intros Hd Hok. unfold Video.ensure_iso_duration. rewrite Hd. simpl.
  destruct (string_or_falsy_cases d Hok) as [[s ->]|[Hf _]].
  - destruct (_ && _); simpl; eauto.
  - rewrite Hf. simpl. eauto.
Qed.

(** The step that formats the upload date only adds its two fields. *)
Lemma format_upload_date_keeps (v v' : gmap string value) (k : string) :
  Video.format_upload_date R v = Ret v' →
  k ≠ "shortDate" → k ≠ "formattedDate" → v' !! k = v !! k.
Proof.
  unfold Video.format_upload_date. intros H H1 H2.
  destruct (v !! "uploadDate") as [u|]; [|by injection H as <-].
  destruct (truthy u); [|by injection H as <-].
  destruct (Video.new_Date R u); [|done].
  injection H as <-. by rewrite !lookup_insert_ne.
Qed.

Lemma format_upload_date_returns (v : gmap string value) (u : value) :
  v !! "uploadDate" = Some u → Spec.date_or_falsy R u = true →
  ∃ v', Video.format_upload_date R v = Ret v'.
Proof.
  intros Hu Hok. unfold Video.format_upload_date. rewrite Hu.
  unfold Spec.date_or_falsy in Hok.
  destruct (truthy u); [|by eexists].
  destruct (Video.new_Date R u); [by eexists|done].
Qed.

Lemma format_upload_date_throws (v : gmap string value) (u : value) :
  v !! "uploadDate" = Some u → Spec.date_or_falsy R u = false →
  ∃ e, Video.format_upload_date R v = Throw e.
Proof.
  intros Hu Hbad. unfold Video.format_upload_date. rewrite Hu.
  unfold Spec.date_or_falsy in Hbad.
  destruct (truthy u); [|by destruct (Video.new_Date R u)].
  destruct (Video.new_Date R u); [done|by eexists].
Qed.

Lemma format_duration_keeps (v v' : gmap string value) (k : string) :
  Video.format_duration v = Ret v' → k ≠ "formattedDuration" → v' !! k = v !! k.
Proof.
  unfold Video.format_duration. intros H Hk.
  destruct (v !! "duration") as [d|]; [|by injection H as <-].
  destruct (truthy d && _); [|by injection H as <-].
  destruct (Video.call_formatDurationForDisplay d); [|done].
  injection H as <-. by rewrite lookup_insert_ne.
Qed.

Lemma format_duration_returns (v : gmap string value) (d : value) :
  v !! "duration" = Some d → Spec.string_or_falsy d = true →
  ∃ v', Video.format_duration v = Ret v'.
Proof.
  intros Hd Hok. unfold Video.format_duration. rewrite Hd.
  destruct (string_or_falsy_cases d Hok) as [[s ->]|[Hf _]].
  - destruct (_ && _); simpl; eauto.
  - rewrite Hf. simpl. eauto.
Qed.

Lemma format_duration_throws (v : gmap string value) (d : value) :
  v !! "duration" = Some d → Spec.string_or_falsy d = false →
  Video.format_duration v = Throw TypeError.
Proof.
  intros Hd Hbad. unfold Video.format_duration. rewrite Hd.
  destruct (not_string_or_falsy d Hbad) as (-> & Hne & _ & ->).
  by rewrite bool_decide_eq_false_2.
Qed.

Lemma derive_fields_keeps (v v' : gmap string value) (k : string) :
  Video.derive_fields R v = Ret (Some v') → k ∉ Spec.derived_keys → v' !! k = v !! k.
Proof.
  unfold Video.derive_fields, Spec.derived_keys. intros H Hk.
  destruct (Video.ensure_iso_duration v) as [v1|] eqn:H1; [|done].
  simpl in H.
  destruct (Video.format_upload_date R v1) as [v2|] eqn:H2; [|done].
  simpl in H.
  destruct (Video.format_duration v2) as [v3|] eqn:H3; [|done].
  injection H as <-.
  rewrite (format_duration_keeps _ _ k H3) by set_solver.
  rewrite (format_upload_date_keeps _ _ k H2) by set_solver.
  apply (ensure_iso_duration_keeps _ _ k H1). set_solver.
Qed.

(** The three steps run to their end exactly when neither the duration
    nor the upload date makes a call throw. *)
Lemma derive_fields_returns_iff (v : gmap string value) (d u : value) :
  v !! "duration" = Some d → v !! "uploadDate" = Some u →
  (∃ v', Video.derive_fields R v = Ret (Some v'))
  ↔ Spec.string_or_falsy d = true ∧ Spec.date_or_falsy R u = true.
Proof.
  intros Hd Hu. unfold Video.derive_fields. split.
  - intros [v' H].
    destruct (Video.ensure_iso_duration v) as [v1|] eqn:H1; [|done].
    simpl in H.
    assert (Hu1 : v1 !! "uploadDate" = Some u)
      by (by rewrite (ensure_iso_duration_keeps _ _ "uploadDate" H1)).
    assert (Hd1 : v1 !! "duration" = Some d)
      by (by rewrite (ensure_iso_duration_keeps _ _ "duration" H1)).
    destruct (Video.format_upload_date R v1) as [v2|] eqn:H2; [|done].
    simpl in H.
    assert (Hd2 : v2 !! "duration" = Some d)
      by (by rewrite (format_upload_date_keeps _ _ "duration" H2)).
    split.
    + destruct (Spec.string_or_falsy d) eqn:Hok; [done|exfalso].
      by rewrite (format_duration_throws v2 d Hd2 Hok) in H.
    + destruct (Spec.date_or_falsy R u) eqn:Hok; [done|exfalso].
      destruct (format_upload_date_throws v1 u Hu1 Hok) as [e He].
      by rewrite He in H2.
  - intros [Hok Hdate].
    destruct (ensure_iso_duration_returns v d Hd Hok) as [v1 H1]. rewrite H1. simpl.
    assert (Hu1 : v1 !! "uploadDate" = Some u)
      by (by rewrite (ensure_iso_duration_keeps _ _ "uploadDate" H1)).
    assert (Hd1 : v1 !! "duration" = Some d)
      by (by rewrite (ensure_iso_duration_keeps _ _ "duration" H1)).
    destruct (format_upload_date_returns v1 u Hu1 Hdate) as [v2 H2]. rewrite H2. simpl.
    assert (Hd2 : v2 !! "duration" = Some d)
      by (by rewrite (format_upload_date_keeps _ _ "duration" H2)).
    destruct (format_duration_returns v2 d Hd2 Hok) as [v3 ->]. simpl. eauto.
Qed.

(** The body of [parseTranslatedVideo] once the name has matched and the
    content has been fetched. *)
Lemma parse_body_on_content (file : RawFile)
    (title contentType translator content : string) :
  Video.match_filename (name file) = Some (title, contentType, translator) →
  fetch R (download_url file) = FetchText content →
  Video.parse_body R file =
    (translatorSlug ←
       Video.call_generateSlug
         (Spec.translator_source (Yaml.parseYAMLFrontmatter R (Yaml.AString content))
                                 translator);
     Video.derive_fields R (Video.object_literal R file
               (Yaml.parseYAMLFrontmatter R (Yaml.AString content))
               title contentType translator translatorSlug)).
Proof.
  intros Hm Hf. unfold Video.parse_body. rewrite Hm, Hf.
  unfold Spec.translator_source, Video.derive_fields.
  destruct (Video.call_generateSlug _) as [ts|]; [|done]. simpl.
  destruct (Video.ensure_iso_duration _) as [v1|]; [|done]. simpl.
  destruct (Video.format_upload_date R v1) as [v2|]; [|done]. simpl.
  by destruct (Video.format_duration v2).
Qed.

(** What a produced record is made of. *)
Lemma produced_record (file : RawFile) (v : gmap string value) :
  Video.parseTranslatedVideo R file = Some v →
  ∃ title contentType translator content src,
    Video.match_filename (name file) = Some (title, contentType, translator)
    ∧ fetch R (download_url file) = FetchText content
    ∧ Spec.translator_source (Yaml.parseYAMLFrontmatter R (Yaml.AString content))
                             translator = VStr src
    ∧ ∀ k, k ∉ Spec.derived_keys →
        v !! k = Video.object_literal R file
                   (Yaml.parseYAMLFrontmatter R (Yaml.AString content))
                   title contentType translator (generateSlug src) !! k.
Proof.
  unfold Video.parseTranslatedVideo. intros H.
  destruct (Video.match_filename (name file)) as [[[title contentType] translator]|] eqn:Hm;
    [|by unfold Video.parse_body in H; rewrite Hm in H].
  destruct (fetch R (download_url file)) as [content| |] eqn:Hf;
    try by unfold Video.parse_body in H; rewrite Hm, Hf in H.
  rewrite (parse_body_on_content file title contentType translator content Hm Hf) in H.
  exists title, contentType, translator, content.
  destruct (Spec.translator_source _ translator) as [src| | | |] eqn:Hsrc; try done.
  exists src. simpl in H. repeat split; try done.
  intros k Hk.
  destruct (Video.derive_fields R _) as [[v'|]|] eqn:Hfin; try done.
  injection H as <-. by apply (derive_fields_keeps _ _ k Hfin).
Qed.

(** C3 (as amended).  Whatever the text, empty or not, [generateSlug]
    returns a lower-case string made of [[a-z0-9-]] only, with no hyphen
    at either end.  A record produced from a file whose front-matter has
    neither a [slug] nor a [translatorSlug] field has, as [slug], the slug
    generated from the title of the file name and, as [translatorSlug],
    the slug generated from the translator (the front-matter one when
    truthy, else the one of the file name), so both have that shape. *)
Theorem slugs_are_well_formed :
  (∀ s, Spec.well_formed_slug (generateSlug s))
  ∧ ∀ (file : RawFile) (content : string) (v : gmap string value),
      fetch R (download_url file) = FetchText content →
      Yaml.parseYAMLFrontmatter R (Yaml.AString content) !! "slug" = None →
      Yaml.parseYAMLFrontmatter R (Yaml.AString content) !! "translatorSlug" = None →
      Video.parseTranslatedVideo R file = Some v →
      ∃ title contentType translator src,
        Video.match_filename (name file) = Some (title, contentType, translator)
        ∧ Spec.translator_source (Yaml.parseYAMLFrontmatter R (Yaml.AString content))
                                 translator = VStr src
        ∧ v !! "slug" = Some (VStr (generateSlug title))
        ∧ v !! "translatorSlug" = Some (VStr (generateSlug src))
        ∧ Spec.well_formed_slug (generateSlug title)
        ∧ Spec.well_formed_slug (generateSlug src).
Proof.
  split; [apply generateSlug_well_formed|].
  intros file content v Hf Hslug Hts Hv.
  destruct (produced_record file v Hv)
    as (title & contentType & translator & content' & src & Hm & Hf' & Hsrc & Hk).
  rewrite Hf in Hf'. injection Hf' as <-.
  exists title, contentType, translator, src.
  split; [done|]. split; [done|].
  split; [|split; [|split; apply generateSlug_well_formed]].
  - rewrite Hk by not_derived.
    by rewrite literal_lookup, Hslug, named_slug, Hslug.
  - rewrite Hk by not_derived.
    by rewrite literal_lookup, Hts, named_translatorSlug.
Qed.

(** C4 (as amended).  A file whose name does not match the three-bracket
    pattern yields no record.  A file whose name matches and whose content
    is available yields a record exactly when no call made on a value of
    the front-matter throws: the translator the slug is made from is a
    string, the duration of the record is a string or falsy, and the
    upload date of the record is falsy or can be made into a date.  A
    truthy translator or duration of another kind (the boolean true, a
    list) makes a string method fail, an upload date that is an array with
    an element that has no primitive value makes [new Date] fail; the
    error is caught and no record is yielded. *)
Theorem normalisation_yields_record (file : RawFile) :
  (Video.match_filename (name file) = None → Video.parseTranslatedVideo R file = None)
  ∧ ∀ title contentType translator content,
      Video.match_filename (name file) = Some (title, contentType, translator) →
      fetch R (download_url file) = FetchText content →
      (is_Some (Video.parseTranslatedVideo R file)
       ↔ is_string (Spec.translator_source
                      (Yaml.parseYAMLFrontmatter R (Yaml.AString content)) translator) = true
         ∧ Spec.string_or_falsy
             (Spec.record_duration (Yaml.parseYAMLFrontmatter R (Yaml.AString content)))
           = true
         ∧ Spec.date_or_falsy R
             (Spec.record_upload_date R
                (Yaml.parseYAMLFrontmatter R (Yaml.AString content)))
           = true).
Proof.
  split.
  { intros Hm. unfold Video.parseTranslatedVideo, Video.parse_body. by rewrite Hm. }
  intros title contentType translator content Hm Hf.
  unfold Video.parseTranslatedVideo.
  rewrite (parse_body_on_content file title contentType translator content Hm Hf).
  set (fm := Yaml.parseYAMLFrontmatter R (Yaml.AString content)).
  destruct (Spec.translator_source fm translator) as [src| | | |]; simpl;
    try (split; [intros [? ?]; done|intros [? ?]; done]).
  pose proof (derive_fields_returns_iff
    (Video.object_literal R file fm title contentType translator (generateSlug src))
    (Spec.record_duration fm) (Spec.record_upload_date R fm)
    (literal_duration _ _ _ _ _ _) (literal_uploadDate _ _ _ _ _ _)) as Hiff.
  split.
  - intros [v Hv]. split; [done|]. apply Hiff.
    destruct (Video.derive_fields R _) as [[v'|]|]; try done. by exists v'.
  - intros [_ Hok]. apply Hiff in Hok as [v' ->]. by exists v'.
Qed.

(** C10.  When the front-matter of a file has both a [runtime] and a
    [duration] field, the [duration] of the record produced is the
    front-matter [duration]: the named field prefers [runtime] when it is
    truthy, and the spread of the front-matter that follows overrides
    it. *)
Theorem front_matter_duration_wins (file : RawFile) (content : string)
    (r d : value) (v : gmap string value) :
  fetch R (download_url file) = FetchText content →
  Yaml.parseYAMLFrontmatter R (Yaml.AString content) !! "runtime" = Some r →
  Yaml.parseYAMLFrontmatter R (Yaml.AString content) !! "duration" = Some d →
  Video.parseTranslatedVideo R file = Some v →
  v !! "duration" = Some d
  ∧ ∀ title contentType translator translatorSlug,
      Video.named_fields R file (Yaml.parseYAMLFrontmatter R (Yaml.AString content))
        title contentType translator translatorSlug !! "duration"
      = Some (if truthy r then r else if truthy d then d else VStr "").
Proof.
  intros Hf Hr Hd Hv. split.
  - destruct (produced_record file v Hv)
      as (title & contentType & translator & content' & src & Hm & Hf' & Hsrc & Hk).
    rewrite Hf in Hf'. injection Hf' as <-.
    rewrite Hk by not_derived.
    by rewrite literal_lookup, Hd.
  - intros. by rewrite named_duration, Hr, Hd.
Qed.

End VideoProperties.

(** A computed option that is not [None] holds its own content. *)
Lemma some_of_computed {A : Type} (x : option A) (d : A) :
  match x with Some _ => true | None => false end = true → x = Some (default d x).
Proof. by destruct x. Qed.

Lemma slugs_are_well_formed_witness :
  ∃ title contentType translator src,
    Video.match_filename (name sample_file) = Some (title, contentType, translator)
    ∧ Spec.translator_source
        (Yaml.parseYAMLFrontmatter host_without_slugs
           (Yaml.AString (with_front_matter ["title: Spider-Man"; "translator: Rocky Kimomo"])))
        translator = VStr src
    ∧ default ∅ (Video.parseTranslatedVideo host_without_slugs sample_file) !! "slug"
      = Some (VStr (generateSlug title))
    ∧ default ∅ (Video.parseTranslatedVideo host_without_slugs sample_file) !! "translatorSlug"
      = Some (VStr (generateSlug src))
    ∧ Spec.well_formed_slug (generateSlug title)
    ∧ Spec.well_formed_slug (generateSlug src).
Proof.
  apply (proj2 (slugs_are_well_formed host_without_slugs) sample_file
           (with_front_matter ["title: Spider-Man"; "translator: Rocky Kimomo"])).
  - reflexivity.
  - vm_compute. reflexivity.
  - vm_compute. reflexivity.
  - apply some_of_computed. vm_compute. reflexivity.
Defined.

(** C3, the claim as written fails: a [slug] and a [translatorSlug] given
    in the front-matter are kept as they are, capitals and spaces
    included. *)
Lemma front_matter_slugs_are_kept :
  Video.parseTranslatedVideo host_with_slugs sample_file ≫= (.!! "slug")
    = Some (VStr "Hello World")
  ∧ Video.parseTranslatedVideo host_with_slugs sample_file ≫= (.!! "translatorSlug")
    = Some (VStr "Rocky K")
  ∧ ¬ Spec.well_formed_slug "Hello World"
  ∧ ¬ Spec.well_formed_slug "Rocky K".
Proof.
  split; [vm_compute; reflexivity|]. split; [vm_compute; reflexivity|].
  split; intros (Hl & _); vm_compute in Hl; discriminate.
Qed.

Lemma normalisation_yields_record_witness :
  is_Some (Video.parseTranslatedVideo host_without_slugs sample_file).
Proof.
  apply (proj2 (normalisation_yields_record host_without_slugs sample_file)
           "Spider-Man" "MOVIE" "Rocky Kimomo"
           (with_front_matter ["title: Spider-Man"; "translator: Rocky Kimomo"])).
  - reflexivity.
  - reflexivity.
  - repeat split; vm_compute; reflexivity.
Defined.

(** C4, the claim as written fails: the name matches the pattern and the
    content is available, yet a front-matter translator that is the
    boolean true leaves no record. *)
Lemma matching_file_without_record :
  Video.match_filename (name sample_file) = Some ("Spider-Man", "MOVIE", "Rocky Kimomo")
  ∧ fetch host_with_boolean_translator (download_url sample_file)
    = FetchText (with_front_matter ["translator: true"])
  ∧ Yaml.parseYAMLFrontmatter host_with_boolean_translator
      (Yaml.AString (with_front_matter ["translator: true"])) !! "translator"
    = Some (VBool true)
  ∧ Video.parseTranslatedVideo host_with_boolean_translator sample_file = None.
Proof. repeat split; vm_compute; reflexivity. Qed.

(** An upload date that is an array with an element that has no primitive
    value: [JSON.parse] accepts the text, [new Date] throws on the array,
    and the file yields no record. *)
Example unconvertible_date_without_record :
  Yaml.parseYAMLFrontmatter host_with_unconvertible_date
    (Yaml.AString (with_front_matter ["uploadDate: " +:+ unconvertible_array]))
    !! "uploadDate" = Some (VJson unconvertible_array)
  ∧ Video.new_Date host_with_unconvertible_date (VJson unconvertible_array)
    = Throw TypeError
  ∧ Video.parseTranslatedVideo host_with_unconvertible_date sample_file = None.
Proof. repeat split; vm_compute; reflexivity. Qed.

Lemma front_matter_duration_wins_witness :
  default ∅ (Video.parseTranslatedVideo host_with_two_durations sample_file) !! "duration"
    = Some (VStr "1:30:00")
  ∧ ∀ title contentType translator translatorSlug,
      Video.named_fields host_with_two_durations sample_file
        (Yaml.parseYAMLFrontmatter host_with_two_durations
           (Yaml.AString (with_front_matter ["runtime: 90 min"; "duration: 1:30:00"])))
        title contentType translator translatorSlug !! "duration"
      = Some (if truthy (VStr "90 min") then VStr "90 min"
              else if truthy (VStr "1:30:00") then VStr "1:30:00" else VStr "").
Proof.
  apply (front_matter_duration_wins host_with_two_durations sample_file
           (with_front_matter ["runtime: 90 min"; "duration: 1:30:00"])).
  - reflexivity.
  - vm_compute. reflexivity.
  - vm_compute. reflexivity.
  - apply some_of_computed. vm_compute. reflexivity.
Defined.

(** ** Grouping the latest records by type *)

Section SortProperties.

Context (cmp : gmap string value → gmap string value → outcome Z).

Lemma insert_by_perm (x : gmap string value) (l l' : list (gmap string value)) :
  Video.insert_by cmp x l = Ret l' → l' ≡ₚ x :: l.
Proof.
  revert l'. induction l as [|y r IH]; intros l'; simpl.
  - by intros [= <-].
  - destruct (cmp x y) as [c|]; [|done].
    destruct (c <=? 0)%Z; [by intros [= <-]|].
    destruct (Video.insert_by cmp x r) as [r'|]; [|done].
    intros [= <-]. rewrite (IH r' eq_refl). apply Permutation_swap.
Qed.

Lemma sort_by_perm (l l' : list (gmap string value)) :
  Video.sort_by cmp l = Ret l' → l' ≡ₚ l.
Proof.
  revert l'. induction l as [|x r IH]; intros l'; simpl.
  - by intros [= <-].
  - destruct (Video.sort_by cmp r) as [s|]; [|done].
    intros H%insert_by_perm. by rewrite H, (IH s eq_refl).
Qed.

Lemma insert_by_returns (x : gmap string value) (l : list (gmap string value)) :
  Forall (λ y, raised (cmp x y) = false) l → ∃ l', Video.insert_by cmp x l = Ret l'.
Proof.
  induction 1 as [|y r Hy Hr [r' IH]]; simpl; [by eexists|].
  destruct (cmp x y) as [c|]; [|done].
  destruct (c <=? 0)%Z; [by eexists|]. rewrite IH. by eexists.
Qed.

(** The sort returns when no comparison of two of its elements throws. *)
Lemma sort_by_returns (P : gmap string value → Prop) (l : list (gmap string value)) :
  (∀ x y, P x → P y → raised (cmp x y) = false) →
  Forall P l → ∃ l', Video.sort_by cmp l = Ret l'.
Proof.
  intros Hc. induction 1 as [|x r Hx Hr [s IH]]; simpl; [by eexists|].
  rewrite IH. apply insert_by_returns.
  assert (Hs : Forall P s) by (by rewrite (sort_by_perm r s IH)).
  eapply Forall_impl; [exact Hs|]. intros y Hy. by apply Hc.
Qed.

End SortProperties.

Section GroupProperties.

Context (R : Runtime).

Lemma compare_upload_dated (a b : gmap string value) :
  Spec.dated R a → Spec.dated R b →
  Video.compare_upload R a b = Ret (Spec.time_of R b - Spec.time_of R a)%Z.
Proof.
  unfold Spec.dated, Spec.time_of, Video.compare_upload.
  by intros [ta ->] [tb ->].
Qed.

Lemma compare_upload_converts (a b : gmap string value) :
  Spec.date_converts R a → Spec.date_converts R b →
  raised (Video.compare_upload R a b) = false.
Proof.
  unfold Spec.date_converts, Video.compare_upload. intros Ha Hb.
  destruct (Video.upload_time R b); [|done].
  by destruct (Video.upload_time R a).
Qed.

Lemma insert_by_sorted (x : gmap string value) (l l' : list (gmap string value)) :
  Spec.dated R x → Forall (Spec.dated R) l → Spec.newest_first R l →
  Video.insert_by (Video.compare_upload R) x l = Ret l' →
  Spec.newest_first R l'.
Proof.
  unfold Spec.newest_first. intros Hx Hl Hs. revert l'.
  induction Hs as [|y r Hr IH Hy]; intros l'; simpl.
  { intros [= <-]. repeat constructor. }
  apply Forall_cons in Hl as [Hdy Hdr].
  rewrite (compare_upload_dated x y Hx Hdy).
  destruct (Z.leb_spec (Spec.time_of R y - Spec.time_of R x) 0).
  - intros [= <-]. constructor; [by constructor|].
    constructor; [lia|]. eapply Forall_impl; [exact Hy|]. simpl. intros; lia.
  - destruct (Video.insert_by (Video.compare_upload R) x r) as [r'|] eqn:Hins; [|done].
    intros [= <-]. constructor; [by apply IH|].
    rewrite (insert_by_perm _ _ _ _ Hins). constructor; [lia|done].
Qed.

Lemma sort_by_sorted (l l' : list (gmap string value)) :
  Forall (Spec.dated R) l →
  Video.sort_by (Video.compare_upload R) l = Ret l' →
  Spec.newest_first R l'.
Proof.
  intros Hl. revert l'. induction Hl as [|x r Hx Hr IH]; intros l'; simpl.
  { intros [= <-]. constructor. }
  destruct (Video.sort_by (Video.compare_upload R) r) as [s|] eqn:Hs; [|done].
  intros Hins. apply (insert_by_sorted x s l' Hx); [|by apply IH|done].
  by rewrite (sort_by_perm _ _ _ Hs).
Qed.

(** Truncation keeps the head of the sorted partition. *)
Lemma truncated_sort_is_latest (k : string) (videos part : list (gmap string value))
    (limit : nat) :
  Video.latest R limit (filter (λ v, Spec.has_type R k v = true) videos) = Ret part →
  Spec.latest_of R k videos limit part.
Proof.
  unfold Video.latest.
  destruct (Video.sort_by _ _) as [sorted|] eqn:Hs; [|done]. intros [= <-].
  exists (drop limit sorted). rewrite take_drop.
  split; [by apply (sort_by_perm _ _ _ Hs)|].
  split; [apply length_take|].
  intros Hd.
  apply (sort_by_sorted (filter (λ v, Spec.has_type R k v = true) videos)); [|done].
  by rewrite <- (sort_by_perm _ _ _ Hs).
Qed.

(** The partition is sorted and truncated when the dates of its records
    can all be made. *)
Lemma latest_returns (limit : nat) (l : list (gmap string value)) :
  Forall (Spec.date_converts R) l → ∃ part, Video.latest R limit l = Ret part.
Proof.
  intros Hl. unfold Video.latest.
  destruct (sort_by_returns (Video.compare_upload R) (Spec.date_converts R) l) as [s ->];
    [apply compare_upload_converts|done|by eexists].
Qed.

Lemma has_type_key (v : gmap string value) (c : value) (key k : string) :
  v !! "contentType" = Some c → truthy c = true → Video.to_string R c = Ret key →
  Spec.has_type R k v = String.eqb key k.
Proof. intros Hc Ht Hk. unfold Spec.has_type. by rewrite Hc, Ht, Hk. Qed.

Lemma has_type_untyped (v : gmap string value) (k : string) :
  (v !! "contentType" = None ∨ ∃ c, v !! "contentType" = Some c ∧ truthy c = false) →
  Spec.has_type R k v = false.
Proof. unfold Spec.has_type. intros [->|(c & -> & ->)]; done. Qed.

(** The grouping loop appends each record to the array of its type and
    passes over the records of any other type. *)
Lemma group_videos_partitions (videos movies series : list (gmap string value)) :
  Forall (Spec.sortable R) videos →
  Video.group_videos R (<["MOVIE" := movies]> (<["TV-SERIES" := series]> ∅)) videos
  = Ret (<["MOVIE" := movies ++ filter (λ v, Spec.has_type R "MOVIE" v = true) videos]>
          (<["TV-SERIES" :=
               series ++ filter (λ v, Spec.has_type R "TV-SERIES" v = true) videos]> ∅)).
Proof.
  intros Hall. revert movies series.
  induction Hall as [|v r (Hconv & Hv & _) Hr IH]; intros movies series; simpl.
  { by rewrite !app_nil_r. }
  unfold Video.group_step.
  destruct (v !! "contentType") as [c|] eqn:Hc;
    [destruct (truthy c) eqn:Ht|].
  - destruct (Video.to_string R c) as [key|] eqn:Hkey;
      [|by specialize (Hconv c Hc Ht); rewrite Hkey in Hconv].
    rewrite !filter_cons, !(has_type_key v c key _ Hc Ht Hkey).
    destruct (String.eqb_spec key "MOVIE") as [->|Hm].
    + rewrite decide_True by done. rewrite decide_False by done.
      rewrite lookup_insert_eq. simpl. rewrite insert_insert_eq, IH.
      by rewrite <- app_assoc.
    + rewrite lookup_insert_ne by done.
      destruct (String.eqb_spec key "TV-SERIES") as [->|Hs].
      * rewrite decide_False by done. rewrite decide_True by done.
        rewrite lookup_insert_eq. simpl.
        rewrite (insert_insert_ne _ "TV-SERIES" "MOVIE") by done.
        rewrite insert_insert_eq.
        rewrite IH. by rewrite <- app_assoc.
      * rewrite !decide_False by done.
        rewrite lookup_insert_ne, lookup_empty by done.
        rewrite (Hv key); simpl; [apply IH|].
        rewrite (has_type_key v c key _ Hc Ht Hkey). apply String.eqb_refl.
  - rewrite !filter_cons, !has_type_untyped by eauto.
    rewrite !decide_False by done. apply IH.
  - rewrite !filter_cons, !has_type_untyped by eauto.
    rewrite !decide_False by done. apply IH.
Qed.

Lemma sortable_partition (k : string) (videos : list (gmap string value)) :
  k = "MOVIE" ∨ k = "TV-SERIES" →
  Forall (Spec.sortable R) videos →
  Forall (Spec.date_converts R) (filter (λ v, Spec.has_type R k v = true) videos).
Proof.
  intros Hk Hall. apply Forall_forall. intros v [Ht Hin]%list_elem_of_filter.
  rewrite Forall_forall in Hall. destruct (Hall v Hin) as (_ & _ & Hd).
  apply Hd. unfold Spec.kept_type.
  destruct Hk as [->| ->]; rewrite Ht; [done|apply orb_true_r].
Qed.

(** C6 (as amended).  When every record can be grouped and ordered
    without an exception (a truthy content type can be turned into a
    property key, the key is not a name every object inherits, and the
    date of a record of one of the two types can be made),
    [getLatestVideosByType] returns an object with exactly the two
    partitions MOVIE and TV-SERIES; each holds records of that content
    type only, sorted by upload date, newest first, and truncated to at
    most [limit] elements.  A record of any other content type is in
    neither partition. *)
Theorem latest_videos_by_type (videos : list (gmap string value)) (limit : nat) :
  Forall (Spec.sortable R) videos →
  ∃ movies series,
    Video.getLatestVideosByType R videos limit
    = Ret (<["MOVIE" := movies]> (<["TV-SERIES" := series]> ∅))
    ∧ Spec.latest_of R "MOVIE" videos limit movies
    ∧ Spec.latest_of R "TV-SERIES" videos limit series.
Proof.
  intros Hall. unfold Video.getLatestVideosByType, Video.empty_groups.
  rewrite (group_videos_partitions videos [] [] Hall). simpl.
  rewrite lookup_insert_eq, lookup_insert_ne, lookup_insert_eq by done. simpl.
  destruct (latest_returns limit _ (sortable_partition "MOVIE" videos (or_introl eq_refl) Hall))
    as [movies Hmovies].
  destruct (latest_returns limit _
              (sortable_partition "TV-SERIES" videos (or_intror eq_refl) Hall))
    as [series Hseries].
  rewrite Hmovies, Hseries.
  exists movies, series. split.
  - reflexivity.
  - split; by apply truncated_sort_is_latest.
Qed.

End GroupProperties.

Lemma sortable_of_string (R : Runtime) (v : gmap string value) (s : string) :
  v !! "contentType" = Some (VStr s) → Video.inherited s = false →
  Spec.date_converts R v →
  Spec.sortable R v.
Proof.
  intros Hc Hs Hd. split; [|split; [|done]].
  - intros c Hc'. rewrite Hc in Hc'. by injection Hc' as <-.
  - intros k. unfold Spec.has_type. rewrite Hc. simpl.
    intros [_ Hk]%andb_true_iff. by apply String.eqb_eq in Hk as <-.
Qed.

(** A record whose content type names an inherited property makes the
    grouping throw: what is read from [grouped] has no [push]. *)
Example inherited_type_throws (R : Runtime) :
  Video.getLatestVideosByType R [<["contentType" := VStr "constructor"]> ∅] 8
  = Throw TypeError.
Proof. reflexivity. Qed.

(** A record whose content type is an array with an element that has no
    primitive value makes the grouping throw: the array cannot be turned
    into a property key. *)
Example unreadable_type_throws :
  Video.to_string bare_host (VJson unconvertible_array) = Throw TypeError
  ∧ Video.getLatestVideosByType bare_host [unreadable_type] 8 = Throw TypeError.
Proof. split; reflexivity. Qed.

(** An array that reads as the name of a partition counts for it. *)
Example list_type_is_grouped (R : Runtime) :
  Spec.has_type R "MOVIE" (<["contentType" := VList ["MOVIE"]]> ∅) = true.
Proof. reflexivity. Qed.

(** The two dated films of the sample come out newest first. *)
Example latest_of_the_sample :
  Video.getLatestVideosByType bare_host sample_videos 8
  = Ret (<["MOVIE" := [movie_of "2024-03-04"; movie_of "2024-01-02"]]>
           (<["TV-SERIES" := []]> ∅))
  ∧ Video.getLatestVideosByType bare_host sample_videos 1
    = Ret (<["MOVIE" := [movie_of "2024-03-04"]]> (<["TV-SERIES" := []]> ∅))
  ∧ Spec.dated bare_host (movie_of "2024-01-02")
  ∧ Spec.dated bare_host (movie_of "2024-03-04").
Proof.
  split; [vm_compute; reflexivity|]. split; [vm_compute; reflexivity|].
  split; eexists; vm_compute; reflexivity.
Qed.

Lemma latest_videos_by_type_witness :
  ∃ movies series,
    Video.getLatestVideosByType bare_host sample_videos 8
    = Ret (<["MOVIE" := movies]> (<["TV-SERIES" := series]> ∅))
    ∧ Spec.latest_of bare_host "MOVIE" sample_videos 8 movies
    ∧ Spec.latest_of bare_host "TV-SERIES" sample_videos 8 series.
Proof.
  apply (latest_videos_by_type bare_host sample_videos 8).
  repeat apply Forall_cons_2; try apply Forall_nil_2.
  - by apply (sortable_of_string _ _ "MOVIE").
  - by apply (sortable_of_string _ _ "DOCUMENTARY").
  - by apply (sortable_of_string _ _ "MOVIE").
Defined.

(** C6, the claim as written fails: a record whose content type is
    DOCUMENTARY is in no partition of the result, which has no partition
    for that type. *)
Lemma other_types_are_dropped :
  documentary !! "contentType" = Some (VStr "DOCUMENTARY")
  ∧ Video.getLatestVideosByType bare_host [documentary] 8
    = Ret (<["MOVIE" := []]> (<["TV-SERIES" := []]> ∅))
  ∧ (<["MOVIE" := []]> (<["TV-SERIES" := []]> ∅) : gmap string (list (gmap string value)))
      !! "DOCUMENTARY" = None.
Proof. repeat split; vm_compute; reflexivity. Qed.

(** ** Sitemaps *)

Section SitemapProperties.

Context (R : Runtime).




End SitemapProperties.


(** * Further properties *)

(** ** More on strings *)

Lemma to_lower_idempotent (c : ascii) : Chr.to_lower (Chr.to_lower c) = Chr.to_lower c.
Proof. by_cases_on_char c. Qed.

Lemma to_lower_space (c : ascii) : Chr.is_space (Chr.to_lower c) = Chr.is_space c.
Proof. by_cases_on_char c. Qed.

Lemma slug_char_kept (c : ascii) : Spec.slug_char c = true → slug_keeps c = true.
Proof. by_cases_on_char c. Qed.

Lemma slug_char_not_space (c : ascii) : Spec.slug_char c = true → Chr.is_space c = false.
Proof. by_cases_on_char c. Qed.

Lemma slug_char_separator (c : ascii) :
  Spec.slug_char c = true → slug_separator c = Chr.is_hyphen c.
Proof. by_cases_on_char c. Qed.

Lemma hyphen_is_separator (c : ascii) : Chr.is_hyphen c = true → slug_separator c = true.
Proof. by_cases_on_char c. Qed.

Lemma is_hyphen_eq (c : ascii) : Chr.is_hyphen c = true → c = "-"%char.
Proof. by_cases_on_char c. Qed.

Lemma toLowerCase_idempotent (s : string) : toLowerCase (toLowerCase s) = toLowerCase s.
Proof.
  unfold toLowerCase. induction s as [|c r IH]; simpl; [done|].
  by rewrite to_lower_idempotent, IH.
Qed.

Section DropWhile.

Context (q : ascii → bool).

Lemma drop_while_id (s : string) :
  (∀ c, Str.first_char s = Some c → q c = false) → Str.drop_while q s = s.
Proof.
  destruct s as [|c r]; simpl; [done|]. intros H. by rewrite (H c).
Qed.

Lemma drop_while_end_id (s : string) :
  (∀ c, Str.last_char s = Some c → q c = false) → Str.drop_while_end q s = s.
Proof.
  induction s as [|c r IH]; simpl; [done|]. intros H.
  destruct r as [|d t].
  - simpl. by rewrite (H c).
  - rewrite IH by (intros e He; by apply H).
    simpl. by rewrite andb_false_r.
Qed.

Lemma drop_while_idempotent (s : string) :
  Str.drop_while q (Str.drop_while q s) = Str.drop_while q s.
Proof. apply drop_while_id. intros c. apply first_char_drop_while. Qed.

Lemma drop_while_end_idempotent (s : string) :
  Str.drop_while_end q (Str.drop_while_end q s) = Str.drop_while_end q s.
Proof. apply drop_while_end_id. intros c. apply last_char_drop_while_end. Qed.

Lemma map_drop_while (f : ascii → ascii) (s : string) :
  (∀ c, q (f c) = q c) →
  Str.map_chars f (Str.drop_while q s) = Str.drop_while q (Str.map_chars f s).
Proof.
  intros H. induction s as [|c r IH]; simpl; [done|].
  rewrite H. by destruct (q c).
Qed.

Lemma map_is_empty (f : ascii → ascii) (s : string) :
  Str.is_empty (Str.map_chars f s) = Str.is_empty s.
Proof. by destruct s. Qed.

Lemma map_drop_while_end (f : ascii → ascii) (s : string) :
  (∀ c, q (f c) = q c) →
  Str.map_chars f (Str.drop_while_end q s) = Str.drop_while_end q (Str.map_chars f s).
Proof.
  intros H. induction s as [|c r IH]; simpl; [done|].
  rewrite <- IH, H, map_is_empty.
  by destruct (q c && Str.is_empty (Str.drop_while_end q r)).
Qed.

End DropWhile.

Lemma trim_idempotent (s : string) : Str.trim (Str.trim s) = Str.trim s.
Proof.
  unfold Str.trim.
  rewrite (drop_while_id _ (Str.drop_while_end _ _)).
  - apply drop_while_end_idempotent.
  - intros c Hc. apply first_char_drop_while_end_inv in Hc.
    by apply first_char_drop_while in Hc.
Qed.

Lemma toLowerCase_trim (s : string) : toLowerCase (Str.trim s) = Str.trim (toLowerCase s).
Proof.
  unfold toLowerCase, Str.trim.
  rewrite map_drop_while_end, map_drop_while; auto using to_lower_space.
Qed.

Lemma filter_chars_id (p : ascii → bool) (s : string) :
  Str.all_chars p s = true → Str.filter_chars p s = s.
Proof.
  induction s as [|c r IH]; simpl; [done|].
  intros [-> Hr]%andb_true_iff. by rewrite IH.
Qed.

Lemma all_chars_impl (p q : ascii → bool) (s : string) :
  (∀ c, p c = true → q c = true) → Str.all_chars p s = true → Str.all_chars q s = true.
Proof.
  intros H. induction s as [|c r IH]; simpl; [done|].
  intros [Hc Hr]%andb_true_iff. by rewrite (H c Hc), IH.
Qed.

Lemma all_chars_first (p : ascii → bool) (s : string) (c : ascii) :
  Str.all_chars p s = true → Str.first_char s = Some c → p c = true.
Proof. destruct s; simpl; [done|]. by intros [? _]%andb_true_iff [= <-]. Qed.

Lemma all_chars_last (p : ascii → bool) (s : string) (c : ascii) :
  Str.all_chars p s = true → Str.last_char s = Some c → p c = true.
Proof.
  induction s as [|d r IH]; simpl; [done|].
  intros [Hd Hr]%andb_true_iff. destruct r; [by intros [= <-]|]. by apply IH.
Qed.

(** ** More on slugs *)

Lemma no_double_hyphen_drop_while (q : ascii → bool) (s : string) :
  Shape.no_double_hyphen s = true →
  Shape.no_double_hyphen (Str.drop_while q s) = true.
Proof.
  induction s as [|c r IH]; [done|].
  intros H. simpl. destruct (q c); [|done].
  apply IH. destruct r; [done|]. simpl in H. by apply andb_true_iff in H as [_ ?].
Qed.

Lemma no_double_hyphen_drop_while_end (q : ascii → bool) (s : string) :
  Shape.no_double_hyphen s = true →
  Shape.no_double_hyphen (Str.drop_while_end q s) = true.
Proof.
  induction s as [|c r IH]; [done|].
  intros H. simpl.
  assert (Hr : Shape.no_double_hyphen r = true).
  { destruct r; [done|]. simpl in H. by apply andb_true_iff in H as [_ ?]. }
  destruct (q c && Str.is_empty (Str.drop_while_end q r)); [done|].
  specialize (IH Hr).
  destruct (Str.drop_while_end q r) as [|d t] eqn:Hd; [done|].
  change (negb (Chr.is_hyphen c && Chr.is_hyphen d) && Shape.no_double_hyphen (String d t)
          = true).
  rewrite IH, andb_true_r.
  destruct r as [|d' t']; [done|].
  assert (d' = d) as ->.
  { assert (Hf : Str.first_char (Str.drop_while_end q (String d' t')) = Some d)
      by (by rewrite Hd).
    apply first_char_drop_while_end_inv in Hf. by injection Hf. }
  simpl in H. by apply andb_true_iff in H as [? _].
Qed.

Lemma collapse_no_double_hyphen (b : bool) (s : string) :
  Shape.no_double_hyphen (collapse_separators b s) = true
  ∧ (b = true → Str.first_char (collapse_separators b s) ≠ Some "-"%char).
Proof.
  revert b. induction s as [|c r IH]; intros b; [done|].
  simpl. destruct (slug_separator c) eqn:Hs.
  - destruct b.
    + apply IH.
    + split; [|done].
      destruct (IH true) as [Hn Hf].
      destruct (collapse_separators true r) as [|d t] eqn:Hc; [done|].
      change (negb (Chr.is_hyphen "-" && Chr.is_hyphen d)
              && Shape.no_double_hyphen (String d t) = true).
      rewrite Hn, andb_true_r.
      destruct (Chr.is_hyphen d) eqn:Hd; [|done].
      apply is_hyphen_eq in Hd as ->. by destruct Hf.
  - assert (Hh : Chr.is_hyphen c = false).
    { destruct (Chr.is_hyphen c) eqn:Hh; [|done].
      by rewrite (hyphen_is_separator c Hh) in Hs. }
    split.
    + destruct (IH false) as [Hn _].
      destruct (collapse_separators false r) as [|d t] eqn:Hc; [done|].
      change (negb (Chr.is_hyphen c && Chr.is_hyphen d)
              && Shape.no_double_hyphen (String d t) = true).
      by rewrite Hn, Hh.
    + intros _ [= ->]. done.
Qed.

Lemma strip_hyphens_no_double_hyphen (s : string) :
  Shape.no_double_hyphen s = true → Shape.no_double_hyphen (strip_hyphens s) = true.
Proof.
  intros H. unfold strip_hyphens.
  by apply no_double_hyphen_drop_while_end, no_double_hyphen_drop_while.
Qed.

Lemma generateSlug_hyphens_apart (text : string) :
  Shape.no_double_hyphen (generateSlug text) = true.
Proof.
  unfold generateSlug. apply strip_hyphens_no_double_hyphen, collapse_no_double_hyphen.
Qed.

(** X1.  A generated slug never has two hyphens in a row: every run of
    separators of the text leaves one hyphen. *)
Theorem generateSlug_no_double_hyphen (text : string) :
  Shape.no_double_hyphen (generateSlug text) = true.
Proof. apply generateSlug_hyphens_apart. Qed.

Lemma collapse_id (s : string) :
  Str.all_chars Spec.slug_char s = true → Shape.no_double_hyphen s = true →
  collapse_separators false s = s
  ∧ (Str.first_char s ≠ Some "-"%char → collapse_separators true s = s).
Proof.
  induction s as [|c r IH]; [done|].
  intros Hall Hn.
  assert (Hc : Spec.slug_char c = true ∧ Str.all_chars Spec.slug_char r = true)
    by (by apply andb_true_iff).
  destruct Hc as [Hc Hr].
  assert (Hnr : Shape.no_double_hyphen r = true).
  { destruct r; [done|]. simpl in Hn. by apply andb_true_iff in Hn as [_ ?]. }
  destruct (IH Hr Hnr) as [IHf IHt].
  simpl. rewrite (slug_char_separator c Hc).
  destruct (Chr.is_hyphen c) eqn:Hh.
  - pose proof (is_hyphen_eq c Hh) as ->. split; [|done].
    rewrite IHt; [done|].
    destruct r as [|d t]; [done|]. simpl. intros [= ->].
    simpl in Hn. done.
  - rewrite IHf. done.
Qed.

(** X2.  Generating a slug from a generated slug changes nothing. *)
Theorem generateSlug_idempotent (text : string) :
  generateSlug (generateSlug text) = generateSlug text.
Proof.
  destruct (generateSlug_well_formed text) as (Hlow & Hall & Hfirst & Hlast).
  pose proof (generateSlug_hyphens_apart text) as Hn.
  set (t := generateSlug text) in *.
  unfold generateSlug at 1. rewrite Hlow.
  assert (Htrim : Str.trim t = t).
  { unfold Str.trim. rewrite (drop_while_id _ t).
    - apply drop_while_end_id. intros c Hc.
      apply slug_char_not_space, (all_chars_last _ t c Hall Hc).
    - intros c Hc. apply slug_char_not_space, (all_chars_first _ t c Hall Hc). }
  rewrite Htrim.
  rewrite filter_chars_id by (apply (all_chars_impl Spec.slug_char); auto using slug_char_kept).
  rewrite (proj1 (collapse_id t Hall Hn)).
  unfold strip_hyphens. rewrite (drop_while_id _ t).
  - apply drop_while_end_id. intros c Hc.
    destruct (Chr.is_hyphen c) eqn:Hh; [|done].
    apply is_hyphen_eq in Hh as ->. done.
  - intros c Hc. destruct (Chr.is_hyphen c) eqn:Hh; [|done].
    apply is_hyphen_eq in Hh as ->. done.
Qed.

(** X3.  The slug does not depend on the case of the letters nor on white
    space around the text. *)
Theorem generateSlug_ignores_case_and_margins (text : string) :
  generateSlug (toLowerCase text) = generateSlug text
  ∧ generateSlug (Str.trim text) = generateSlug text.
Proof.
  unfold generateSlug. split.
  - by rewrite toLowerCase_idempotent.
  - by rewrite toLowerCase_trim, trim_idempotent.
Qed.

(** ** More on durations *)

Lemma append_cons (c : ascii) (x y : string) : String c x +:+ y = String c (x +:+ y).
Proof. reflexivity. Qed.

Lemma append_nil (y : string) : "" +:+ y = y.
Proof. reflexivity. Qed.

Lemma append_nil_r (x : string) : x +:+ "" = x.
Proof. induction x as [|c r IH]; [done|]. by rewrite append_cons, IH. Qed.

Lemma append_assoc (x y z : string) : (x +:+ y) +:+ z = x +:+ (y +:+ z).
Proof. induction x as [|c r IH]; [done|]. by rewrite !append_cons, IH. Qed.

Lemma take_drop_while (p : ascii → bool) (s : string) :
  Str.take_while p s +:+ Str.drop_while p s = s.
Proof.
  induction s as [|c r IH]; simpl; [done|].
  destruct (p c); [by rewrite append_cons, IH|done].
Qed.

Lemma all_chars_take_while (p : ascii → bool) (s : string) :
  Str.all_chars p (Str.take_while p s) = true.
Proof.
  induction s as [|c r IH]; simpl; [done|].
  destruct (p c) eqn:Hc; simpl; [by rewrite Hc|done].
Qed.

Lemma take_while_app (p : ascii → bool) (d r : string) :
  Str.all_chars p d = true →
  (∀ c, Str.first_char r = Some c → p c = false) →
  Str.take_while p (d +:+ r) = d ∧ Str.drop_while p (d +:+ r) = r.
Proof.
  intros Hd Hr. induction d as [|c t IH].
  - rewrite append_nil. destruct r as [|e u]; simpl; [done|]. by rewrite (Hr e).
  - simpl in Hd. apply andb_true_iff in Hd as [Hc Ht].
    rewrite append_cons. simpl. rewrite Hc.
    destruct (IH Ht) as [-> ->]. done.
Qed.

Lemma digits1_inv (s d r : string) :
  Str.digits1 s = Some (d, r) →
  Shape.digits_run d ∧ s = d +:+ r
  ∧ ∀ c, Str.first_char r = Some c → Chr.is_digit c = false.
Proof.
  unfold Str.digits1.
  destruct (Str.is_empty (Str.take_while Chr.is_digit s)) eqn:He; [done|].
  intros [= <- <-]. split; [split; [done|apply all_chars_take_while]|].
  split; [by rewrite take_drop_while|]. intros c. apply first_char_drop_while.
Qed.

Lemma digits1_app (d r : string) :
  Shape.digits_run d →
  (∀ c, Str.first_char r = Some c → Chr.is_digit c = false) →
  Str.digits1 (d +:+ r) = Some (d, r).
Proof.
  intros [Hne Hd] Hr. unfold Str.digits1.
  destruct (take_while_app Chr.is_digit d r Hd Hr) as [-> ->]. by rewrite Hne.
Qed.

Lemma scan_some {A : Type} (m : string → option A) (s : string) (a : A) :
  Str.scan m s = Some a → ∃ t, m t = Some a.
Proof.
  induction s as [|c r IH]; simpl.
  - destruct (m "") eqn:H; [intros [= <-]; eauto|done].
  - destruct (m (String c r)) eqn:H; [intros [= <-]; eauto|apply IH].
Qed.

Lemma string_of_uint_digits (d : Decimal.uint) :
  Str.all_chars Chr.is_digit (NilEmpty.string_of_uint d) = true.
Proof. induction d; simpl; auto. Qed.

Lemma N_to_string_digits (n : N) : Shape.digits_run (Num.N_to_string n).
Proof.
  unfold Num.N_to_string, NilZero.string_of_uint.
  destruct (N.to_uint n) eqn:Hd; split; try done;
    rewrite <- Hd at 1; try apply string_of_uint_digits.
  all: rewrite Hd; apply (string_of_uint_digits (_ u)).
Qed.

Lemma match_hms_inv (d h m sec : string) :
  Duration.match_hms d = Some (h, m, sec) →
  Shape.digits_run h ∧ Shape.digits_run m ∧ Shape.digits_run sec.
Proof.
  unfold Duration.match_hms. intros H.
  destruct (Str.digits1 d) as [[h' r1]|] eqn:H1; simpl in H; [|done].
  destruct (Str.expect ":" r1) as [r2|]; simpl in H; [|done].
  destruct (Str.digits1 r2) as [[m' r3]|] eqn:H2; simpl in H; [|done].
  destruct (Str.expect ":" r3) as [r4|]; simpl in H; [|done].
  destruct (Str.digits1 r4) as [[s' r5]|] eqn:H3; simpl in H; [|done].
  destruct (Str.at_end r5); simpl in H; [|done].
  injection H as <- <- <-.
  apply digits1_inv in H1 as [? _], H2 as [? _], H3 as [? _]. done.
Qed.

Lemma match_ms_inv (d m sec : string) :
  Duration.match_ms d = Some (m, sec) → Shape.digits_run m ∧ Shape.digits_run sec.
Proof.
  unfold Duration.match_ms. intros H.
  destruct (Str.digits1 d) as [[m' r1]|] eqn:H1; simpl in H; [|done].
  destruct (Str.expect ":" r1) as [r2|]; simpl in H; [|done].
  destruct (Str.digits1 r2) as [[s' r3]|] eqn:H2; simpl in H; [|done].
  destruct (Str.at_end r3); simpl in H; [|done].
  injection H as <- <-.
  apply digits1_inv in H1 as [? _], H2 as [? _]. done.
Qed.

Lemma match_hm_inv (d h m : string) :
  Duration.match_hm d = Some (h, m) → Shape.digits_run h ∧ Shape.digits_run m.
Proof.
  unfold Duration.match_hm. intros [t H]%scan_some.
  unfold Duration.hm_here in H.
  destruct (Str.digits1 t) as [[h' r1]|] eqn:H1; simpl in H; [|done].
  destruct (Str.expect_ci "h" r1) as [r2|]; simpl in H; [|done].
  destruct (Str.digits1 (Str.drop_while _ _)) as [[m' r3]|] eqn:H2; simpl in H; [|done].
  destruct (Str.expect_ci "m" r3); simpl in H; [|done].
  injection H as <- <-.
  apply digits1_inv in H1 as [? _], H2 as [? _]. done.
Qed.

Lemma digits_first (d : string) (c : ascii) :
  Shape.digits_run d → Str.first_char d = Some c → Chr.is_digit c = true.
Proof. intros [_ Hd]. by apply all_chars_first. Qed.

Lemma digits_run_cons (d : string) :
  Shape.digits_run d → ∃ c r, d = String c r ∧ Chr.is_digit c = true.
Proof.
  intros [Hne Hd]. destruct d as [|c r]; [done|].
  exists c, r. split; [done|]. simpl in Hd. by apply andb_true_iff in Hd as [? _].
Qed.

Lemma optional_part_hit (u : ascii) (d r : string) :
  Shape.digits_run d → Chr.is_digit u = false →
  Spec.optional_part u (d +:+ String u r) = (Some (Num.of_digits d), r).
Proof.
  intros Hd Hu. unfold Spec.optional_part.
  rewrite (digits1_app d (String u r) Hd) by (by intros c [= <-]).
  simpl. by rewrite Ascii.eqb_refl.
Qed.

Lemma optional_part_miss (u u' : ascii) (d r : string) :
  Shape.digits_run d → Chr.is_digit u' = false → u ≠ u' →
  Spec.optional_part u (d +:+ String u' r) = (None, d +:+ String u' r).
Proof.
  intros Hd Hu Hne. unfold Spec.optional_part.
  rewrite (digits1_app d (String u' r) Hd) by (by intros c [= <-]).
  simpl. by rewrite (proj2 (Ascii.eqb_neq u u') Hne).
Qed.

Lemma optional_part_end (u : ascii) : Spec.optional_part u "" = (None, "").
Proof. reflexivity. Qed.

Lemma drop_spaces_digits (d r : string) :
  Shape.digits_run d → Str.drop_while Chr.is_space (d +:+ r) = d +:+ r.
Proof.
  intros (c & t & -> & Hc)%digits_run_cons. rewrite append_cons. simpl.
  destruct (Chr.is_space c) eqn:Hs; [|done]. exfalso. revert Hc Hs. by_cases_on_char c.
Qed.

(** The components of the ISO text and of the human text. *)
Lemma iso_hms (h m sec : string) :
  Shape.digits_run h → Shape.digits_run m → Shape.digits_run sec →
  Spec.iso_components ("PT" +:+ h +:+ "H" +:+ m +:+ "M" +:+ sec +:+ "S")
  = Some (Some (Num.of_digits h), Some (Num.of_digits m)).
Proof.
  intros Hh Hm Hs. unfold Spec.iso_components.
  rewrite !append_cons, !append_nil. simpl Str.strip_prefix. simpl mbind.
  rewrite (optional_part_hit "H" h) by done.
  rewrite (optional_part_hit "M" m) by done.
  rewrite (optional_part_hit "S" sec) by done.
  reflexivity.
Qed.

Lemma iso_ms (m sec : string) :
  Shape.digits_run m → Shape.digits_run sec →
  Spec.iso_components ("PT" +:+ m +:+ "M" +:+ sec +:+ "S")
  = Some (None, Some (Num.of_digits m)).
Proof.
  intros Hm Hs. unfold Spec.iso_components.
  rewrite ?append_cons, ?append_nil. simpl Str.strip_prefix. simpl mbind.
  rewrite (optional_part_miss "H" "M" m) by done.
  rewrite (optional_part_hit "M" m) by done.
  rewrite (optional_part_hit "S" sec) by done.
  reflexivity.
Qed.

Lemma iso_minutes (m : string) :
  Shape.digits_run m →
  Spec.iso_components ("PT" +:+ m +:+ "M") = Some (None, Some (Num.of_digits m)).
Proof.
  intros Hm. unfold Spec.iso_components.
  rewrite ?append_cons, ?append_nil. simpl Str.strip_prefix. simpl mbind.
  rewrite (optional_part_miss "H" "M" m) by done.
  rewrite (optional_part_hit "M" m) by done.
  reflexivity.
Qed.

Lemma iso_hours (h : string) :
  Shape.digits_run h →
  Spec.iso_components ("PT" +:+ h +:+ "H") = Some (Some (Num.of_digits h), None).
Proof.
  intros Hh. unfold Spec.iso_components.
  rewrite ?append_cons, ?append_nil. simpl Str.strip_prefix. simpl mbind.
  rewrite (optional_part_hit "H" h) by done.
  reflexivity.
Qed.

Lemma iso_hm (h m : string) :
  Shape.digits_run h → Shape.digits_run m →
  Spec.iso_components ("PT" +:+ h +:+ "H" +:+ m +:+ "M")
  = Some (Some (Num.of_digits h), Some (Num.of_digits m)).
Proof.
  intros Hh Hm. unfold Spec.iso_components.
  rewrite ?append_cons, ?append_nil. simpl Str.strip_prefix. simpl mbind.
  rewrite (optional_part_hit "H" h) by done.
  rewrite (optional_part_hit "M" m) by done.
  reflexivity.
Qed.

Lemma human_hm (h m : string) :
  Shape.digits_run h → Shape.digits_run m →
  Spec.human_components (h +:+ "h " +:+ m +:+ "m")
  = Some (Some (Num.of_digits h), Some (Num.of_digits m)).
Proof.
  intros Hh Hm. unfold Spec.human_components.
  rewrite ?append_cons, ?append_nil.
  rewrite (optional_part_hit "h" h) by done.
  change (Str.drop_while Chr.is_space (String " " (m +:+ String "m" "")))
    with (Str.drop_while Chr.is_space (m +:+ String "m" "")).
  rewrite drop_spaces_digits by done.
  rewrite (optional_part_hit "m" m) by done.
  reflexivity.
Qed.

Lemma human_minutes (m : string) :
  Shape.digits_run m →
  Spec.human_components (m +:+ "m") = Some (None, Some (Num.of_digits m)).
Proof.
  intros Hm. unfold Spec.human_components.
  rewrite ?append_cons, ?append_nil.
  rewrite (optional_part_miss "h" "m" m) by done.
  rewrite drop_spaces_digits by done.
  rewrite (optional_part_hit "m" m) by done.
  reflexivity.
Qed.

Lemma human_hours (h : string) :
  Shape.digits_run h →
  Spec.human_components (h +:+ "h") = Some (Some (Num.of_digits h), None).
Proof.
  intros Hh. unfold Spec.human_components.
  rewrite ?append_cons, ?append_nil.
  rewrite (optional_part_hit "h" h) by done.
  reflexivity.
Qed.

Lemma not_recognised (d : string) :
  Duration.match_hms d = None → Duration.match_ms d = None →
  Duration.match_minutes d = None → Duration.match_hours d = None →
  Duration.match_hm d = None → ¬ Shape.recognised d.
Proof.
  intros H1 H2 H3 H4 H5. unfold Shape.recognised.
  rewrite H1, H2, H3, H4, H5. intros [[? ?]|[[? ?]|[[? ?]|[[? ?]|[? ?]]]]]; done.
Qed.

(** Both formatters, on any duration text. *)
Lemma duration_components (d : string) :
  ∃ hm, Spec.iso_components (Duration.convertDurationToISO d) = Some hm
        ∧ (Shape.recognised d →
           Spec.human_components (Duration.formatDurationForDisplay d) = Some hm).
Proof.
  unfold Duration.convertDurationToISO, Duration.formatDurationForDisplay.
  destruct (Str.is_empty d || String.eqb d "Not specified") eqn:G.
  { exists (None, Some 0%N). split; [reflexivity|]. intros Hr. exfalso.
    apply orb_true_iff in G as [G|G].
    - destruct d; [|done]. revert Hr. by apply not_recognised.
    - apply String.eqb_eq in G as ->. revert Hr. by apply not_recognised. }
  destruct (Duration.match_hms d) as [[[h m] sec]|] eqn:H1.
  { destruct (match_hms_inv d h m sec H1) as (Hh & Hm & Hs).
    eexists. split; [by apply iso_hms|]. intros _. by apply human_hm. }
  destruct (Duration.match_ms d) as [[m sec]|] eqn:H2.
  { destruct (match_ms_inv d m sec H2) as (Hm & Hs).
    eexists. split; [by apply iso_ms|]. intros _. by apply human_minutes. }
  destruct (Duration.match_minutes d) as [m|] eqn:H3.
  { eexists. split; [apply iso_minutes, N_to_string_digits|].
    intros _. apply human_minutes, N_to_string_digits. }
  destruct (Duration.match_hours d) as [h|] eqn:H4.
  { eexists. split; [apply iso_hours, N_to_string_digits|].
    intros _. apply human_hours, N_to_string_digits. }
  destruct (Duration.match_hm d) as [[h m]|] eqn:H5.
  { destruct (match_hm_inv d h m H5) as (Hh & Hm).
    eexists. split; [by apply iso_hm|]. intros _. by apply human_hm. }
  exists (None, Some 0%N). split; [reflexivity|].
  intros Hr. exfalso. revert Hr. by apply not_recognised.
Qed.

(** X4.  Whatever the duration text of at most fifteen characters (so
    that every number read from it is held exactly), as soon as one of
    the five patterns recognises it, the ISO formatter and the human
    formatter agree on its hour and minute components. *)
Theorem formatters_agree_when_recognised (d : string) :
  Shape.short_text d → Shape.recognised d → Spec.formatters_agree d.
Proof.
  intros _ Hr. destruct (duration_components d) as (hm & Hiso & Hhuman).
  exists hm. auto.
Qed.

Lemma formatters_agree_when_recognised_witness : Spec.formatters_agree "about 2 hrs".
Proof.
  apply formatters_agree_when_recognised.
  - unfold Shape.short_text. simpl. lia.
  - right; right; right; left. vm_compute. by eexists.
Defined.

(** X5.  Whatever the duration text of at most fifteen characters, the
    ISO formatter returns a text of the form PT, hours H, minutes M,
    seconds S with each part optional. *)
Theorem iso_duration_is_well_formed (d : string) :
  Shape.short_text d →
  is_Some (Spec.iso_components (Duration.convertDurationToISO d)).
Proof. intros _. destruct (duration_components d) as (hm & -> & _). by eexists. Qed.

Lemma iso_duration_is_well_formed_witness :
  is_Some (Spec.iso_components (Duration.convertDurationToISO "1h 05m")).
Proof.
  apply iso_duration_is_well_formed. unfold Shape.short_text. simpl. lia.
Defined.

(** ** Printing and reading numbers *)

Lemma fold_digits_pos (d : Decimal.uint) (p : positive) :
  fold_left (fun (acc : N) (c : ascii) => (10 * acc + Num.digit_value c)%N) (list_ascii_of_string (NilEmpty.string_of_uint d)) (Npos p)
  = Npos (Pos.of_uint_acc d p).
Proof.
  revert p. induction d; intros p; simpl; [done|..];
    (etransitivity; [|apply IHd]); f_equal; vm_compute Num.digit_value; lia.
Qed.

Lemma fold_digits_zero (d : Decimal.uint) :
  fold_left (fun (acc : N) (c : ascii) => (10 * acc + Num.digit_value c)%N) (list_ascii_of_string (NilEmpty.string_of_uint d)) 0%N
  = N.of_uint d.
Proof.
  induction d; simpl; [done|exact IHd|..]; apply fold_digits_pos.
Qed.

Lemma of_digits_printed (n : N) : Num.of_digits (Num.N_to_string n) = n.
Proof.
  rewrite <- (DecimalN.Unsigned.of_to n) at 2.
  unfold Num.of_digits, Num.N_to_string, NilZero.string_of_uint.
  destruct (N.to_uint n) eqn:Hd; try done; rewrite <- Hd at 1.
  all: rewrite Hd; apply (fold_digits_zero (_ u)).
Qed.

(** Reading back a printed number gives the number. *)
Lemma parseInt_of_printed (n : N) :
  Num.parseInt (Num.N_to_string n) = Some (Z.of_N n).
Proof.
  destruct (N_to_string_digits n) as [Hne Hall].
  pose proof (of_digits_printed n) as Hn.
  unfold Num.parseInt.
  destruct (Num.N_to_string n) as [|c r] eqn:Hs; [done|].
  assert (Hc : Chr.is_digit c = true) by (simpl in Hall; by apply andb_true_iff in Hall as [? _]).
  assert (Hd : Str.drop_while Chr.is_space (String c r) = String c r).
  { simpl. destruct (Chr.is_space c) eqn:Hsp; [|done]. exfalso. revert Hc Hsp. by_cases_on_char c. }
  rewrite Hd.
  assert (Ht : Str.take_while Chr.is_digit (String c r) = String c r).
  { rewrite <- (append_nil_r (String c r)) at 1.
    by apply (take_while_app Chr.is_digit (String c r) ""). }
  assert (Hm : Num.parse_magnitude (String c r) = Some n).
  { unfold Num.parse_magnitude.
    destruct (Ascii.eqb_spec c "0") as [->|Hz].
    - destruct r as [|x r'].
      + rewrite Ht. simpl. by rewrite <- Hn.
      + destruct (Chr.eqb_ci x "x") eqn:Hx.
        * exfalso. simpl in Hall. apply andb_true_iff in Hall as [Hx' _].
          revert Hx Hx'. by_cases_on_char x.
        * rewrite Ht. by rewrite Hn.
    - assert (Hgen : (let d := Str.take_while Chr.is_digit (String c r) in
                      if Str.is_empty d then None else Some (Num.of_digits d)) = Some n)
        by (rewrite Ht; simpl; by rewrite Hn).
      rewrite <- Hgen. clear -Hz.
      destruct c as [[] [] [] [] [] [] [] []];
        first [reflexivity | by destruct Hz]. }
  destruct (Ascii.eqb_spec c "-") as [->|Hminus]; [done|].
  destruct (Ascii.eqb_spec c "+") as [->|Hplus]; [done|].
  transitivity (Z.of_N <$> Num.parse_magnitude (String c r)); [|by rewrite Hm].
  clear -Hminus Hplus.
  destruct c as [[] [] [] [] [] [] [] []];
    first [by destruct Hminus | by destruct Hplus | reflexivity].
Qed.

(** ** More on sitemaps *)



Lemma div_up_bounds (len i : nat) :
  1 ≤ i ≤ Sitemap.totalSitemaps len 1000 ↔ 1 ≤ i ∧ (i - 1) * 1000 < len.
Proof.
  unfold Sitemap.totalSitemaps.
  pose proof (Nat.div_mod_eq (len + 1000 - 1) 1000) as Hq.
  pose proof (Nat.mod_upper_bound (len + 1000 - 1) 1000) as Hr.
  lia.
Qed.


Section MoreSitemapProperties.

Context (R : Runtime).



Lemma chunks_cover {A : Type} (k : nat) (l : list A) :
  length l ≤ k * 1000 →
  concat (map (λ i, take 1000 (drop (i * 1000) l)) (seq 0 k)) = l.
Proof.
  revert l. induction k as [|k IH]; intros l Hl.
  - destruct l; [done|]. simpl in Hl. lia.
  - rewrite <- cons_seq, <- fmap_S_seq. cbn [map concat].
    change (drop (0 * 1000) l) with l.
    transitivity (take 1000 l ++ drop 1000 l); [|apply take_drop]. f_equal.
    etransitivity; [|apply (IH (drop 1000 l)); rewrite length_drop; lia].
    change (map ?f (S <$> ?x)) with (f <$> (S <$> x)).
    rewrite <- list_fmap_compose. f_equal. apply map_ext. intros i. unfold compose.
    rewrite drop_drop. do 2 f_equal; lia.
Qed.

(** X7.  The chunks the index lists, put one after the other, are the
    list of entries: every entry is in one chunk, once, and in order. *)
Theorem chunks_partition_the_entries (entries : list (string * string)) :
  concat (map (λ i, take 1000 (drop ((i - 1) * 1000) entries))
              (Sitemap.chunk_numbers (length entries) 1000))
  = entries.
Proof.
  unfold Sitemap.chunk_numbers.
  rewrite <- fmap_S_seq.
  change (map ?f (S <$> ?l)) with (f <$> (S <$> l)).
  rewrite <- list_fmap_compose.
  etransitivity;
    [|apply (chunks_cover (Sitemap.totalSitemaps (length entries) 1000) entries)].
  - f_equal. apply map_ext. intros i. unfold compose. do 2 f_equal; lia.
  - unfold Sitemap.totalSitemaps.
    pose proof (Nat.div_mod_eq (length entries + 1000 - 1) 1000) as Hq.
    pose proof (Nat.mod_upper_bound (length entries + 1000 - 1) 1000) as Hr.
    lia.
Qed.

(** X8.  A path that begins with /sitemap- is always handed to the chunk
    generator, so the sitemaps of the static pages and of the categories,
    both listed in the index, are answered 404; whatever the path, the
    handler answers with the main sitemap, with a chunk, or with 404. *)
Theorem router_reaches_three_answers (entries : list (string * string))
    (baseUrl : string) :
  (∀ pathname, Str.starts_with "/sitemap-" pathname = true →
     Pages.route R entries baseUrl pathname
     = Sitemap.generateIndividualSitemap R entries baseUrl pathname)
  ∧ Pages.route R entries baseUrl "/sitemap-static.xml"
    = Sitemap.plain_response "Invalid sitemap" 404
  ∧ Pages.route R entries baseUrl "/sitemap-categories.xml"
    = Sitemap.plain_response "Invalid sitemap" 404
  ∧ ∀ pathname,
      Pages.route R entries baseUrl pathname = Pages.generateMainSitemap R entries baseUrl
      ∨ Pages.route R entries baseUrl pathname
        = Sitemap.generateIndividualSitemap R entries baseUrl pathname
      ∨ Pages.route R entries baseUrl pathname = Sitemap.plain_response "Not found" 404.
Proof.
  assert (Hpre : ∀ pathname, Str.starts_with "/sitemap-" pathname = true →
            Pages.route R entries baseUrl pathname
            = Sitemap.generateIndividualSitemap R entries baseUrl pathname).
  { intros p Hp. unfold Pages.route. rewrite Hp.
    destruct (String.eqb_spec p "/sitemap.xml") as [->|_]; [done|].
    destruct (String.eqb_spec p "/") as [->|_]; done. }
  split; [exact Hpre|]. split; [by rewrite Hpre|]. split; [by rewrite Hpre|].
  intros p. destruct (Str.starts_with "/sitemap-" p) eqn:Hp; [right; left; auto|].
  unfold Pages.route. rewrite Hp.
  destruct (String.eqb p "/sitemap.xml" || String.eqb p "/"); [by left|].
  destruct (String.eqb_spec p "/sitemap-categories.xml") as [->|_]; [done|].
  destruct (String.eqb_spec p "/sitemap-static.xml") as [->|_]; [done|].
  by right; right.
Qed.

End MoreSitemapProperties.

(** ** The single sitemap and the categories *)

Lemma distinct_elem (l : list string) (x : string) : x ∈ Pages.distinct l ↔ x ∈ l.
Proof.
  induction l as [|y r IH]; simpl; [done|].
  rewrite !elem_of_cons, list_elem_of_filter, IH.
  destruct (decide (x = y)) as [->|Hne]; [tauto|]. tauto.
Qed.

Lemma distinct_NoDup (l : list string) : NoDup (Pages.distinct l).
Proof.
  induction l as [|y r IH]; simpl; [constructor|].
  constructor; [|by apply NoDup_filter].
  rewrite list_elem_of_filter. tauto.
Qed.

Lemma distinct_length (l : list string) : length (Pages.distinct l) ≤ length l.
Proof.
  induction l as [|y r IH]; simpl; [done|].
  pose proof (length_filter (λ z, z ≠ y) (Pages.distinct r)). lia.
Qed.

Lemma categories_of_length (entries : list (string * string)) :
  length (Pages.categories_of entries) ≤ length entries.
Proof.
  unfold Pages.categories_of.
  etransitivity; [apply distinct_length|].
  etransitivity; [apply length_filter|]. by rewrite length_map.
Qed.

(** X9.  The single sitemap has one category page for each non-empty
    category that has an entry, and none twice. *)
Theorem category_pages_are_distinct (entries : list (string * string)) :
  NoDup (Pages.categories_of entries)
  ∧ ∀ c, c ∈ Pages.categories_of entries ↔ c ≠ "" ∧ ∃ slug, (c, slug) ∈ entries.
Proof.
  split; [apply distinct_NoDup|].
  intros c. unfold Pages.categories_of.
  rewrite distinct_elem, list_elem_of_filter, list_elem_of_fmap.
  split.
  - intros [Hne [[c' slug] [-> Hin]]]. split; [|by exists slug].
    intros Hc. simpl in Hc. rewrite Hc in Hne. done.
  - intros [Hne [slug Hin]]. split; [|by exists (c, slug)].
    destruct c; done.
Qed.

(** X10.  The main sitemap counts what the single sitemap lists: the
    single sitemap has exactly [totalUrls] elements, and it is served
    exactly when that count is at most 1000; otherwise the index is
    served, and it then lists at least one chunk. *)
Theorem main_sitemap_choice (R : Runtime) (entries : list (string * string))
    (baseUrl : string) :
  length (Pages.single_urls entries baseUrl) = Pages.totalUrls entries
  ∧ (Pages.totalUrls entries ≤ 1000 →
     Pages.generateMainSitemap R entries baseUrl
     = Sitemap.xml_response
         (Pages.render_urlset (Sitemap.today_of (Date_now_iso R))
            (Pages.single_urls entries baseUrl)))
  ∧ (1000 < Pages.totalUrls entries →
     Pages.generateMainSitemap R entries baseUrl
     = Sitemap.generateSitemapIndex entries baseUrl
         (Sitemap.today_of (Date_now_iso R)) 1000
     ∧ 1 ∈ Sitemap.chunk_numbers (length entries) 1000).
Proof.
  split; [|split].
  - unfold Pages.single_urls, Pages.totalUrls.
    rewrite !length_app, !length_map. simpl. lia.
  - intros H. unfold Pages.generateMainSitemap.
    by rewrite (proj2 (Nat.leb_le _ _) H).
  - intros H. unfold Pages.generateMainSitemap.
    rewrite (proj2 (Nat.leb_gt _ _) H). split; [done|].
    unfold Sitemap.chunk_numbers. rewrite elem_of_seq.
    pose proof (categories_of_length entries) as Hc.
    unfold Pages.totalUrls in H.
    assert (Hb : 1 ≤ 1 ∧ (1 - 1) * 1000 < length entries) by lia.
    apply div_up_bounds in Hb. lia.
Qed.

(** ** The slugs of the categories *)

Lemma slugs_of_categories_elem (directory : string → listing Pages.DirEntry)
    (cats : list string) (c slug : string) :
  (c, slug) ∈ Pages.slugs_of_categories directory cats
  ↔ c ∈ cats ∧ slug ∈ Pages.getCategorySlugs (directory c).
Proof.
  induction cats as [|c' r IH]; simpl.
  - split; [by intros ?%elem_of_nil|by intros [?%elem_of_nil _]].
  - rewrite elem_of_app, IH, elem_of_cons.
    change (map ?f ?l) with (f <$> l). rewrite list_elem_of_fmap. split.
    + intros [(s & [= -> ->] & Hs)|[? ?]]; auto.
    + intros [[->|Hc] Hs]; [left; eauto|right; auto].
Qed.

(** X11.  A pair of a category and a slug is in the list of all slugs
    exactly when the category is one of the five and its own listing
    gives that slug: a category whose request fails gives nothing, and
    takes nothing away from the others. *)
Theorem all_slugs_by_category (directory : string → listing Pages.DirEntry)
    (c slug : string) :
  ((c, slug) ∈ Pages.getAllVideoSlugs directory
   ↔ c ∈ Pages.categories ∧ slug ∈ Pages.getCategorySlugs (directory c))
  ∧ (directory c = ListingNotOk ∨ directory c = ListingFails →
     (c, slug) ∉ Pages.getAllVideoSlugs directory).
Proof.
  split; [apply slugs_of_categories_elem|].
  unfold Pages.getAllVideoSlugs. rewrite slugs_of_categories_elem.
  intros [->| ->] [_ H]; simpl in H; by apply elem_of_nil in H.
Qed.

Lemma ends_with_refl (s : string) : ends_with s s = true.
Proof. destruct s; simpl; by rewrite ?String.eqb_refl, ?Ascii.eqb_refl. Qed.

Lemma ends_with_app (suffix s : string) : ends_with suffix (s +:+ suffix) = true.
Proof.
  induction s as [|c r IH].
  - apply ends_with_refl.
  - rewrite append_cons. simpl. rewrite IH. apply orb_true_r.
Qed.

Lemma includes_cons (q : string) (c : ascii) (r : string) :
  Search.includes q (String c r) = Str.starts_with q (String c r) || Search.includes q r.
Proof. reflexivity. Qed.

Lemma strip_prefix_cons (a b : ascii) (p s : string) :
  Str.strip_prefix (String a p) (String b s)
  = if Ascii.eqb a b then Str.strip_prefix p s else None.
Proof. reflexivity. Qed.

Lemma strip_prefix_of_nil (a : ascii) (p : string) :
  Str.strip_prefix (String a p) "" = None.
Proof. reflexivity. Qed.

Lemma strip_prefix_nil (s : string) : Str.strip_prefix "" s = Some s.
Proof. by destruct s. Qed.

(** The text [.md] does not begin inside a text that does not hold it and
    end in a [.md] put after it. *)
Lemma strip_md_app (s : string) :
  s ≠ "" → Str.strip_prefix ".md" s = None →
  Str.strip_prefix ".md" (s +:+ ".md") = None.
Proof.
  destruct s as [|c1 [|c2 [|c3 t]]]; intros Hne H; [done|..];
    rewrite ?append_cons, ?append_nil;
    rewrite ?strip_prefix_cons, ?strip_prefix_of_nil, ?strip_prefix_nil in *;
    repeat (match goal with
            | |- context [Ascii.eqb ?a ?b] => destruct (Ascii.eqb_spec a b); subst
            | H : context [Ascii.eqb ?a ?b] |- _ => destruct (Ascii.eqb_spec a b); subst
            end; try done).
Qed.

Lemma starts_with_strip (q s : string) :
  Str.starts_with q s = false → Str.strip_prefix q s = None.
Proof. unfold Str.starts_with. by destruct (Str.strip_prefix q s). Qed.

Lemma split_at_first_unfold (p s : string) :
  Str.split_at_first p s
  = match Str.strip_prefix p s with
    | Some rest => Some ("", rest)
    | None =>
        match s with
        | EmptyString => None
        | String c r =>
            match Str.split_at_first p r with
            | Some (b, a) => Some (String c b, a)
            | None => None
            end
        end
    end.
Proof. by destruct s. Qed.

Lemma split_md_suffix (base : string) :
  Search.includes ".md" base = false →
  Str.split_at_first ".md" (base +:+ ".md") = Some (base, "").
Proof.
  induction base as [|c r IH]; [done|].
  rewrite includes_cons. intros [Hs Hr]%orb_false_iff.
  rewrite append_cons.
  assert (Hn : Str.strip_prefix ".md" (String c (r +:+ ".md")) = None).
  { rewrite <- append_cons. apply strip_md_app; [done|by apply starts_with_strip]. }
  rewrite split_at_first_unfold, Hn. by rewrite IH.
Qed.

Lemma strip_prefix_app (p s rest t : string) :
  Str.strip_prefix p s = Some rest → Str.strip_prefix p (s +:+ t) = Some (rest +:+ t).
Proof.
  revert s. induction p as [|a p IH]; intros s.
  - rewrite !strip_prefix_nil. by intros [= ->].
  - destruct s as [|b s]; [done|].
    rewrite append_cons, !strip_prefix_cons.
    destruct (Ascii.eqb a b); [apply IH|done].
Qed.

Lemma strip_prefix_none_app (p s t : string) :
  Str.strip_prefix p s = None → String.length p ≤ String.length s →
  Str.strip_prefix p (s +:+ t) = None.
Proof.
  revert s. induction p as [|a p IH]; intros s.
  - by rewrite strip_prefix_nil.
  - destruct s as [|b s]; [simpl; lia|].
    rewrite append_cons, !strip_prefix_cons.
    destruct (Ascii.eqb a b); [|done]. intros H Hl. apply IH; [done|simpl in Hl; lia].
Qed.

Lemma strip_prefix_length (p s rest : string) :
  Str.strip_prefix p s = Some rest → String.length p ≤ String.length s.
Proof.
  revert s. induction p as [|a p IH]; intros s; simpl; [lia|].
  destruct s as [|b s]; [done|]. simpl.
  destruct (Ascii.eqb a b); [|done]. intros H%IH. lia.
Qed.

Lemma split_at_first_length (p s a b : string) :
  Str.split_at_first p s = Some (a, b) → String.length p ≤ String.length s.
Proof.
  revert a b. induction s as [|c r IH]; intros a b; simpl.
  - destruct (Str.strip_prefix p "") eqn:H; [|done].
    intros _. by apply strip_prefix_length in H.
  - destruct (Str.strip_prefix p (String c r)) eqn:H.
    + intros _. by apply strip_prefix_length in H.
    + destruct (Str.split_at_first p r) as [[a' b']|] eqn:Hr; [|done].
      intros _. specialize (IH a' b' eq_refl). lia.
Qed.

Lemma split_at_first_app (p s a b t : string) :
  Str.split_at_first p s = Some (a, b) →
  Str.split_at_first p (s +:+ t) = Some (a, b +:+ t).
Proof.
  revert a b. induction s as [|c r IH]; intros a b;
    rewrite (split_at_first_unfold p (_ +:+ t)), (split_at_first_unfold p).
  - destruct (Str.strip_prefix p "") eqn:H; [|done].
    intros [= <- <-]. by rewrite (strip_prefix_app _ _ _ t H).
  - destruct (Str.strip_prefix p (String c r)) eqn:H.
    + intros [= <- <-]. by rewrite (strip_prefix_app _ _ _ t H).
    + destruct (Str.split_at_first p r) as [[a' b']|] eqn:Hr; [|done].
      intros [= <- <-].
      pose proof (split_at_first_length p r a' b' Hr) as Hl.
      rewrite strip_prefix_none_app by (done || simpl; lia).
      rewrite append_cons. by rewrite (IH a' b' eq_refl).
Qed.

(** X12.  For a file name made of a base and the ending [.md], the slug is
    the base when the base does not hold the text [.md]; when it does, it
    is the first [.md] of the base that is removed, and the ending
    stays. *)
Theorem slug_of_markdown_name (base : string) :
  Pages.is_markdown_file (base +:+ ".md") "file" = true
  ∧ (Search.includes ".md" base = false → Pages.remove_first_md (base +:+ ".md") = base)
  ∧ (∀ a b, Str.split_at_first ".md" base = Some (a, b) →
       Pages.remove_first_md (base +:+ ".md") = a +:+ b +:+ ".md").
Proof.
  split; [|split].
  - unfold Pages.is_markdown_file. by rewrite ends_with_app.
  - intros H. unfold Pages.remove_first_md.
    by rewrite split_md_suffix, append_nil_r.
  - intros a b H. unfold Pages.remove_first_md.
    by rewrite (split_at_first_app _ _ a b).
Qed.

(** ** More on the front-matter parser *)

Section MoreYamlProperties.

Context (R : Runtime).

Lemma match_front_matter_app (content body t : string) :
  Yaml.match_front_matter content = Some body →
  Yaml.match_front_matter (content +:+ t) = Some body.
Proof.
  unfold Yaml.match_front_matter.
  destruct (Str.strip_prefix ("---" +:+ nl) content) as [rest|] eqn:H1; [|done].
  rewrite (strip_prefix_app _ _ _ t H1). simpl.
  destruct (Str.split_at_first (nl +:+ "---") rest) as [[b after]|] eqn:H2; [|done].
  rewrite (split_at_first_app _ _ _ _ t H2). done.
Qed.

(** X13.  Once a text has a complete front-matter block, what is appended
    to the text does not change the parsed mapping. *)
Theorem front_matter_ignores_what_follows (content t : string) :
  is_Some (Yaml.match_front_matter content) →
  Yaml.parseYAMLFrontmatter R (Yaml.AString (content +:+ t))
  = Yaml.parseYAMLFrontmatter R (Yaml.AString content).
Proof.
  intros [body H]. unfold Yaml.parseYAMLFrontmatter, Yaml.block.
  by rewrite (match_front_matter_app content body t H), H.
Qed.

Lemma match_key_value_key (line key raw : string) :
  Yaml.match_key_value line = Some (key, raw) →
  Str.is_empty key = false ∧ Str.all_chars Chr.is_word key = true.
Proof.
  unfold Yaml.match_key_value.
  destruct (Str.is_empty (Str.take_while Chr.is_word line)) eqn:He; [done|].
  destruct (Str.expect ":" _); simpl; [|done].
  destruct (Str.all_chars _ _); [|done].
  intros [= <- <-]. split; [done|apply all_chars_take_while].
Qed.

Lemma keys_of_empty : Keys.keys_well_formed ∅.
Proof. intros k v H. by rewrite lookup_empty in H. Qed.

Lemma parse_line_keys (lines : list string) (line : string) (d : gmap string value) :
  Keys.keys_well_formed d → Keys.keys_well_formed (fst (Yaml.parse_line R lines line d)).
Proof.
  intros Hd. unfold Yaml.parse_line.
  destruct (Str.is_empty (Str.trim line)); [done|].
  destruct (Yaml.match_key_value line) as [[key raw]|] eqn:Hm; [|done].
  unfold mbind, Yaml.block_bind.
  destruct (field_value_returns R lines line key (Str.trim (Str.unquote raw)) d) as [x ->].
  unfold Yaml.set_property.
  destruct (String.eqb_spec key "__proto__") as [->|Hne]; [done|]. simpl.
  intros k v. rewrite lookup_insert. destruct (decide (key = k)) as [<-|_]; [|apply Hd].
  intros _. destruct (match_key_value_key line key raw Hm). done.
Qed.

Lemma for_of_keys (lines ls : list string) (d : gmap string value) :
  Keys.keys_well_formed d →
  Keys.keys_well_formed (fst (Yaml.for_of ls (Yaml.parse_line R lines) d)).
Proof.
  revert d. induction ls as [|l r IH]; intros d Hd; [done|].
  simpl. unfold mbind, Yaml.block_bind.
  pose proof (parse_line_keys lines l d Hd) as H1.
  destruct (parse_line_returns R lines l d) as [d1 Hd1]. rewrite Hd1 in *.
  by apply IH.
Qed.

(** X14.  Every key of the parsed mapping is made of one or more word
    characters, and the name [__proto__] is never a key. *)
Theorem parsed_keys_are_words (content : Yaml.argument) (k : string) (v : value) :
  Yaml.parseYAMLFrontmatter R content !! k = Some v → Keys.well_formed_key k.
Proof.
  unfold Yaml.parseYAMLFrontmatter.
  assert (H : Keys.keys_well_formed (fst (Yaml.block R content ∅))); [|apply H].
  destruct content as [s| |]; simpl; try apply keys_of_empty.
  destruct (Yaml.match_front_matter s); [|apply keys_of_empty].
  apply for_of_keys, keys_of_empty.
Qed.

End MoreYamlProperties.

(** ** More on the field normaliser *)

Lemma generateSlug_trim (text : string) : generateSlug (Str.trim text) = generateSlug text.
Proof. unfold generateSlug. by rewrite toLowerCase_trim, trim_idempotent. Qed.

Section MoreVideoProperties.

Context (R : Runtime).

(** X15.  Every field of the front-matter is in the record with the value
    the front-matter gives it, the four derived fields apart. *)
Theorem front_matter_fields_survive (file : RawFile) (content k : string)
    (x : value) (v : gmap string value) :
  fetch R (download_url file) = FetchText content →
  Video.parseTranslatedVideo R file = Some v →
  Yaml.parseYAMLFrontmatter R (Yaml.AString content) !! k = Some x →
  k ∉ Spec.derived_keys →
  v !! k = Some x.
Proof.
  intros Hf Hv Hx Hk.
  destruct (produced_record R file v Hv)
    as (title & contentType & translator & content' & src & Hm & Hf' & Hsrc & Hl).
  rewrite Hf in Hf'. injection Hf' as <-.
  by rewrite Hl, literal_lookup, Hx.
Qed.

(** X16.  Every record has all eighteen fields named in the object
    literal. *)
Theorem record_has_the_named_fields (file : RawFile) (v : gmap string value) (k : string) :
  Video.parseTranslatedVideo R file = Some v →
  k ∈ Keys.named_keys → is_Some (v !! k).
Proof.
  intros Hv Hin.
  destruct (produced_record R file v Hv)
    as (title & contentType & translator & content & src & Hm & Hf & Hsrc & Hl).
  unfold Keys.named_keys in Hin.
  repeat (apply elem_of_cons in Hin as [->|Hin];
          [rewrite Hl by not_derived; rewrite literal_lookup;
           destruct (_ !! _); by eexists|]).
  by apply elem_of_nil in Hin.
Qed.

Lemma named_translator (file : RawFile) (fm : gmap string value)
    (title contentType translator translatorSlug : string) :
  Video.named_fields R file fm title contentType translator translatorSlug !! "translator"
  = Some (js_or (fm !! "translator") (VStr (Str.trim translator))).
Proof. reflexivity. Qed.

Lemma parse_of_empty_front_matter (content : string) :
  Yaml.match_front_matter content = None →
  Yaml.parseYAMLFrontmatter R (Yaml.AString content) = ∅.
Proof. intros H. unfold Yaml.parseYAMLFrontmatter, Yaml.block. by rewrite H. Qed.

Lemma derive_fields_no_duration (v0 v1 : gmap string value) :
  v0 !! "duration" = Some (VStr "") →
  Video.format_upload_date R v0 = Ret v1 →
  Video.derive_fields R v0 = Ret (Some v1).
Proof.
  intros Hd H1. unfold Video.derive_fields, Video.ensure_iso_duration.
  rewrite Hd. simpl. rewrite H1. simpl. unfold Video.format_duration.
  by rewrite (format_upload_date_keeps R _ _ "duration" H1), Hd.
Qed.

(** X17.  A file whose name matches and whose text has no front-matter
    block always yields a record, made from the file name: the title is
    the first group with its hyphens turned into spaces, the slug is
    generated from the first group, the content type and the translator
    are the trimmed second and third groups, the translator slug is
    generated from the third, the duration is empty and no ISO or
    formatted duration is added. *)
Theorem record_without_front_matter (file : RawFile)
    (title contentType translator content : string) :
  Video.match_filename (name file) = Some (title, contentType, translator) →
  fetch R (download_url file) = FetchText content →
  Yaml.match_front_matter content = None →
  ∃ v, Video.parseTranslatedVideo R file = Some v
       ∧ v !! "title" = Some (VStr (Str.trim (Video.hyphens_to_spaces title)))
       ∧ v !! "slug" = Some (VStr (generateSlug title))
       ∧ v !! "contentType" = Some (VStr (Str.trim contentType))
       ∧ v !! "translator" = Some (VStr (Str.trim translator))
       ∧ v !! "translatorSlug" = Some (VStr (generateSlug translator))
       ∧ v !! "uploadDate" = Some (VStr (Date_now_iso R))
       ∧ v !! "duration" = Some (VStr "")
       ∧ v !! "isoDuration" = None
       ∧ v !! "formattedDuration" = None.
Proof.
  intros Hm Hf Hnone.
  unfold Video.parseTranslatedVideo.
  rewrite (parse_body_on_content R file title contentType translator content Hm Hf).
  rewrite (parse_of_empty_front_matter content Hnone).
  unfold Spec.translator_source. rewrite lookup_empty.
  change (js_or None (VStr translator)) with (VStr translator).
  change (Video.call_generateSlug (VStr translator)) with (Ret (generateSlug translator)).
  change (Ret (generateSlug translator) ≫= ?k) with (k (generateSlug translator)).
  unfold Video.object_literal. rewrite (left_id_L ∅ (∪)).
  destruct (format_upload_date_returns R
              (Video.named_fields R file ∅ title contentType translator
                 (generateSlug translator))
              (VStr (Date_now_iso R))) as [v1 H1]; [reflexivity..|].
  rewrite (derive_fields_no_duration _ v1) by (reflexivity || exact H1).
  exists v1. split; [reflexivity|].
  repeat split; by rewrite (format_upload_date_keeps R _ _ _ H1) by done.
Qed.

(** X18.  When the front-matter gives no translator slug and its
    translator is absent or truthy, the translator slug of the record is
    the slug generated from the translator of the record. *)
Theorem translator_slug_fits_translator (file : RawFile) (content : string)
    (v : gmap string value) :
  fetch R (download_url file) = FetchText content →
  Video.parseTranslatedVideo R file = Some v →
  Yaml.parseYAMLFrontmatter R (Yaml.AString content) !! "translatorSlug" = None →
  Video.truthy_opt (Yaml.parseYAMLFrontmatter R (Yaml.AString content) !! "translator")
    = true
  ∨ Yaml.parseYAMLFrontmatter R (Yaml.AString content) !! "translator" = None →
  ∃ t, v !! "translator" = Some (VStr t)
       ∧ v !! "translatorSlug" = Some (VStr (generateSlug t)).
Proof.
  intros Hf Hv Hts Htr.
  destruct (produced_record R file v Hv)
    as (title & contentType & translator & content' & src & Hm & Hf' & Hsrc & Hl).
  rewrite Hf in Hf'. injection Hf' as <-.
  set (fm := Yaml.parseYAMLFrontmatter R (Yaml.AString content)) in *.
  rewrite !Hl by not_derived.
  rewrite !literal_lookup, Hts, named_translatorSlug.
  unfold Spec.translator_source in Hsrc.
  destruct (fm !! "translator") as [x|] eqn:Hx.
  - destruct Htr as [Ht|?]; [|done]. simpl in Ht, Hsrc. rewrite Ht in Hsrc. subst x.
    by exists src.
  - simpl in Hsrc. injection Hsrc as <-.
    exists (Str.trim translator). rewrite named_translator, Hx.
    split; [reflexivity|]. by rewrite generateSlug_trim.
Qed.

Lemma is_empty_false (s : string) : s ≠ "" → Str.is_empty s = false.
Proof. by destruct s. Qed.

Lemma derive_fields_durations (v0 v : gmap string value) (d : string) :
  v0 !! "duration" = Some (VStr d) → d ≠ "" →
  Video.truthy_opt (v0 !! "isoDuration") = false →
  Video.derive_fields R v0 = Ret (Some v) →
  v !! "isoDuration" = Some (VStr (Duration.convertDurationToISO d))
  ∧ (d ≠ "Not specified" →
     v !! "formattedDuration" = Some (VStr (Duration.formatDurationForDisplay d))).
Proof.
  intros Hd Hne Hiso.
  unfold Video.derive_fields, Video.ensure_iso_duration.
  rewrite Hd, Hiso. simpl. rewrite (is_empty_false d Hne). simpl.
  set (v1 := <["isoDuration" := VStr (Duration.convertDurationToISO d)]> v0).
  destruct (Video.format_upload_date R v1) as [v2|] eqn:Hv2; [|done]. simpl.
  assert (H2 : v2 !! "duration" = Some (VStr d)).
  { rewrite (format_upload_date_keeps R _ _ _ Hv2) by done.
    unfold v1. by rewrite lookup_insert_ne. }
  assert (H3 : v2 !! "isoDuration" = Some (VStr (Duration.convertDurationToISO d))).
  { rewrite (format_upload_date_keeps R _ _ _ Hv2) by done.
    unfold v1. by rewrite lookup_insert_eq. }
  unfold Video.format_duration. rewrite H2. simpl. rewrite (is_empty_false d Hne). simpl.
  destruct (decide (VStr d = VStr "Not specified")) as [Heq|Hneq].
  - rewrite bool_decide_eq_true_2 by done. simpl.
    intros [= <-]. split; [exact H3|]. intros Hns. by injection Heq.
  - rewrite bool_decide_eq_false_2 by done. simpl.
    intros [= <-]. by rewrite lookup_insert_ne, lookup_insert_eq, H3.
Qed.

(** X19.  In a record whose duration is a non-empty text of at most
    fifteen characters and whose
    front-matter gives no truthy ISO duration, the ISO duration and the
    formatted duration are those of that duration text; when one of the
    five patterns recognises the text, the two agree on hours and
    minutes. *)
Theorem derived_durations_of_record (file : RawFile) (content d : string)
    (v : gmap string value) :
  fetch R (download_url file) = FetchText content →
  Video.parseTranslatedVideo R file = Some v →
  v !! "duration" = Some (VStr d) → d ≠ "" → Shape.short_text d →
  Video.truthy_opt (Yaml.parseYAMLFrontmatter R (Yaml.AString content) !! "isoDuration")
    = false →
  v !! "isoDuration" = Some (VStr (Duration.convertDurationToISO d))
  ∧ (d ≠ "Not specified" →
     v !! "formattedDuration" = Some (VStr (Duration.formatDurationForDisplay d)))
  ∧ (Shape.recognised d →
     ∃ iso shown hm,
       v !! "isoDuration" = Some (VStr iso)
       ∧ v !! "formattedDuration" = Some (VStr shown)
       ∧ Spec.iso_components iso = Some hm
       ∧ Spec.human_components shown = Some hm).
Proof.
  intros Hf Hv Hd Hne _ Hiso.
  assert (Hmain : v !! "isoDuration" = Some (VStr (Duration.convertDurationToISO d))
    ∧ (d ≠ "Not specified" →
       v !! "formattedDuration" = Some (VStr (Duration.formatDurationForDisplay d)))).
  2: { destruct Hmain as [H1 H2]. split; [done|]. split; [done|].
       intros Hr. destruct (duration_components d) as (hm & Ha & Hb).
       exists (Duration.convertDurationToISO d), (Duration.formatDurationForDisplay d), hm.
       split; [done|]. split; [|auto]. apply H2. intros ->.
       revert Hr. by apply not_recognised. }
  destruct (produced_record R file v Hv)
      as (title & contentType & translator & content' & src & Hm & Hf' & Hsrc & Hl);
    rewrite Hf in Hf'; injection Hf' as <-;
    set (fm := Yaml.parseYAMLFrontmatter R (Yaml.AString content)) in *;
    set (v0 := Video.object_literal R file fm title contentType translator
                 (generateSlug src)) in *;
    assert (Hd0 : v0 !! "duration" = Some (VStr d))
      by (rewrite <- Hl by not_derived; exact Hd);
    assert (Hi0 : Video.truthy_opt (v0 !! "isoDuration") = false)
      by (unfold v0; rewrite literal_lookup; destruct (fm !! "isoDuration"); done);
    unfold Video.parseTranslatedVideo in Hv;
    rewrite (parse_body_on_content R file title contentType translator content Hm Hf) in Hv;
    fold fm in Hv; rewrite Hsrc in Hv; simpl in Hv; fold v0 in Hv;
    destruct (Video.derive_fields R v0) as [[v'|]|] eqn:Hv'; try done;
    injection Hv as ->;
    exact (derive_fields_durations v0 v d Hd0 Hne Hi0 Hv').
Qed.

End MoreVideoProperties.

(** ** More on grouping *)

Section MoreGroupProperties.

Context (R : Runtime).

Lemma has_two_types (v : gmap string value) :
  Spec.has_type R "MOVIE" v = true → Spec.has_type R "TV-SERIES" v = true → False.
Proof.
  unfold Spec.has_type. destruct (v !! "contentType") as [c|]; [|done].
  destruct (Video.to_string R c) as [key|]; [|by rewrite andb_false_r].
  intros [_ H1%String.eqb_eq]%andb_true_iff [_ H2%String.eqb_eq]%andb_true_iff.
  by rewrite H1 in H2.
Qed.

Lemma elem_of_latest (k : string) (videos part : list (gmap string value))
    (limit : nat) (v : gmap string value) :
  Video.latest R limit (filter (λ v, Spec.has_type R k v = true) videos) = Ret part →
  v ∈ part → v ∈ videos ∧ Spec.has_type R k v = true.
Proof.
  unfold Video.latest.
  destruct (Video.sort_by _ _) as [sorted|] eqn:Hs; [|done]. intros [= <-] H.
  apply (subseteq_take limit) in H. rewrite (sort_by_perm _ _ _ Hs) in H.
  by apply list_elem_of_filter in H as [? ?].
Qed.

Lemma latest_within_limit (limit : nat) (l part : list (gmap string value)) :
  Video.latest R limit l = Ret part → length l ≤ limit → part ≡ₚ l.
Proof.
  unfold Video.latest.
  destruct (Video.sort_by _ _) as [sorted|] eqn:Hs; [|done]. intros [= <-] Hl.
  pose proof (sort_by_perm _ _ _ Hs) as Hp.
  rewrite take_ge; [done|]. by rewrite Hp.
Qed.

(** X20.  When every record can be grouped and ordered without an
    exception, the two partitions have no record in common, each holds
    records of the input of its own type only, and a partition whose type
    has at most [limit] records holds all of them. *)
Theorem partitions_within_limit (videos : list (gmap string value)) (limit : nat) :
  Forall (Spec.sortable R) videos →
  ∃ movies series,
    Video.getLatestVideosByType R videos limit
    = Ret (<["MOVIE" := movies]> (<["TV-SERIES" := series]> ∅))
    ∧ (∀ v, v ∈ movies → v ∈ videos ∧ Spec.has_type R "MOVIE" v = true)
    ∧ (∀ v, v ∈ series → v ∈ videos ∧ Spec.has_type R "TV-SERIES" v = true)
    ∧ (∀ v, v ∈ movies → v ∉ series)
    ∧ (length (filter (λ v, Spec.has_type R "MOVIE" v = true) videos) ≤ limit →
       movies ≡ₚ filter (λ v, Spec.has_type R "MOVIE" v = true) videos)
    ∧ (length (filter (λ v, Spec.has_type R "TV-SERIES" v = true) videos) ≤ limit →
       series ≡ₚ filter (λ v, Spec.has_type R "TV-SERIES" v = true) videos).
Proof.
  intros Hall. unfold Video.getLatestVideosByType, Video.empty_groups.
  rewrite (group_videos_partitions R videos [] [] Hall). simpl.
  rewrite lookup_insert_eq, lookup_insert_ne, lookup_insert_eq by done. simpl.
  destruct (latest_returns R limit _
              (sortable_partition R "MOVIE" videos (or_introl eq_refl) Hall))
    as [movies Hmovies].
  destruct (latest_returns R limit _
              (sortable_partition R "TV-SERIES" videos (or_intror eq_refl) Hall))
    as [series Hseries].
  rewrite Hmovies, Hseries.
  exists movies, series. split; [reflexivity|].
  split; [intros v; exact (elem_of_latest _ _ _ _ v Hmovies)|].
  split; [intros v; exact (elem_of_latest _ _ _ _ v Hseries)|].
  split.
  { intros v Hm Hs.
    destruct (elem_of_latest _ _ _ _ _ Hmovies Hm) as [_ H1].
    destruct (elem_of_latest _ _ _ _ _ Hseries Hs) as [_ H2].
    by apply (has_two_types v). }
  split; by apply latest_within_limit.
Qed.

End MoreGroupProperties.

Lemma partitions_within_limit_witness :
  ∃ movies series,
    Video.getLatestVideosByType bare_host sample_videos 8
    = Ret (<["MOVIE" := movies]> (<["TV-SERIES" := series]> ∅))
    ∧ (∀ v, v ∈ movies → v ∈ sample_videos ∧ Spec.has_type bare_host "MOVIE" v = true)
    ∧ (∀ v, v ∈ series → v ∈ sample_videos ∧ Spec.has_type bare_host "TV-SERIES" v = true)
    ∧ (∀ v, v ∈ movies → v ∉ series)
    ∧ (length (filter (λ v, Spec.has_type bare_host "MOVIE" v = true) sample_videos) ≤ 8 →
       movies ≡ₚ filter (λ v, Spec.has_type bare_host "MOVIE" v = true) sample_videos)
    ∧ (length (filter (λ v, Spec.has_type bare_host "TV-SERIES" v = true) sample_videos)
       ≤ 8 →
       series
       ≡ₚ filter (λ v, Spec.has_type bare_host "TV-SERIES" v = true) sample_videos).
Proof.
  apply (partitions_within_limit bare_host sample_videos 8).
  repeat apply Forall_cons_2; try apply Forall_nil_2.
  - by apply (sortable_of_string _ _ "MOVIE").
  - by apply (sortable_of_string _ _ "DOCUMENTARY").
  - by apply (sortable_of_string _ _ "MOVIE").
Defined.

(** ** Loading the translated videos *)

Section KeyedSort.

Context (cmp : gmap string value → gmap string value → outcome Z).
Context (key : gmap string value → Z) (P : gmap string value → Prop).
Hypothesis cmp_keys : ∀ a b, P a → P b → cmp a b = Ret (key b - key a)%Z.

Lemma insert_by_keyed (x : gmap string value) (l l' : list (gmap string value)) :
  P x → Forall P l → StronglySorted (λ a b, (key b ≤ key a)%Z) l →
  Video.insert_by cmp x l = Ret l' →
  StronglySorted (λ a b, (key b ≤ key a)%Z) l'.
Proof.
  intros Hx Hl Hs. revert l'.
  induction Hs as [|y r Hr IH Hy]; intros l'; simpl.
  { intros [= <-]. repeat constructor. }
  apply Forall_cons in Hl as [Hdy Hdr].
  rewrite (cmp_keys x y Hx Hdy).
  destruct (Z.leb_spec (key y - key x) 0).
  - intros [= <-]. constructor; [by constructor|].
    constructor; [lia|]. eapply Forall_impl; [exact Hy|]. simpl. intros; lia.
  - destruct (Video.insert_by cmp x r) as [r'|] eqn:Hins; [|done].
    intros [= <-]. constructor; [by apply IH|].
    rewrite (insert_by_perm _ _ _ _ Hins). constructor; [lia|done].
Qed.

Lemma sort_by_keyed (l l' : list (gmap string value)) :
  Forall P l → Video.sort_by cmp l = Ret l' →
  StronglySorted (λ a b, (key b ≤ key a)%Z) l'.
Proof.
  intros Hl. revert l'. induction Hl as [|x r Hx Hr IH]; intros l'; simpl.
  { intros [= <-]. constructor. }
  destruct (Video.sort_by cmp r) as [s|] eqn:Hs; [|done].
  intros Hins. apply (insert_by_keyed x s l' Hx); [|by apply IH|done].
  by rewrite (sort_by_perm _ _ _ Hs).
Qed.

End KeyedSort.

Lemma forallb_Forall {A : Type} (f : A → bool) (l : list A) :
  forallb f l = true → Forall (λ x, f x = true) l.
Proof.
  induction l as [|x r IH]; simpl; [constructor|].
  intros [Hx Hr]%andb_true_iff. constructor; auto.
Qed.

Lemma omap_length_le {A B : Type} (f : A → option B) (l : list A) :
  length (omap f l) ≤ length l.
Proof.
  induction l as [|x r IH]; [done|].
  change (omap f (x :: r))
    with (match f x with Some y => y :: omap f r | None => omap f r end).
  destruct (f x); simpl; lia.
Qed.

Section LoaderProperties.

Context (R : Runtime).

Lemma load_files_omap (files : list Library.Entry) :
  Library.load_files R files = omap (Order.record_of R) files.
Proof.
  induction files as [|f r IH]; [done|].
  simpl. unfold Order.record_of at 1.
  destruct (Pages.is_markdown_file _ _); [|done].
  destruct (Video.parseTranslatedVideo R (Library.file f)); by rewrite IH.
Qed.

Lemma compare_added_dated (a b : gmap string value) :
  Order.dated_added R a → Order.dated_added R b →
  Library.compare_added R a b = Ret (Order.added_of R b - Order.added_of R a)%Z.
Proof.
  unfold Order.dated_added, Order.added_of, Library.compare_added.
  by intros [ta ->] [tb ->].
Qed.

Lemma compare_added_converts (a b : gmap string value) :
  Order.added_converts R a = true → Order.added_converts R b = true →
  raised (Library.compare_added R a b) = false.
Proof.
  unfold Order.added_converts, Library.compare_added. intros Ha Hb.
  destruct (Library.added_time R b); [|done].
  by destruct (Library.added_time R a).
Qed.

(** X21.  A listing that is not ok or that fails loads no video.  From a
    listing, the videos loaded are the records of the entries that are
    markdown files and yield a record, each once per entry: an entry that
    yields none is passed over and the others are kept.  They come newest
    first by the date added when all their dates are valid.  The final
    sort, and with it the load, returns when the date of every record
    can be made. *)
Theorem loaded_videos (files : list Library.Entry) :
  Library.loadTranslatedVideos R ListingNotOk = Ret []
  ∧ Library.loadTranslatedVideos R ListingFails = Ret []
  ∧ (∀ videos, Library.loadTranslatedVideos R (Listed files) = Ret videos →
       videos ≡ₚ omap (Order.record_of R) files
       ∧ length videos ≤ length files
       ∧ (Forall (Order.dated_added R) videos → Order.newest_added_first R videos))
  ∧ (Forall (λ v, Order.added_converts R v = true) (omap (Order.record_of R) files) →
     ∃ videos, Library.loadTranslatedVideos R (Listed files) = Ret videos).
Proof.
  split; [reflexivity|]. split; [reflexivity|]. simpl. rewrite load_files_omap.
  split.
  - intros videos Hs. pose proof (sort_by_perm _ _ _ Hs) as Hp.
    split; [done|]. split; [rewrite Hp; apply omap_length_le|].
    intros Hd.
    apply (sort_by_keyed (Library.compare_added R) (Order.added_of R)
             (Order.dated_added R) compare_added_dated
             (omap (Order.record_of R) files)); [|done].
    by rewrite <- Hp.
  - intros Hall.
    apply (sort_by_returns (Library.compare_added R)
             (λ v, Order.added_converts R v = true));
      [apply compare_added_converts|done].
Qed.

End LoaderProperties.

(** ** Escaping and truncating *)

Lemma all_chars_app (p : ascii → bool) (a b : string) :
  Str.all_chars p (a +:+ b) = Str.all_chars p a && Str.all_chars p b.
Proof.
  induction a as [|c r IH]; [done|].
  rewrite append_cons. cbn [Str.all_chars]. by rewrite IH, andb_assoc.
Qed.

Lemma all_chars_replace_char (p q : ascii → bool) (c : ascii) (rep s : string) :
  Str.all_chars q rep = true →
  (∀ d, Ascii.eqb d c = false → p d = true → q d = true) →
  Str.all_chars p s = true →
  Str.all_chars q (Html.replace_char c rep s) = true.
Proof.
  intros Hrep Hpq. induction s as [|d r IH]; [done|].
  cbn [Str.all_chars Html.replace_char]. intros [Hd Hr]%andb_true_iff.
  destruct (Ascii.eqb d c) eqn:E.
  - rewrite all_chars_app, Hrep. by apply IH.
  - cbn [Str.all_chars]. rewrite (Hpq d E Hd). by apply IH.
Qed.

Lemma replace_char_id (c : ascii) (rep s : string) :
  Str.all_chars (λ d, negb (Ascii.eqb d c)) s = true → Html.replace_char c rep s = s.
Proof.
  induction s as [|d r IH]; [done|].
  cbn [Str.all_chars Html.replace_char]. intros [Hd Hr]%andb_true_iff.
  apply negb_true_iff in Hd. by rewrite Hd, IH.
Qed.

Lemma all_chars_true (s : string) : Str.all_chars (λ _, true) s = true.
Proof. induction s as [|c r IH]; [done|]. exact IH. Qed.

(** X22.  The text [escapeHTML] returns has none of the characters that
    open or close markup or an attribute value: no angle bracket and no
    quote of either kind; a text that has none of the five characters
    replaced is returned as it is. *)
Theorem escapeHTML_leaves_no_markup (str : string) :
  Str.all_chars (λ c, negb (Shape.markup_char c)) (Html.escapeHTML str) = true
  ∧ (Str.all_chars (λ c, negb (Shape.special_char c)) str = true →
     Html.escapeHTML str = str).
Proof.
  unfold Html.escapeHTML. split.
  - destruct (Str.is_empty str); [done|].
    apply (all_chars_replace_char
             (λ c, negb (Ascii.eqb c "<" || Ascii.eqb c ">" || Ascii.eqb c Html.DQUOTE)));
      [reflexivity|intros d; by_cases_on_char d|].
    apply (all_chars_replace_char (λ c, negb (Ascii.eqb c "<" || Ascii.eqb c ">")));
      [reflexivity|intros d; by_cases_on_char d|].
    apply (all_chars_replace_char (λ c, negb (Ascii.eqb c "<")));
      [reflexivity|intros d; by_cases_on_char d|].
    apply (all_chars_replace_char (λ _, true));
      [reflexivity|intros d; by_cases_on_char d|].
    apply all_chars_true.
  - intros H. destruct (Str.is_empty str) eqn:He; [by destruct str|].
    rewrite (replace_char_id "&") by
      (revert H; apply all_chars_impl; intros c; by_cases_on_char c).
    rewrite (replace_char_id "<") by
      (revert H; apply all_chars_impl; intros c; by_cases_on_char c).
    rewrite (replace_char_id ">") by
      (revert H; apply all_chars_impl; intros c; by_cases_on_char c).
    rewrite (replace_char_id Html.DQUOTE) by
      (revert H; apply all_chars_impl; intros c; by_cases_on_char c).
    apply replace_char_id.
    revert H; apply all_chars_impl; intros c; by_cases_on_char c.
Qed.

Lemma length_append (a b : string) :
  String.length (a +:+ b) = String.length a + String.length b.
Proof. induction a as [|c r IH]; [done|]. rewrite append_cons. simpl. by rewrite IH. Qed.

Lemma length_take_chars (n : nat) (s : string) :
  String.length (Html.take_chars n s) = n `min` String.length s.
Proof.
  revert s. induction n as [|n IH]; intros [|c r]; simpl; try done. by rewrite IH.
Qed.

(** X23.  A text no longer than the bound is returned as it is; a longer
    one is cut to its first [maxLength] characters followed by three
    dots, so the result is never longer than the bound plus three. *)
Theorem truncate_bounds (str : string) (maxLength : nat) :
  (String.length str ≤ maxLength → Html.truncate str (Z.of_nat maxLength) = str)
  ∧ (maxLength < String.length str →
     Html.truncate str (Z.of_nat maxLength) = Html.take_chars maxLength str +:+ "..."
     ∧ String.length (Html.truncate str (Z.of_nat maxLength)) = maxLength + 3)
  ∧ String.length (Html.truncate str (Z.of_nat maxLength)) ≤ maxLength + 3.
Proof.
  assert (Hlong : maxLength < String.length str →
      Html.truncate str (Z.of_nat maxLength) = Html.take_chars maxLength str +:+ "..."
      ∧ String.length (Html.truncate str (Z.of_nat maxLength)) = maxLength + 3).
  { intros H. unfold Html.truncate.
    destruct str as [|c r]; [simpl in H; lia|]. cbn [Str.is_empty].
    destruct (Z.leb_spec (Z.of_nat (String.length (String c r))) (Z.of_nat maxLength));
      [lia|].
    rewrite Nat2Z.id. split; [done|].
    rewrite length_append, length_take_chars.
    change (String.length "...") with 3. lia. }
  assert (Hshort : String.length str ≤ maxLength →
      Html.truncate str (Z.of_nat maxLength) = str).
  { intros H. unfold Html.truncate. destruct str as [|c r]; [done|]. cbn [Str.is_empty].
    destruct (Z.leb_spec (Z.of_nat (String.length (String c r))) (Z.of_nat maxLength));
      [done|lia]. }
  split; [done|]. split; [done|].
  destruct (Nat.le_gt_cases (String.length str) maxLength) as [H|H].
  - rewrite (Hshort H). lia.
  - destruct (Hlong H) as [_ ->]. lia.
Qed.

(** ** Breadcrumbs *)

(** X24.  The trail starts with Home and Agasobanuye, has one more item
    for each filter that is not empty, and exactly its last item is marked
    as the current one. *)
Theorem breadcrumbs_trail (searchQuery translatorFilter typeFilter baseUrl : string) :
  let items :=
    Crumbs.generateBreadcrumbs searchQuery translatorFilter typeFilter baseUrl in
  length items
  = 2 + (if Str.is_empty typeFilter then 0 else 1)
      + (if Str.is_empty translatorFilter then 0 else 1)
      + (if Str.is_empty searchQuery then 0 else 1)
  ∧ Crumbs.crumb_name <$> take 2 items = ["Home"; "Agasobanuye"]
  ∧ Crumbs.current <$> items = replicate (length items - 1) false ++ [true].
Proof.
  unfold Crumbs.generateBreadcrumbs.
  destruct searchQuery, translatorFilter, typeFilter; repeat split; reflexivity.
Qed.

(** ** Searching the records *)

Section SearchProperties.

Context (json_some : string → string → outcome bool).

Lemma filter_with_spec {A : Type} (test : A → outcome bool) (l found : list A) :
  Search.filter_with test l = Ret found →
  sublist found l
  ∧ Forall (λ x, test x = Ret true) found
  ∧ ∀ x, x ∈ l → test x = Ret true → x ∈ found.
Proof.
  revert found. induction l as [|x r IH]; intros found; simpl.
  { intros [= <-]. repeat split; [constructor|constructor|]. by intros ? ?%elem_of_nil. }
  destruct (test x) as [keep|] eqn:Hx; [|done].
  destruct (Search.filter_with test r) as [rest|]; [|done].
  destruct (IH rest eq_refl) as (Hsub & Hall & Hin).
  intros [= <-]. destruct keep.
  - split; [by constructor|]. split; [by constructor|].
    intros y [->|Hy]%elem_of_cons Ht; [left|right; auto].
  - split; [by constructor|]. split; [done|].
    intros y [->|Hy]%elem_of_cons Ht; [congruence|auto].
Qed.

(** X25.  An empty query returns every record.  The case of the query
    does not matter.  When the search returns, what it returns is made of
    records of the input, in their order, and a record is returned exactly
    when it passes the test on the lower-cased query. *)
Theorem search_results (videos : list (gmap string value)) (query : string) :
  (Str.is_empty query = true → Search.searchVideos json_some videos query = Ret videos)
  ∧ Search.searchVideos json_some videos (toLowerCase query)
    = Search.searchVideos json_some videos query
  ∧ ∀ found,
      Str.is_empty query = false →
      Search.searchVideos json_some videos query = Ret found →
      sublist found videos
      ∧ ∀ v, v ∈ found
             ↔ v ∈ videos
               ∧ Search.video_matches json_some (toLowerCase query) v = Ret true.
Proof.
  unfold Search.searchVideos. split; [by intros ->|]. split.
  - unfold toLowerCase at 1. rewrite map_is_empty.
    by rewrite toLowerCase_idempotent.
  - intros found -> Hf.
    destruct (filter_with_spec _ _ _ Hf) as (Hsub & Hall & Hin).
    split; [done|]. intros v. split.
    + intros Hv. split; [by apply (elem_of_sublist found videos)|].
      rewrite Forall_forall in Hall. by apply Hall.
    + intros [Hv Ht]. by apply Hin.
Qed.

End SearchProperties.

Lemma escapeHTML_leaves_no_markup_witness : Html.escapeHTML "Umuturanyi S01" = "Umuturanyi S01".
Proof.
  apply (proj2 (escapeHTML_leaves_no_markup "Umuturanyi S01")). reflexivity.
Defined.

Lemma truncate_bounds_witness :
  Html.truncate "Umuturanyi" (Z.of_nat 4) = Html.take_chars 4 "Umuturanyi" +:+ "..."
  ∧ String.length (Html.truncate "Umuturanyi" (Z.of_nat 4)) = 4 + 3.
Proof.
  apply (proj1 (proj2 (truncate_bounds "Umuturanyi" 4))). simpl. lia.
Defined.

Lemma search_results_witness :
  Search.searchVideos (λ _ _, Ret false) sample_videos "" = Ret sample_videos.
Proof.
  apply (proj1 (search_results (λ _ _, Ret false) sample_videos "")). reflexivity.
Defined.

(** ** Instances of the further properties *)


Lemma router_reaches_three_answers_witness :
  Pages.route bare_host sample_entries "https://example.org" "/sitemap-2.xml"
  = Sitemap.generateIndividualSitemap bare_host sample_entries "https://example.org"
      "/sitemap-2.xml".
Proof.
  apply (proj1 (router_reaches_three_answers bare_host sample_entries "https://example.org")).
  reflexivity.
Defined.

Lemma main_sitemap_choice_witness :
  Pages.generateMainSitemap bare_host sample_entries "https://example.org"
  = Sitemap.generateSitemapIndex sample_entries "https://example.org"
      (Sitemap.today_of (Date_now_iso bare_host)) 1000
  ∧ 1 ∈ Sitemap.chunk_numbers (length sample_entries) 1000.
Proof.
  apply (proj2 (proj2 (main_sitemap_choice bare_host sample_entries "https://example.org"))).
  apply Nat.ltb_lt. vm_compute. reflexivity.
Defined.

Lemma all_slugs_by_category_witness :
  ("drama", "umuturanyi") ∉ Pages.getAllVideoSlugs unreachable_directory.
Proof.
  apply (proj2 (all_slugs_by_category unreachable_directory "drama" "umuturanyi")).
  left. reflexivity.
Defined.

Lemma slug_of_markdown_name_witness :
  Pages.remove_first_md ("notes.md.backup" +:+ ".md") = "notes" +:+ ".backup" +:+ ".md".
Proof.
  apply (proj2 (proj2 (slug_of_markdown_name "notes.md.backup")) "notes" ".backup").
  reflexivity.
Defined.

Lemma front_matter_ignores_what_follows_witness :
  Yaml.parseYAMLFrontmatter bare_host
    (Yaml.AString (with_front_matter ["title: Umuturanyi"] +:+ "--- and more"))
  = Yaml.parseYAMLFrontmatter bare_host
      (Yaml.AString (with_front_matter ["title: Umuturanyi"])).
Proof.
  apply front_matter_ignores_what_follows. vm_compute. by eexists.
Defined.

Lemma parsed_keys_are_words_witness : Keys.well_formed_key "title".
Proof.
  apply (parsed_keys_are_words bare_host
           (Yaml.AString (with_front_matter ["title: Umuturanyi"]))
           "title" (VStr "Umuturanyi")).
  vm_compute. reflexivity.
Defined.

Lemma front_matter_fields_survive_witness :
  default ∅ (Video.parseTranslatedVideo host_without_slugs sample_file) !! "title"
  = Some (VStr "Spider-Man").
Proof.
  apply (front_matter_fields_survive host_without_slugs sample_file
           (with_front_matter ["title: Spider-Man"; "translator: Rocky Kimomo"]) "title").
  - reflexivity.
  - apply some_of_computed. vm_compute. reflexivity.
  - vm_compute. reflexivity.
  - not_derived.
Defined.

Lemma record_has_the_named_fields_witness :
  is_Some (default ∅ (Video.parseTranslatedVideo host_without_slugs sample_file)
             !! "quality").
Proof.
  apply (record_has_the_named_fields host_without_slugs sample_file).
  - apply some_of_computed. vm_compute. reflexivity.
  - unfold Keys.named_keys. repeat first [apply list_elem_of_here | apply list_elem_of_further].
Defined.

Lemma record_without_front_matter_witness :
  ∃ v, Video.parseTranslatedVideo host_without_front_matter sample_file = Some v
       ∧ v !! "title" = Some (VStr (Str.trim (Video.hyphens_to_spaces "Spider-Man")))
       ∧ v !! "slug" = Some (VStr (generateSlug "Spider-Man"))
       ∧ v !! "contentType" = Some (VStr (Str.trim "MOVIE"))
       ∧ v !! "translator" = Some (VStr (Str.trim "Rocky Kimomo"))
       ∧ v !! "translatorSlug" = Some (VStr (generateSlug "Rocky Kimomo"))
       ∧ v !! "uploadDate" = Some (VStr (Date_now_iso host_without_front_matter))
       ∧ v !! "duration" = Some (VStr "")
       ∧ v !! "isoDuration" = None
       ∧ v !! "formattedDuration" = None.
Proof.
  apply (record_without_front_matter host_without_front_matter sample_file
           "Spider-Man" "MOVIE" "Rocky Kimomo" "No front-matter here.");
    reflexivity.
Defined.

Lemma translator_slug_fits_translator_witness :
  ∃ t, default ∅ (Video.parseTranslatedVideo host_without_slugs sample_file)
         !! "translator" = Some (VStr t)
       ∧ default ∅ (Video.parseTranslatedVideo host_without_slugs sample_file)
           !! "translatorSlug" = Some (VStr (generateSlug t)).
Proof.
  apply (translator_slug_fits_translator host_without_slugs sample_file
           (with_front_matter ["title: Spider-Man"; "translator: Rocky Kimomo"])).
  - reflexivity.
  - apply some_of_computed. vm_compute. reflexivity.
  - vm_compute. reflexivity.
  - left. vm_compute. reflexivity.
Defined.

Lemma derived_durations_of_record_witness :
  default ∅ (Video.parseTranslatedVideo host_with_two_durations sample_file)
    !! "isoDuration" = Some (VStr (Duration.convertDurationToISO "1:30:00"))
  ∧ ("1:30:00" ≠ "Not specified" →
     default ∅ (Video.parseTranslatedVideo host_with_two_durations sample_file)
       !! "formattedDuration"
     = Some (VStr (Duration.formatDurationForDisplay "1:30:00")))
  ∧ (Shape.recognised "1:30:00" →
     ∃ iso shown hm,
       default ∅ (Video.parseTranslatedVideo host_with_two_durations sample_file)
         !! "isoDuration" = Some (VStr iso)
       ∧ default ∅ (Video.parseTranslatedVideo host_with_two_durations sample_file)
           !! "formattedDuration" = Some (VStr shown)
       ∧ Spec.iso_components iso = Some hm
       ∧ Spec.human_components shown = Some hm).
Proof.
  apply (derived_durations_of_record host_with_two_durations sample_file
           (with_front_matter ["runtime: 90 min"; "duration: 1:30:00"])).
  - reflexivity.
  - apply some_of_computed. vm_compute. reflexivity.
  - vm_compute. reflexivity.
  - discriminate.
  - unfold Shape.short_text. simpl. lia.
  - vm_compute. reflexivity.
Defined.

Lemma loaded_videos_witness :
  ∃ videos,
    Library.loadTranslatedVideos host_without_slugs (Listed sample_listing) = Ret videos.
Proof.
  apply (proj2 (proj2 (proj2 (loaded_videos host_without_slugs sample_listing)))).
  apply forallb_Forall. vm_compute. reflexivity.
Defined.
